(** * optree: the PyTreeSpec algebra and codec

    A shallow embedding of [src/src/treespec/treespec.cpp] and of the hashing
    code in [src/include/treespec.h]: the node record, the post-order
    traversal, [operator==], [Compose], [Tuple], [Leaf], [None], [Children],
    [ToPicklable], [FromPicklableImpl] and the two [AbslHashValue] overloads.

    C++ exceptions are modelled by an error monad; [ssize_t] values are
    mathematical integers (signed overflow is undefined in C++, and node
    counts are bounded by the length of a vector held in memory). *)

From Stdlib Require Import ZArith List String Ascii Bool Lia.
Import ListNotations.
Local Open Scope string_scope.
Local Open Scope list_scope.
Local Open Scope Z_scope.

Set Warnings "-register-all".

(** ** List helpers *)

Section ListHelpers.
Context {A : Type}.
Variable eqA : A -> A -> bool.

(** Element-wise comparison of two sequences of the same length. *)
Fixpoint all2 (xs ys : list A) {struct xs} : bool :=
  match xs, ys with
  | [], [] => true
  | x :: xs', y :: ys' => eqA x y && all2 xs' ys'
  | _, _ => false
  end.
End ListHelpers.

(** ** Exceptions *)

(** The exceptions the embedded functions can raise.  [Undefined] marks the
    places where the C++ code would read outside an object (behaviour the
    language leaves undefined); no theorem below relies on its value. *)
Inductive exn : Type :=
| InternalError      (* EXPECT_* and INTERNAL_ERROR of include/exceptions.h *)
| InvalidArgument    (* std::invalid_argument *)
| Malformed          (* std::runtime_error("Malformed pickled PyTreeSpec.") *)
| UnknownCustomType  (* std::runtime_error("Unknown custom type ...") *)
| CastError          (* pybind11::cast_error / type_error *)
| PyTypeError        (* a Python TypeError carried by error_already_set *)
| OutOfRange         (* std::out_of_range, std::length_error *)
| Undefined.

Inductive result (A : Type) : Type :=
| OK (a : A)
| Raise (e : exn).
Arguments OK {A} a.
Arguments Raise {A} e.

Definition bind {A B} (r : result A) (k : A -> result B) : result B :=
  match r with
  | OK a => k a
  | Raise e => Raise e
  end.

Notation "x <- c1 ;; c2" := (bind c1 (fun x => c2))
  (at level 61, c1 at next level, right associativity).

Definition is_ok {A} (r : result A) : bool :=
  match r with OK _ => true | Raise _ => false end.

(** ** Host values

    The Python objects that reach the embedded code: auxiliary node data
    (key lists, type objects, [maxlen], the [(default_factory, keys)] pair,
    custom aux data), path entries and the pickled form. *)
Inductive PyObject : Type :=
| PyNone
| PyBool (b : bool)
| PyInt (z : Z)
| PyStr (s : string)
| PyTuple (items : list PyObject)
| PyList (items : list PyObject)
| PyType (name : string).

Definition is_none (o : PyObject) : bool :=
  match o with PyNone => true | _ => false end.

(** Python's [==] on these values: numbers compare by value ([True == 1]),
    sequences element-wise and only with a sequence of the same type, type
    objects by identity. *)
Fixpoint py_eq (a b : PyObject) {struct a} : bool :=
  match a, b with
  | PyNone, PyNone => true
  | PyBool x, PyBool y => Bool.eqb x y
  | PyBool x, PyInt y => Z.b2z x =? y
  | PyInt x, PyBool y => x =? Z.b2z y
  | PyInt x, PyInt y => x =? y
  | PyStr x, PyStr y => String.eqb x y
  | PyTuple xs, PyTuple ys => all2 py_eq xs ys
  | PyList xs, PyList ys => all2 py_eq xs ys
  | PyType x, PyType y => String.eqb x y
  | _, _ => false
  end.

(** [a.not_equal(b)] of pybind11: the rich comparison [a != b]. *)
Definition not_equal (a b : PyObject) : bool := negb (py_eq a b).

(** [py::hash].  Lists are unhashable; a tuple is hashable when its items
    are.  The numeric values stand for CPython's (integers are reduced
    modulo the Mersenne prime 2^61 - 1, strings by a keyed hash); what the
    embedded code relies on is that equal values have equal hashes. *)
Definition hash_modulus : Z := 2 ^ 61 - 1.

Definition int_hash (z : Z) : Z :=
  let h := Z.sgn z * (Z.abs z mod hash_modulus) in
  if h =? -1 then -2 else h.

Fixpoint str_hash (s : string) : Z :=
  match s with
  | EmptyString => 0
  | String c s' => (Z.of_nat (nat_of_ascii c) + 1 + 1000003 * str_hash s') mod hash_modulus
  end.

Section HashItems.
Variable item_hash : PyObject -> result Z.

(** The running combination of a tuple's item hashes. *)
Fixpoint hash_items (acc : Z) (xs : list PyObject) {struct xs} : result Z :=
  match xs with
  | [] => OK acc
  | x :: xs' =>
      h <- item_hash x ;;
      hash_items ((acc * 1000003 + h) mod hash_modulus) xs'
  end.
End HashItems.

Fixpoint py_hash (o : PyObject) : result Z :=
  match o with
  | PyNone => OK 4238894112
  | PyBool b => OK (Z.b2z b)
  | PyInt z => OK (int_hash z)
  | PyStr s => OK (str_hash s)
  | PyTuple xs => hash_items py_hash 3430008 xs
  | PyList _ => Raise PyTypeError
  | PyType name => OK (str_hash name + 1)
  end.

(** *** pybind11 conversions used by the decoder *)

(** [o.cast<ssize_t>()]: Python integers (and booleans) that fit 64 bits. *)
Definition ssize_min : Z := - 2 ^ 63.
Definition ssize_max : Z := 2 ^ 63 - 1.

Definition cast_ssize_t (o : PyObject) : result Z :=
  match o with
  | PyInt z => if (ssize_min <=? z) && (z <=? ssize_max) then OK z else Raise CastError
  | PyBool b => OK (Z.b2z b)
  | _ => Raise CastError
  end.

(** [o.cast<bool>()]: [True], [False], [None] and values with [__bool__]. *)
Definition cast_bool (o : PyObject) : result bool :=
  match o with
  | PyBool b => OK b
  | PyNone => OK false
  | PyInt z => OK (negb (z =? 0))
  | _ => Raise CastError
  end.

(** [o.cast<std::string>()]. *)
Definition cast_string (o : PyObject) : result string :=
  match o with
  | PyStr s => OK s
  | _ => Raise CastError
  end.

Fixpoint chars (s : string) : list PyObject :=
  match s with
  | EmptyString => []
  | String c s' => PyStr (String c EmptyString) :: chars s'
  end.

(** Iterating a host value ([for (auto item : obj)]). *)
Definition py_iter (o : PyObject) : result (list PyObject) :=
  match o with
  | PyTuple xs | PyList xs => OK xs
  | PyStr s => OK (chars s)
  | _ => Raise PyTypeError
  end.

(** [o.cast<py::tuple>()]: a tuple is kept, another sequence is converted. *)
Definition cast_tuple (o : PyObject) : result PyObject :=
  match o with
  | PyTuple xs => OK (PyTuple xs)
  | _ => xs <- py_iter o ;; OK (PyTuple xs)
  end.

(** [o.cast<py::list>()]: a list is kept, another sequence is converted. *)
Definition cast_list (o : PyObject) : result PyObject :=
  match o with
  | PyList xs => OK (PyList xs)
  | _ => xs <- py_iter o ;; OK (PyList xs)
  end.

(** [o.cast<py::type>()]: only type objects pass. *)
Definition cast_type (o : PyObject) : result PyObject :=
  match o with
  | PyType n => OK (PyType n)
  | _ => Raise CastError
  end.

(** ** Node kinds and the type registry *)

Inductive PyTreeKind : Type :=
| Custom | Leaf | None | Tuple | List | Dict | NamedTuple
| OrderedDict | DefaultDict | Deque | StructSequence.

(** Modelled from the spec: the enumerators of [PyTreeKind] are declared in
    include/registry.h, which is not among the sources; the codec stores
    [static_cast<ssize_t>(node.kind)], the "kind_ordinal" of the picklable
    form.  The enumerators are numbered from [Custom = 0] in the order of
    the declaration; the theorems only use that the numbering is one-to-one,
    and the example pickles name their kinds through [kind_ordinal]. *)
Definition kind_ordinal (k : PyTreeKind) : Z :=
  match k with
  | Custom => 0 | Leaf => 1 | None => 2 | Tuple => 3 | List => 4 | Dict => 5
  | NamedTuple => 6 | OrderedDict => 7 | DefaultDict => 8 | Deque => 9
  | StructSequence => 10
  end.

(** [static_cast<PyTreeKind>(z)]; a value that names no enumerator reaches
    the [default: INTERNAL_ERROR()] branch of the following [switch]. *)
Definition kind_of_ordinal (z : Z) : option PyTreeKind :=
  match z with
  | 0 => Some Custom | 1 => Some Leaf | 2 => Some None | 3 => Some Tuple
  | 4 => Some List | 5 => Some Dict | 6 => Some NamedTuple
  | 7 => Some OrderedDict | 8 => Some DefaultDict | 9 => Some Deque
  | 10 => Some StructSequence
  | _ => Datatypes.None
  end.

Definition kind_eqb (a b : PyTreeKind) : bool := kind_ordinal a =? kind_ordinal b.

(** A [const PyTreeTypeRegistry::Registration*]: [Datatypes.None] is
    [nullptr], [Some p] the address of a registration. *)
Definition RegistrationPtr : Type := positive.

Definition ptr_eqb (a b : option RegistrationPtr) : bool :=
  match a, b with
  | Some p, Some q => Pos.eqb p q
  | Datatypes.None, Datatypes.None => true
  | _, _ => false
  end.

(** The registry of include/registry.h, which is not among the sources, is
    a parameter of the codec: [Lookup none_is_leaf cls ns] is
    [PyTreeTypeRegistry::Lookup<NoneIsLeaf>(cls, ns)] and
    [registration_type p] is [p->type]. *)
Record PyTreeTypeRegistry : Type := {
  Lookup : bool -> PyObject -> string -> option RegistrationPtr;
  registration_type : RegistrationPtr -> PyObject
}.

(** ** Nodes and tree specifications *)

(** [struct Node].  An empty [py::object] (null pointer) is
    [Datatypes.None]; a present object, [Py_None] included, is [Some _]. *)
Record Node : Type := mkNode {
  kind : PyTreeKind;
  arity : Z;
  node_data : option PyObject;
  node_entries : option PyObject;
  custom : option RegistrationPtr;
  num_leaves : Z;
  num_nodes : Z
}.

Record PyTreeSpec : Type := mkSpec {
  m_traversal : list Node;
  m_none_is_leaf : bool;
  m_namespace : string
}.

Definition empty (s : string) : bool :=
  match s with EmptyString => true | _ => false end.

Definition size (t : list Node) : Z := Z.of_nat (List.length t).

(** [m_traversal.back()] guarded by [EXPECT_FALSE(m_traversal.empty())]. *)
Definition back (t : list Node) : result Node :=
  match rev t with
  | [] => Raise InternalError
  | n :: _ => OK n
  end.

Definition spec_num_leaves (s : PyTreeSpec) : result Z :=
  n <- back (m_traversal s) ;; OK (num_leaves n).

Definition spec_num_nodes (s : PyTreeSpec) : Z := size (m_traversal s).

Definition spec_num_children (s : PyTreeSpec) : result Z :=
  n <- back (m_traversal s) ;; OK (arity n).

Definition is_leaf (s : PyTreeSpec) (strict : bool) : result bool :=
  if strict then
    if spec_num_nodes s =? 1 then l <- spec_num_leaves s ;; OK (l =? 1) else OK false
  else OK (spec_num_nodes s =? 1).

(** ** [PyTreeSpec::operator==] *)

Definition is_null (o : option PyObject) : bool :=
  match o with Some _ => false | Datatypes.None => true end.

(** The test [a->node_data && a->node_data.not_equal(b->node_data)]; it is
    reached only when both data are present or both are absent. *)
Definition data_differs (a b : option PyObject) : bool :=
  match a, b with
  | Some x, Some y => not_equal x y
  | _, _ => false
  end.

(** The body of the loop over the two traversals.  The sizes are equal when
    the loop starts, so the iterators run out together. *)
Fixpoint nodes_equal (a b : list Node) : result bool :=
  match a, b with
  | [], _ => OK true
  | x :: a', y :: b' =>
      if negb (kind_eqb (kind x) (kind y)) || negb (arity x =? arity y)
         || negb (Bool.eqb (is_null (node_data x)) (is_null (node_data y)))
         || negb (ptr_eqb (custom x) (custom y))
      then OK false
      else if data_differs (node_data x) (node_data y) then OK false
      else if negb (num_leaves x =? num_leaves y) then Raise InternalError
      else if negb (num_nodes x =? num_nodes y) then Raise InternalError
      else nodes_equal a' b'
  | _ :: _, [] => Raise Undefined
  end.

Definition namespace_mismatch (a b : string) : bool :=
  negb (empty a) && negb (empty b) && negb (String.eqb a b).

Definition spec_eq (self other : PyTreeSpec) : result bool :=
  if negb (size (m_traversal self) =? size (m_traversal other))
     || negb (Bool.eqb (m_none_is_leaf self) (m_none_is_leaf other))
  then OK false
  else if namespace_mismatch (m_namespace self) (m_namespace other) then OK false
  else nodes_equal (m_traversal self) (m_traversal other).

(** ** [PyTreeSpec::Compose] *)

(** One iteration of the loop over the outer traversal.  The counts are
    [ssize_t] in the code and integers here: the two agree as long as the
    products and the sum stay in the range of [ssize_t], which they do on
    traversals whose nodes count their own subtrees, where every value is at
    most the length of the composed traversal. *)
Definition compose_node (inner : list Node) (num_inner_leaves num_inner_nodes : Z)
    (node : Node) : list Node :=
  match kind node with
  | Leaf => inner
  | _ =>
      [mkNode (kind node) (arity node) (node_data node) (node_entries node) (custom node)
         (num_leaves node * num_inner_leaves)
         ((num_nodes node - num_leaves node) + (num_leaves node * num_inner_nodes))]
  end.

(** Modelled from the spec: the [EXPECT_EQ] macro of include/exceptions.h,
    which is not among the sources; a failed check is an internal-invariant
    failure, raised as the [InternalError] that optree.cpp registers. *)
Definition expect_eq (a b : Z) : result unit :=
  if a =? b then OK tt else Raise InternalError.

Definition Compose (self inner_treespec : PyTreeSpec) : result PyTreeSpec :=
  if negb (Bool.eqb (m_none_is_leaf self) (m_none_is_leaf inner_treespec))
  then Raise InvalidArgument
  else if namespace_mismatch (m_namespace self) (m_namespace inner_treespec)
  then Raise InvalidArgument
  else
    let ns := if empty (m_namespace inner_treespec)
              then m_namespace self else m_namespace inner_treespec in
    num_outer_leaves <- spec_num_leaves self ;;
    let num_outer_nodes := spec_num_nodes self in
    num_inner_leaves <- spec_num_leaves inner_treespec ;;
    let num_inner_nodes := spec_num_nodes inner_treespec in
    let traversal :=
      flat_map (compose_node (m_traversal inner_treespec) num_inner_leaves num_inner_nodes)
               (m_traversal self) in
    root <- match rev traversal with
            | [] => Raise Undefined
            | n :: _ => OK n
            end ;;
    _ <- expect_eq (num_leaves root) (num_outer_leaves * num_inner_leaves) ;;
    _ <- expect_eq (num_nodes root)
           ((num_outer_nodes - num_outer_leaves) + (num_outer_leaves * num_inner_nodes)) ;;
    OK (mkSpec traversal (m_none_is_leaf self) ns).

(** ** [PyTreeSpec::Tuple], [PyTreeSpec::Leaf], [PyTreeSpec::None] *)

(** First loop of [Tuple]: every child has the requested [none_is_leaf] and
    the non-empty namespaces agree; returns [registry_namespace]. *)
Fixpoint tuple_check (none_is_leaf : bool) (registry_namespace : string)
    (treespecs : list PyTreeSpec) : result string :=
  match treespecs with
  | [] => OK registry_namespace
  | treespec :: rest =>
      if negb (Bool.eqb (m_none_is_leaf treespec) none_is_leaf) then Raise InvalidArgument
      else if negb (empty (m_namespace treespec)) then
        if empty registry_namespace
        then tuple_check none_is_leaf (m_namespace treespec) rest
        else if negb (String.eqb registry_namespace (m_namespace treespec))
        then Raise InvalidArgument
        else tuple_check none_is_leaf registry_namespace rest
      else tuple_check none_is_leaf registry_namespace rest
  end.

(** Second loop of [Tuple]: append each child's traversal and add up the
    children's [num_leaves()].  The running sum is an [ssize_t] in the code
    and an integer here: the two agree as long as the sum stays in the range
    of [ssize_t], which it does for children whose roots count their own
    leaves, where it is at most the length of [out]. *)
Fixpoint tuple_collect (out : list Node) (leaves : Z) (treespecs : list PyTreeSpec)
    : result (list Node * Z) :=
  match treespecs with
  | [] => OK (out, leaves)
  | treespec :: rest =>
      l <- spec_num_leaves treespec ;;
      tuple_collect (out ++ m_traversal treespec) (leaves + l) rest
  end.

Definition PyTreeSpec_Tuple (treespecs : list PyTreeSpec) (none_is_leaf : bool) : result PyTreeSpec :=
  registry_namespace <- tuple_check none_is_leaf "" treespecs ;;
  r <- tuple_collect [] 0 treespecs ;;
  let (out, leaves) := r in
  let node := mkNode Tuple (Z.of_nat (List.length treespecs)) Datatypes.None Datatypes.None
                Datatypes.None leaves (size out + 1) in
  OK (mkSpec (out ++ [node]) none_is_leaf registry_namespace).

Definition PyTreeSpec_Leaf (none_is_leaf : bool) : PyTreeSpec :=
  mkSpec [mkNode Leaf 0 Datatypes.None Datatypes.None Datatypes.None 1 1] none_is_leaf "".

Definition PyTreeSpec_None (none_is_leaf : bool) : PyTreeSpec :=
  if none_is_leaf then PyTreeSpec_Leaf none_is_leaf
  else mkSpec [mkNode None 0 Datatypes.None Datatypes.None Datatypes.None 0 1] none_is_leaf "".

(** ** [PyTreeSpec::Children] *)

(** [m_traversal.at(i)]. *)
Definition at_index (t : list Node) (i : Z) : result Node :=
  if (i <? 0) || (size t <=? i) then Raise OutOfRange
  else match nth_error t (Z.to_nat i) with
       | Some n => OK n
       | Datatypes.None => Raise OutOfRange
       end.

(** The nodes in [[first, last)]. *)
Definition slice (t : list Node) (first last : Z) : list Node :=
  firstn (Z.to_nat (last - first)) (skipn (Z.to_nat first) t).

(** The loop [for (i = root.arity - 1; i >= 0; --i)]: [i] iterations are
    left, [children] holds the slots already filled (those after [i]). *)
Fixpoint children_loop (self : PyTreeSpec) (i : nat) (pos : Z) (children : list PyTreeSpec)
    : result (Z * list PyTreeSpec) :=
  match i with
  | O => OK (pos, children)
  | S i' =>
      node <- at_index (m_traversal self) (pos - 1) ;;
      if pos <? num_nodes node then Raise InternalError
      else if num_nodes node <? 0 then Raise Undefined
      else
        let child := mkSpec (slice (m_traversal self) (pos - num_nodes node) pos)
                            (m_none_is_leaf self) (m_namespace self) in
        children_loop self i' (pos - num_nodes node) (child :: children)
  end.

(** [children.resize(root.arity)] throws when [arity] is negative; the final
    [EXPECT_EQ(pos, 0)] checks that the walk ended at the start. *)
Definition Children (self : PyTreeSpec) : result (list PyTreeSpec) :=
  match rev (m_traversal self) with
  | [] => OK []
  | root :: _ =>
      if arity root <? 0 then Raise OutOfRange
      else
        r <- children_loop self (Z.to_nat (arity root)) (size (m_traversal self) - 1) [] ;;
        let (pos, children) := r in
        _ <- expect_eq pos 0 ;;
        OK children
  end.

(** ** The codec: [ToPicklable] and [FromPicklableImpl] *)

Definition or_none (o : option PyObject) : PyObject :=
  match o with Some x => x | Datatypes.None => PyNone end.

Definition node_state (registry : PyTreeTypeRegistry) (node : Node) : PyObject :=
  PyTuple [PyInt (kind_ordinal (kind node));
           PyInt (arity node);
           or_none (node_data node);
           or_none (node_entries node);
           match custom node with
           | Some p => registration_type registry p
           | Datatypes.None => PyNone
           end;
           PyInt (num_leaves node);
           PyInt (num_nodes node)].

Definition ToPicklable (registry : PyTreeTypeRegistry) (self : PyTreeSpec) : PyObject :=
  PyTuple [PyTuple (map (node_state registry) (m_traversal self));
           PyBool (m_none_is_leaf self);
           PyStr (m_namespace self)].

(** The body of the loop over [node_states]. *)
Definition decode_node (registry : PyTreeTypeRegistry) (none_is_leaf : bool)
    (registry_namespace : string) (item : PyObject) : result Node :=
  t <- cast_tuple item ;;
  match t with
  | PyTuple [t0; t1; t2; t3; t4; t5; t6] =>
      k <- cast_ssize_t t0 ;;
      ar <- cast_ssize_t t1 ;;
      match kind_of_ordinal k with
      | Datatypes.None => Raise InternalError
      | Some kd =>
          data <- match kd with
                  | Leaf | None | Tuple | List =>
                      if negb (is_none t2) then Raise Malformed else OK Datatypes.None
                  | Dict | OrderedDict => d <- cast_list t2 ;; OK (Some d)
                  | NamedTuple | StructSequence => d <- cast_type t2 ;; OK (Some d)
                  | DefaultDict | Deque | Custom => OK (Some t2)
                  end ;;
          ec <- match kd with
                | Custom =>
                    entries <- (if negb (is_none t3)
                                then e <- cast_tuple t3 ;; OK (Some e)
                                else OK Datatypes.None) ;;
                    let c := if is_none t4 then Datatypes.None
                             else Lookup registry none_is_leaf t4 registry_namespace in
                    match c with
                    | Datatypes.None => Raise UnknownCustomType
                    | Some p => OK (entries, Some p)
                    end
                | _ =>
                    if negb (is_none t3) || negb (is_none t4) then Raise Malformed
                    else OK (Datatypes.None, Datatypes.None)
                end ;;
          leaves <- cast_ssize_t t5 ;;
          nodes <- cast_ssize_t t6 ;;
          OK (mkNode kd ar data (fst ec) (snd ec) leaves nodes)
      end
  | _ => Raise Malformed
  end.

Fixpoint decode_nodes (registry : PyTreeTypeRegistry) (none_is_leaf : bool)
    (registry_namespace : string) (items : list PyObject) : result (list Node) :=
  match items with
  | [] => OK []
  | item :: rest =>
      node <- decode_node registry none_is_leaf registry_namespace item ;;
      nodes <- decode_nodes registry none_is_leaf registry_namespace rest ;;
      OK (node :: nodes)
  end.

Definition FromPicklableImpl (registry : PyTreeTypeRegistry) (picklable : PyObject)
    : result PyTreeSpec :=
  match picklable with
  | PyTuple [state0; state1; state2] =>
      none_is_leaf <- cast_bool state1 ;;
      registry_namespace <- cast_string state2 ;;
      node_states <- py_iter state0 ;;
      traversal <- decode_nodes registry none_is_leaf registry_namespace node_states ;;
      OK (mkSpec traversal none_is_leaf registry_namespace)
  | _ => Raise Malformed
  end.

Definition FromPicklable := FromPicklableImpl.

(** ** Hashing: the two [AbslHashValue] overloads of include/treespec.h *)

(** The hash state [H] of absl: values are folded into a state with
    [H::combine]; [absl::HashOf] starts from the seed and finalizes. *)
Class HashState : Type := {
  H : Type;
  seed : H;
  combine_int : H -> Z -> H;
  combine_string : H -> string -> H;
  finalize : H -> Z
}.

(** [py::ssize_t_cast] of a [size_t]: the value read as a signed word. *)
Definition ssize_t_cast (z : Z) : Z := (z + 2 ^ 63) mod 2 ^ 64 - 2 ^ 63.

Section Hashing.
Context {HS : HashState}.

(** [absl::HashOf(a, b)]. *)
Definition HashOf2 (a b : Z) : Z := finalize (combine_int (combine_int seed a) b).

(** The loop [for key in keys: data_hash = HashOf(data_hash, hash(key))]. *)
Fixpoint hash_keys (data_hash : Z) (keys : list PyObject) : result Z :=
  match keys with
  | [] => OK data_hash
  | key :: rest =>
      h <- py_hash key ;;
      hash_keys (ssize_t_cast (HashOf2 data_hash h)) rest
  end.

(** The [switch] that computes [data_hash]. *)
Definition node_data_hash (n : Node) : result Z :=
  match kind n with
  | Custom => OK 0
  | Leaf | None | Tuple | List | NamedTuple | Deque | StructSequence =>
      py_hash (or_none (node_data n))
  | DefaultDict =>
      match node_data n with
      | Some (PyTuple items) =>
          match items with
          | [default_factory; keys_object] =>
              match keys_object with
              | PyList keys =>
                  _ <- expect_eq (Z.of_nat (List.length keys)) (arity n) ;;
                  h <- py_hash default_factory ;;
                  hash_keys h keys
              | _ => Raise Undefined
              end
          | _ => Raise InternalError
          end
      | _ => Raise Undefined
      end
  | Dict | OrderedDict =>
      match node_data n with
      | Some (PyList keys) =>
          _ <- expect_eq (Z.of_nat (List.length keys)) (arity n) ;;
          hash_keys 0 keys
      | _ => Raise Undefined
      end
  end.

Definition ptr_value (p : option RegistrationPtr) : Z :=
  match p with Some a => Zpos a | Datatypes.None => 0 end.

(** [AbslHashValue(H h, const Node& n)]. *)
Definition hash_node (h : H) (n : Node) : result H :=
  data_hash <- node_data_hash n ;;
  OK (combine_int
        (combine_int
           (combine_int
              (combine_int
                 (combine_int (combine_int h (kind_ordinal (kind n))) (arity n))
                 (ptr_value (custom n)))
              (num_leaves n))
           (num_nodes n))
        data_hash).

(** Hashing the vector [m_traversal]: each node in turn, then the size. *)
Fixpoint hash_nodes (h : H) (t : list Node) : result H :=
  match t with
  | [] => OK h
  | n :: rest => h' <- hash_node h n ;; hash_nodes h' rest
  end.

(** [AbslHashValue(H h, const PyTreeSpec& t)]. *)
Definition hash_spec (h : H) (t : PyTreeSpec) : result H :=
  h1 <- hash_nodes h (m_traversal t) ;;
  let h2 := combine_int h1 (size (m_traversal t)) in
  let h3 := combine_int h2 (Z.b2z (m_none_is_leaf t)) in
  OK (combine_string h3 (m_namespace t)).

(** [__hash__]: [absl::HashOf(t)]. *)
Definition PyTreeSpec_hash (t : PyTreeSpec) : result Z :=
  h <- hash_spec seed t ;; OK (finalize h).

(** [absl::HashOf(n)] for a single node. *)
Definition Node_hash (n : Node) : result Z :=
  h <- hash_node seed n ;; OK (finalize h).
End Hashing.

(** A concrete hash state with absl's shape: a 64-bit state that absorbs one
    word at a time by a multiply-and-fold mix. *)
Definition kMul : Z := 11376068507788127593.

Definition mix (state v : Z) : Z :=
  let m := ((state + v) mod 2 ^ 64) * kMul in
  Z.lxor (Z.shiftr m 64) (m mod 2 ^ 64).

Fixpoint mix_string (state : Z) (s : string) : Z :=
  match s with
  | EmptyString => state
  | String c s' => mix_string (mix state (Z.of_nat (nat_of_ascii c))) s'
  end.

Definition MixingHashState : HashState := {|
  H := Z;
  seed := 0;
  combine_int := mix;
  combine_string := fun h s => mix (mix_string h s) (Z.of_nat (String.length s));
  finalize := fun h => h
|}.

(** ** Invariants of the data model *)

(** The test [node.kind == PyTreeKind::Leaf]. *)
Definition is_leaf_kind (k : PyTreeKind) : bool :=
  match k with Leaf => true | _ => false end.

(** The number of [Leaf] nodes of a traversal. *)
Fixpoint count_leaves (t : list Node) : Z :=
  match t with
  | [] => 0
  | n :: rest => (if is_leaf_kind (kind n) then 1 else 0) + count_leaves rest
  end.

(** Invariants 1 and 3: the traversal has a root, whose [num_leaves] is the
    number of leaves and whose [num_nodes] is the length of the traversal. *)
Definition count_invariant (s : PyTreeSpec) : Prop :=
  exists root, back (m_traversal s) = OK root
    /\ num_leaves root = count_leaves (m_traversal s)
    /\ num_nodes root = size (m_traversal s).

(** Invariant 4 for leaves: a [Leaf] counts one leaf and one node. *)
Definition leaf_invariant (s : PyTreeSpec) : Prop :=
  Forall (fun n => kind n = Leaf -> num_leaves n = 1 /\ num_nodes n = 1 /\ arity n = 0)
         (m_traversal s).

(** Invariants 1, 3 and 4 together: what the algebra needs of its inputs. *)
Definition counts_consistent (s : PyTreeSpec) : Prop :=
  count_invariant s /\ leaf_invariant s.

(** The sum of a list of integers. *)
Fixpoint sum_Z (l : list Z) : Z :=
  match l with
  | [] => 0
  | x :: r => x + sum_Z r
  end.

(** *** Structural well-formedness (invariants 1 to 4, 6 and 7)

    A post-order traversal is replayed with a stack that holds, for every
    finished subtree, its [(num_leaves, num_nodes)]: a node takes its
    [arity] children from the stack, and its own counts must be the sums
    over them. *)

(** Invariants 4, 6 and 7 on one node, [NoneSentinel] only when
    [none_is_leaf] is false, and no auxiliary data on the kinds that have
    none. *)
Definition node_ok (none_is_leaf : bool) (n : Node) : bool :=
  match kind n with
  | Leaf => (arity n =? 0) && ptr_eqb (custom n) Datatypes.None && is_null (node_data n)
  | None => (arity n =? 0) && ptr_eqb (custom n) Datatypes.None && is_null (node_data n)
            && negb none_is_leaf
  | Tuple | List => ptr_eqb (custom n) Datatypes.None && is_null (node_data n)
  | Custom => negb (ptr_eqb (custom n) Datatypes.None)
  | Dict | OrderedDict =>
      ptr_eqb (custom n) Datatypes.None
      && match node_data n with
         | Some (PyList keys) => Z.of_nat (List.length keys) =? arity n
         | _ => false
         end
  | DefaultDict =>
      ptr_eqb (custom n) Datatypes.None
      && match node_data n with
         | Some (PyTuple [_; PyList keys]) => Z.of_nat (List.length keys) =? arity n
         | _ => false
         end
  | NamedTuple | Deque | StructSequence => ptr_eqb (custom n) Datatypes.None
  end.

(** The counts a node must carry, given the counts of its children. *)
Definition expected_leaves (n : Node) (children : list (Z * Z)) : Z :=
  if is_leaf_kind (kind n) then 1 else sum_Z (map fst children).

(** One node more than its children hold together. *)
Definition expected_nodes (children : list (Z * Z)) : Z :=
  1 + sum_Z (map snd children).

(** The arity and the counts of [n] fit the stack of finished subtrees. *)
Definition counts_ok (n : Node) (stack : list (Z * Z)) : bool :=
  (0 <=? arity n) && (arity n <=? Z.of_nat (List.length stack))
  && implb (is_leaf_kind (kind n)) (arity n =? 0)
  && (num_leaves n =? expected_leaves n (firstn (Z.to_nat (arity n)) stack))
  && (num_nodes n =? expected_nodes (firstn (Z.to_nat (arity n)) stack)).

(** A node replaces its children on the stack. *)
Definition push_node (n : Node) (stack : list (Z * Z)) : list (Z * Z) :=
  (num_leaves n, num_nodes n) :: skipn (Z.to_nat (arity n)) stack.

(** The replay fails when a node does not fit the stack it meets. *)
Fixpoint replay (t : list Node) (stack : list (Z * Z)) : option (list (Z * Z)) :=
  match t with
  | [] => Some stack
  | n :: rest => if counts_ok n stack then replay rest (push_node n stack) else Datatypes.None
  end.

(** Invariants 1 to 4: the replay of the traversal leaves one subtree. *)
Definition counts_well_formed (t : list Node) : bool :=
  match replay t [] with
  | Some [_] => true
  | _ => false
  end.

(** The invariants of section 3 of the specification that a traversal can
    be checked for. *)
Definition well_formed (s : PyTreeSpec) : bool :=
  counts_well_formed (m_traversal s)
  && forallb (node_ok (m_none_is_leaf s)) (m_traversal s).

(** A finished subtree of the replay: the run [seg] of the traversal ends
    with the subtree's root, whose counts are the stack entry [e], and is as
    long as that root's [num_nodes]. *)
Definition seg_ok (seg : list Node) (e : Z * Z) : Prop :=
  exists body n, seg = body ++ [n]
    /\ (num_leaves n, num_nodes n) = e
    /\ size seg = snd e.

(** *** What the codec needs of a spec *)

(** The integer is a value of [ssize_t]. *)
Definition ssize_ok (z : Z) : bool := (ssize_min <=? z) && (z <=? ssize_max).

(** The fields of [n] have the presence the decoder demands of its kind:
    no data on [Leaf], [None], [Tuple] and [List]; a key list on [Dict] and
    [OrderedDict]; a type on [NamedTuple] and [StructSequence]; data on the
    other kinds; path entries (a tuple) and a registration only on [Custom],
    whose registration is the one the registry finds for its type. *)
Definition node_picklable (registry : PyTreeTypeRegistry) (none_is_leaf : bool)
    (ns : string) (n : Node) : bool :=
  ssize_ok (arity n) && ssize_ok (num_leaves n) && ssize_ok (num_nodes n)
  && match kind n with
     | Leaf | None | Tuple | List => is_null (node_data n)
     | Dict | OrderedDict =>
         match node_data n with Some (PyList _) => true | _ => false end
     | NamedTuple | StructSequence =>
         match node_data n with Some (PyType _) => true | _ => false end
     | DefaultDict | Deque | Custom => negb (is_null (node_data n))
     end
  && match kind n with
     | Custom =>
         match node_entries n with
         | Datatypes.None | Some (PyTuple _) => true
         | _ => false
         end
         && match custom n with
            | Some p =>
                negb (is_none (registration_type registry p))
                && ptr_eqb (Lookup registry none_is_leaf (registration_type registry p) ns)
                           (Some p)
            | Datatypes.None => false
            end
     | _ => is_null (node_entries n) && ptr_eqb (custom n) Datatypes.None
     end.

Definition picklable (registry : PyTreeTypeRegistry) (s : PyTreeSpec) : bool :=
  forallb (node_picklable registry (m_none_is_leaf s) (m_namespace s)) (m_traversal s).

(** ** Notions used in the statements *)

(** The test [operator==] makes on a pair of nodes before its assertions. *)
Definition nodes_agree (a b : Node) : Prop :=
  kind a = kind b /\ arity a = arity b /\ custom a = custom b
  /\ match node_data a, node_data b with
     | Some x, Some y => py_eq x y = true
     | Datatypes.None, Datatypes.None => True
     | _, _ => False
     end.

(** The two assertions [operator==] makes on a pair of nodes. *)
Definition same_counts (a b : Node) : Prop :=
  num_leaves a = num_leaves b /\ num_nodes a = num_nodes b.

(** Two nodes that agree on every field but [node_entries]. *)
Definition same_but_entries (a b : Node) : Prop :=
  kind a = kind b /\ arity a = arity b /\ node_data a = node_data b
  /\ custom a = custom b
  /\ num_leaves a = num_leaves b /\ num_nodes a = num_nodes b.

(** Two nodes that agree on every field the node hash reads, their
    [node_data] being compared only when the kind is not [Custom]. *)
Definition same_hashed_fields (a b : Node) : Prop :=
  kind a = kind b /\ arity a = arity b /\ custom a = custom b
  /\ num_leaves a = num_leaves b /\ num_nodes a = num_nodes b
  /\ (kind a <> Custom -> node_data a = node_data b).

(** The namespace [Compose] gives its result. *)
Definition composed_namespace (outer inner : PyTreeSpec) : string :=
  if empty (m_namespace inner) then m_namespace outer else m_namespace inner.

(** What the loop of [Compose] appends for one node of the outer spec. *)
Definition composed_piece (inner : PyTreeSpec) (inner_leaves inner_nodes : Z)
    (node : Node) (piece : list Node) : Prop :=
  (kind node = Leaf -> piece = m_traversal inner)
  /\ (kind node <> Leaf ->
      exists node', piece = [node']
        /\ kind node' = kind node /\ arity node' = arity node
        /\ node_data node' = node_data node /\ node_entries node' = node_entries node
        /\ custom node' = custom node
        /\ num_leaves node' = num_leaves node * inner_leaves
        /\ num_nodes node' = (num_nodes node - num_leaves node) + num_leaves node * inner_nodes).

(** The root's [num_leaves], when the traversal has a root. *)
Definition root_leaves (s : PyTreeSpec) : Z :=
  match rev (m_traversal s) with
  | n :: _ => num_leaves n
  | [] => 0
  end.

(** The first non-empty namespace of a list of specs, after [acc]. *)
Fixpoint tuple_namespace (acc : string) (treespecs : list PyTreeSpec) : string :=
  match treespecs with
  | [] => acc
  | t :: rest => tuple_namespace (if empty acc then m_namespace t else acc) rest
  end.

(** The non-empty strings of a list are pairwise equal. *)
Definition namespaces_agree (l : list string) : Prop :=
  forall a b, In a l -> In b l -> a <> "" -> b <> "" -> a = b.

(** A run of the traversal of [s] wrapped as a spec, as [Children] does. *)
Definition spec_of_segment (s : PyTreeSpec) (seg : list Node) : PyTreeSpec :=
  mkSpec seg (m_none_is_leaf s) (m_namespace s).

(** ** Example registries, specs and pickles *)

Definition leaf_node : Node :=
  mkNode Leaf 0 Datatypes.None Datatypes.None Datatypes.None 1 1.

Definition tuple_node (ar leaves nodes : Z) : Node :=
  mkNode Tuple ar Datatypes.None Datatypes.None Datatypes.None leaves nodes.

(** The spec of [(x, y)]. *)
Definition pair_spec (ns : string) : PyTreeSpec :=
  mkSpec [leaf_node; leaf_node; tuple_node 2 2 3] false ns.

(** The spec of a deque holding one leaf, with [maxlen] in [node_data]. *)
Definition deque_spec (maxlen : PyObject) : PyTreeSpec :=
  mkSpec [leaf_node;
          mkNode Deque 1 (Some maxlen) Datatypes.None Datatypes.None 1 2] false "".

(** The spec of [(x,)] whose tuple node carries the path entries [(0,)]. *)
Definition entries_spec : PyTreeSpec :=
  mkSpec [leaf_node;
          mkNode Tuple 1 Datatypes.None (Some (PyTuple [PyInt 0])) Datatypes.None 1 2]
         false "".

(** A pickle of a single leaf that claims 5 leaves and 7 nodes. *)
Definition miscounted_pickle : PyObject :=
  PyTuple [PyTuple [PyTuple [PyInt (kind_ordinal Leaf); PyInt 0; PyNone; PyNone; PyNone;
                             PyInt 5; PyInt 7]];
           PyBool false; PyStr ""].

Definition miscounted_spec : PyTreeSpec :=
  mkSpec [mkNode Leaf 0 Datatypes.None Datatypes.None Datatypes.None 5 7] false "".

(** A registry with no custom type. *)
Definition empty_registry : PyTreeTypeRegistry :=
  {| Lookup := fun _ _ _ => Datatypes.None; registration_type := fun _ => PyNone |}.

(** A registry with one custom type [Box], registered in every namespace. *)
Definition box_registry : PyTreeTypeRegistry :=
  {| Lookup := fun _ cls _ => if py_eq cls (PyType "Box") then Some 1%positive
                              else Datatypes.None;
     registration_type := fun _ => PyType "Box" |}.

(** The spec of a [Box] that holds one leaf, with aux data [aux]. *)
Definition box_spec (aux : PyObject) : PyTreeSpec :=
  mkSpec [leaf_node;
          mkNode Custom 1 (Some aux) Datatypes.None (Some 1%positive) 1 2] false "".

(** The spec of a deque holding one leaf whose node carries no [node_data]
    at all (an empty [py::object], not [Py_None]). *)
Definition deque_spec_without_data : PyTreeSpec :=
  mkSpec [leaf_node;
          mkNode Deque 1 Datatypes.None Datatypes.None Datatypes.None 1 2] false "".

(** [box_spec] with path entries recorded on the custom node. *)
Definition box_spec_with_entries (aux entries : PyObject) : PyTreeSpec :=
  mkSpec [leaf_node;
          mkNode Custom 1 (Some aux) (Some entries) (Some 1%positive) 1 2] false "".

(** A registry in which [Box] is registered twice: in the default namespace
    (registration 1) and in namespace ["b"] (registration 2); a lookup in
    ["b"] finds the registration of that namespace, any other lookup the one
    of the default namespace. *)
Definition shadow_registry : PyTreeTypeRegistry :=
  {| Lookup := fun _ cls ns =>
       if py_eq cls (PyType "Box")
       then (if String.eqb ns "b" then Some 2%positive else Some 1%positive)
       else Datatypes.None;
     registration_type := fun _ => PyType "Box" |}.

(** The spec of a [Box] holding one leaf, flattened in namespace [ns] with
    registration [p]. *)
Definition box_spec_in (ns : string) (p : RegistrationPtr) : PyTreeSpec :=
  mkSpec [leaf_node;
          mkNode Custom 1 (Some PyNone) Datatypes.None (Some p) 1 2] false ns.

(** The tuple of a default-namespace [Box] and a namespace-["b"] [Box], as
    [PyTreeSpec_Tuple] builds it: the result adopts namespace ["b"]. *)
Definition mixed_tuple_spec : PyTreeSpec :=
  mkSpec [leaf_node;
          mkNode Custom 1 (Some PyNone) Datatypes.None (Some 1%positive) 1 2;
          leaf_node;
          mkNode Custom 1 (Some PyNone) Datatypes.None (Some 2%positive) 1 2;
          tuple_node 2 2 5] false "b".

(** What decoding the pickle of [mixed_tuple_spec] returns: both custom
    nodes resolved in namespace ["b"]. *)
Definition mixed_tuple_decoded : PyTreeSpec :=
  mkSpec [leaf_node;
          mkNode Custom 1 (Some PyNone) Datatypes.None (Some 2%positive) 1 2;
          leaf_node;
          mkNode Custom 1 (Some PyNone) Datatypes.None (Some 2%positive) 1 2;
          tuple_node 2 2 5] false "b".

(** ** Induction over host values, through their nested item lists *)

Section PyObjectInduction.
Variable P : PyObject -> Prop.
Hypothesis HNone : P PyNone.
Hypothesis HBool : forall b, P (PyBool b).
Hypothesis HInt : forall z, P (PyInt z).
Hypothesis HStr : forall s, P (PyStr s).
Hypothesis HTuple : forall items, Forall P items -> P (PyTuple items).
Hypothesis HList : forall items, Forall P items -> P (PyList items).
Hypothesis HType : forall name, P (PyType name).

Fixpoint PyObject_nested_ind (o : PyObject) : P o :=
  let fix all (l : list PyObject) : Forall P l :=
    match l with
    | [] => Forall_nil P
    | x :: r => Forall_cons x (PyObject_nested_ind x) (all r)
    end in
  match o with
  | PyNone => HNone
  | PyBool b => HBool b
  | PyInt z => HInt z
  | PyStr s => HStr s
  | PyTuple items => HTuple items (all items)
  | PyList items => HList items (all items)
  | PyType name => HType name
  end.
End PyObjectInduction.

(** ** [PyTreeSpec::operator!=] *)

Definition spec_ne (self other : PyTreeSpec) : result bool :=
  r <- spec_eq self other ;; OK (negb r).

(** ** Notions used in the further properties *)

(** The counts of a subtree of [outer] after [Compose] has put a copy of a
    spec with [li] leaves and [ni] nodes at each of its leaves. *)
Definition scale_counts (li ni : Z) (e : Z * Z) : Z * Z :=
  (fst e * li, (snd e - fst e) + fst e * ni).

(** A finished subtree of the replay that is itself a well-formed
    traversal. *)
Definition seg_wf (seg : list Node) (e : Z * Z) : Prop :=
  seg_ok seg e /\ replay seg [] = Some [e].

(** The spec of [[(x, None), [y, z]]]: a list of a pair and a list. *)
Definition nested_spec : PyTreeSpec :=
  mkSpec [leaf_node;
          mkNode None 0 Datatypes.None Datatypes.None Datatypes.None 0 1;
          tuple_node 2 1 3;
          leaf_node; leaf_node;
          mkNode List 2 Datatypes.None Datatypes.None Datatypes.None 2 3;
          mkNode List 2 Datatypes.None Datatypes.None Datatypes.None 3 7] false "".

(** What the decoder guarantees of every node it returns, whatever the
    registry: counts and arity are [ssize_t] values; [Leaf], [None], [Tuple]
    and [List] carry no data, [Dict] and [OrderedDict] a list,
    [NamedTuple] and [StructSequence] a type, the other kinds some data;
    only [Custom] nodes carry path entries (a tuple), and exactly the
    [Custom] nodes carry a registration. *)
Definition decoded_shape (n : Node) : bool :=
  ssize_ok (arity n) && ssize_ok (num_leaves n) && ssize_ok (num_nodes n)
  && match kind n with
     | Leaf | None | Tuple | List => is_null (node_data n)
     | Dict | OrderedDict =>
         match node_data n with Some (PyList _) => true | _ => false end
     | NamedTuple | StructSequence =>
         match node_data n with Some (PyType _) => true | _ => false end
     | DefaultDict | Deque | Custom => negb (is_null (node_data n))
     end
  && match kind n with
     | Custom =>
         match node_entries n with
         | Datatypes.None | Some (PyTuple _) => true
         | _ => false
         end
         && negb (ptr_eqb (custom n) Datatypes.None)
     | _ => is_null (node_entries n) && ptr_eqb (custom n) Datatypes.None
     end.

(** A registry is coherent when the registration it finds for a class is
    registered for a type object (not [None]) under which the same lookup
    finds it again. *)
Definition registry_coherent (registry : PyTreeTypeRegistry) : Prop :=
  forall none_is_leaf cls ns p,
    Lookup registry none_is_leaf cls ns = Some p ->
    is_none (registration_type registry p) = false
    /\ Lookup registry none_is_leaf (registration_type registry p) ns = Some p.

(** A pickle, as a Python client could write it by hand: the spec of a
    [Box] in namespace ["b"], with its nodes in a list, its node tuples as
    lists, the flag as [0] and the path entries as a list. *)
Definition handwritten_pickle : PyObject :=
  PyTuple [PyList [PyList [PyInt (kind_ordinal Leaf); PyInt 0; PyNone; PyNone; PyNone;
                           PyInt 1; PyInt 1];
                   PyList [PyInt (kind_ordinal Custom); PyInt 1; PyStr "aux";
                           PyList [PyStr "item"]; PyType "Box"; PyInt 1; PyInt 2]];
           PyInt 0; PyStr "b"].

(** ** Host types and the recognisers of include/utils.h *)

(** What the code reads of a Python type object: the attributes it fetches
    ([getattr] may raise, whence [result]) and the slots of the C struct. *)
Record TypeInfo : Type := {
  subclass_of_tuple : bool;           (* PyObject_IsSubclass(type, &PyTuple_Type) == 1 *)
  getattr_fields : result PyObject;   (* type._fields *)
  getattr_name : result string;       (* str(type.__name__) *)
  tp_base_is_tuple : bool;            (* type->tp_base == &PyTuple_Type *)
  tp_basetype : bool;                 (* Py_TPFLAGS_BASETYPE *)
  getattr_n_sequence_fields : result PyObject;
  getattr_n_fields : result PyObject;
  getattr_n_unnamed_fields : result PyObject;
  tp_name : string;
  tp_member_names : list string       (* the names in type->tp_members *)
}.

(** The host functions the code calls on values: [py::repr], [py::str], and
    the type object behind a [PyType] value. *)
Record Host : Type := {
  py_repr : PyObject -> string;
  py_str : PyObject -> string;
  type_info : PyObject -> TypeInfo
}.

(** [PyType_Check]. *)
Definition PyType_Check (o : PyObject) : bool :=
  match o with PyType _ => true | _ => false end.

(** [PyUnicode_CheckExact]. *)
Definition PyUnicode_CheckExact (o : PyObject) : bool :=
  match o with PyStr _ => true | _ => false end.

(** [PyLong_CheckExact]: [bool] is a subclass of [int], not [int]. *)
Definition PyLong_CheckExact (o : PyObject) : bool :=
  match o with PyInt _ => true | _ => false end.

(** [IsNamedTupleClassImpl]: a subclass of [tuple] whose [_fields] is an
    exact tuple of exact strings; a failing [getattr] is cleared. *)
Definition IsNamedTupleClassImpl (host : Host) (type : PyObject) : bool :=
  if subclass_of_tuple (type_info host type) then
    match getattr_fields (type_info host type) with
    | OK (PyTuple fields) => forallb PyUnicode_CheckExact fields
    | OK _ => false
    | Raise _ => false
    end
  else false.

Definition IsNamedTupleClass (host : Host) (type : PyObject) : bool :=
  PyType_Check type && IsNamedTupleClassImpl host type.

(** One round of the loop of [IsStructSequenceClassImpl]. *)
Definition exact_int_attr (attr : result PyObject) : bool :=
  match attr with
  | OK o => PyLong_CheckExact o
  | Raise _ => false
  end.

(** [IsStructSequenceClassImpl]: a final class whose base is [tuple] and
    that has the three counters of a struct sequence, exact integers. *)
Definition IsStructSequenceClassImpl (host : Host) (type : PyObject) : bool :=
  if tp_base_is_tuple (type_info host type) && negb (tp_basetype (type_info host type)) then
    exact_int_attr (getattr_n_sequence_fields (type_info host type))
    && exact_int_attr (getattr_n_fields (type_info host type))
    && exact_int_attr (getattr_n_unnamed_fields (type_info host type))
  else false.

Definition IsStructSequenceClass (host : Host) (type : PyObject) : bool :=
  PyType_Check type && IsStructSequenceClassImpl host type.

(** ** [PyTreeSpec::GetKind]

    [GetKind] reads its handle through [handle.get_type()] only; [type] is
    that type object.  [registration_kind p] is [p->kind], a field of the
    registrations of include/registry.h.  The result pairs the kind with the
    pointer written to [*custom]. *)
Definition GetKind (host : Host) (registry : PyTreeTypeRegistry)
    (registration_kind : RegistrationPtr -> PyTreeKind)
    (none_is_leaf : bool) (type : PyObject) (registry_namespace : string)
    : PyTreeKind * option RegistrationPtr :=
  match Lookup registry none_is_leaf type registry_namespace with
  | Some registration =>
      match registration_kind registration with
      | Custom => (Custom, Some registration)
      | k => (k, Datatypes.None)
      end
  | Datatypes.None =>
      if IsNamedTupleClass host type then (NamedTuple, Datatypes.None)
      else if IsStructSequenceClass host type then (StructSequence, Datatypes.None)
      else (Leaf, Datatypes.None)
  end.

(** ** [PyTreeSpec::ToString] *)

(** Modelled from the spec: the [EXPECT_GE] macro of include/exceptions.h,
    the counterpart of [expect_eq]. *)
Definition expect_ge (a b : Z) : result unit :=
  if b <=? a then OK tt else Raise InternalError.

(** The range [[agenda.end() - arity, agenda.end())]. *)
Definition agenda_tail (arity : Z) (agenda : list string) : list string :=
  skipn (List.length agenda - Z.to_nat arity) agenda.

(** [agenda.erase(agenda.end() - arity, agenda.end())]. *)
Definition agenda_erase (arity : Z) (agenda : list string) : list string :=
  firstn (List.length agenda - Z.to_nat arity) agenda.

(** The loops [for key in keys: StrAppendFormat(&representation, fmt,
    separator, key, *child_iter); ++child_iter; separator = ", "].  Their
    callers have checked that there are as many keys as children. *)
Fixpoint format_entries (fmt : string -> string -> string) (separator : string)
    (keys children : list string) : string :=
  match keys, children with
  | key :: keys', child :: children' =>
      (separator ++ fmt key child ++ format_entries fmt ", " keys' children')%string
  | _, _ => ""
  end.

(** [static_cast<std::string>(py::reinterpret_borrow<py::str>(field))] on
    every field. *)
Fixpoint field_names (fields : list PyObject) : result (list string) :=
  match fields with
  | [] => OK []
  | field :: rest =>
      name <- cast_string field ;;
      names <- field_names rest ;;
      OK (name :: names)
  end.

Definition colon_entry (key child : string) : string := (key ++ ": " ++ child)%string.
Definition pair_entry (key child : string) : string := ("(" ++ key ++ ", " ++ child ++ ")")%string.
Definition field_entry (key child : string) : string := (key ++ "=" ++ child)%string.

(** The [switch] of [ToString] for the kinds other than [Leaf]:
    [child_reprs] are the last [arity] strings of the agenda. *)
Definition node_representation (host : Host) (registry : PyTreeTypeRegistry)
    (node : Node) (child_reprs : list string) : result string :=
  let children := String.concat ", " child_reprs in
  match kind node with
  | Leaf => OK "*"
  | None => OK "None"
  | Tuple =>
      OK ("(" ++ (if (arity node =? 1)%Z then children ++ "," else children) ++ ")")%string
  | List => OK ("[" ++ children ++ "]")%string
  | Deque =>
      let representation := ("[" ++ children ++ "]")%string in
      match node_data node with
      | Some PyNone => OK ("deque(" ++ representation ++ ")")%string
      | Some maxlen =>
          OK ("deque(" ++ representation ++ ", maxlen=" ++ py_str host maxlen ++ ")")%string
      | Datatypes.None =>
          (* PyObject_Str(NULL) is the string "<NULL>" *)
          OK ("deque(" ++ representation ++ ", maxlen=<NULL>)")%string
      end
  | Dict =>
      match node_data node with
      | Some (PyList keys) =>
          _ <- expect_eq (Z.of_nat (List.length keys)) (arity node) ;;
          OK ("{" ++ format_entries colon_entry "" (map (py_repr host) keys) child_reprs
                  ++ "}")%string
      | _ => Raise Undefined
      end
  | NamedTuple =>
      match node_data node with
      | Some type =>
          fields_object <- getattr_fields (type_info host type) ;;
          match fields_object with
          | PyTuple fields =>
              _ <- expect_eq (Z.of_nat (List.length fields)) (arity node) ;;
              kind_name <- getattr_name (type_info host type) ;;
              names <- field_names fields ;;
              OK (kind_name ++ "(" ++ format_entries field_entry "" names child_reprs
                            ++ ")")%string
          | _ => Raise Undefined
          end
      | Datatypes.None => Raise Undefined
      end
  | OrderedDict =>
      match node_data node with
      | Some (PyList keys) =>
          _ <- expect_eq (Z.of_nat (List.length keys)) (arity node) ;;
          OK ("OrderedDict(["
                ++ format_entries pair_entry "" (map (py_repr host) keys) child_reprs
                ++ "])")%string
      | _ => Raise Undefined
      end
  | DefaultDict =>
      match node_data node with
      | Some (PyTuple items) =>
          match items with
          | [default_factory; keys_object] =>
              match keys_object with
              | PyList keys =>
                  _ <- expect_eq (Z.of_nat (List.length keys)) (arity node) ;;
                  OK ("defaultdict(" ++ py_repr host default_factory ++ ", {"
                        ++ format_entries colon_entry "" (map (py_repr host) keys) child_reprs
                        ++ "})")%string
              | _ => Raise Undefined
              end
          | _ => Raise InternalError
          end
      | _ => Raise Undefined
      end
  | StructSequence =>
      match node_data node with
      | Some type =>
          if PyType_Check type then
            let members := tp_member_names (type_info host type) in
            if Z.of_nat (List.length members) <? arity node then Raise Undefined
            else
              OK (tp_name (type_info host type) ++ "("
                    ++ format_entries field_entry ""
                         (firstn (Z.to_nat (arity node)) members) child_reprs
                    ++ ")")%string
          else Raise Undefined
      | Datatypes.None => Raise Undefined
      end
  | Custom =>
      match custom node with
      | Some registration =>
          kind_name <- getattr_name (type_info host (registration_type registry registration)) ;;
          let data := match node_data node with
                      | Some aux => ("[" ++ py_repr host aux ++ "]")%string
                      | Datatypes.None => ""
                      end in
          OK ("CustomTreeNode(" ++ kind_name ++ data ++ ", [" ++ children ++ "])")%string
      | Datatypes.None => Raise Undefined
      end
  end.

(** One round of the loop over [m_traversal].  A [Leaf] is pushed by the
    [continue] branch, which skips the [erase]; a negative [arity] passes
    [EXPECT_GE] and makes [agenda.end() - node.arity] point past the end. *)
Definition ToString_step (host : Host) (registry : PyTreeTypeRegistry)
    (agenda : list string) (node : Node) : result (list string) :=
  _ <- expect_ge (Z.of_nat (List.length agenda)) (arity node) ;;
  if arity node <? 0 then Raise Undefined
  else
    match kind node with
    | Leaf => OK (agenda ++ ["*"])
    | _ =>
        representation <- node_representation host registry node
                            (agenda_tail (arity node) agenda) ;;
        OK (agenda_erase (arity node) agenda ++ [representation])
    end.

Fixpoint ToString_agenda (host : Host) (registry : PyTreeTypeRegistry)
    (agenda : list string) (traversal : list Node) : result (list string) :=
  match traversal with
  | [] => OK agenda
  | node :: rest =>
      agenda' <- ToString_step host registry agenda node ;;
      ToString_agenda host registry agenda' rest
  end.

(** The text that [ToString] puts around the root's representation. *)
Definition ToString_wrap (host : Host) (s : PyTreeSpec) (root : string) : string :=
  ("PyTreeSpec(" ++ root
     ++ (if m_none_is_leaf s then ", NoneIsLeaf" else "")
     ++ (if empty (m_namespace s) then ""
         else ", namespace=" ++ py_repr host (PyStr (m_namespace s)))
     ++ ")")%string.

Definition ToString (host : Host) (registry : PyTreeTypeRegistry) (s : PyTreeSpec)
    : result string :=
  agenda <- ToString_agenda host registry [] (m_traversal s) ;;
  _ <- expect_eq (Z.of_nat (List.length agenda)) 1 ;;
  match rev agenda with
  | root :: _ => OK (ToString_wrap host s root)
  | [] => Raise Undefined
  end.

(** What [ToString] needs of a node's auxiliary data to print it. *)
Definition printable (host : Host) (registry : PyTreeTypeRegistry) (node : Node) : bool :=
  match kind node with
  | Leaf | None | Tuple | List | Deque => true
  | Dict | OrderedDict =>
      match node_data node with
      | Some (PyList keys) => Z.of_nat (List.length keys) =? arity node
      | _ => false
      end
  | DefaultDict =>
      match node_data node with
      | Some (PyTuple [_; PyList keys]) => Z.of_nat (List.length keys) =? arity node
      | _ => false
      end
  | NamedTuple =>
      match node_data node with
      | Some type =>
          match getattr_fields (type_info host type) with
          | OK (PyTuple fields) =>
              (Z.of_nat (List.length fields) =? arity node)
              && forallb PyUnicode_CheckExact fields
              && is_ok (getattr_name (type_info host type))
          | _ => false
          end
      | Datatypes.None => false
      end
  | StructSequence =>
      match node_data node with
      | Some type =>
          PyType_Check type
          && (arity node <=? Z.of_nat (List.length (tp_member_names (type_info host type))))
      | Datatypes.None => false
      end
  | Custom =>
      match custom node with
      | Some registration =>
          is_ok (getattr_name (type_info host (registration_type registry registration)))
      | Datatypes.None => false
      end
  end.

(** A host for the examples: every value prints as [<object>], a type
    prints under its name and is a named tuple of no fields. *)
Definition plain_host : Host :=
  {| py_repr := fun _ => "<object>";
     py_str := fun _ => "<object>";
     type_info := fun o =>
       {| subclass_of_tuple := false;
          getattr_fields := Raise PyTypeError;
          getattr_name := OK (match o with PyType name => name | _ => "object" end);
          tp_base_is_tuple := false;
          tp_basetype := true;
          getattr_n_sequence_fields := Raise PyTypeError;
          getattr_n_fields := Raise PyTypeError;
          getattr_n_unnamed_fields := Raise PyTypeError;
          tp_name := match o with PyType name => name | _ => "object" end;
          tp_member_names := [] |} |}.

(** Two nodes that agree on every field [ToString] reads. *)
Definition same_printed_fields (a b : Node) : Prop :=
  kind a = kind b /\ arity a = arity b /\ node_data a = node_data b /\ custom a = custom b.

(** ** [PyTreeSpec::get_type] *)

(** The type objects [get_type] returns for the built-in kinds:
    [&PyTuple_Type], [&PyList_Type], [&PyDict_Type], [type(None)] and the
    three classes imported from [collections]. *)
Definition PyTuple_Type : PyObject := PyType "tuple".
Definition PyList_Type : PyObject := PyType "list".
Definition PyDict_Type : PyObject := PyType "dict".
Definition PyNone_Type : PyObject := PyType "NoneType".
Definition PyOrderedDictTypeObject : PyObject := PyType "OrderedDict".
Definition PyDefaultDictTypeObject : PyObject := PyType "defaultdict".
Definition PyDequeTypeObject : PyObject := PyType "deque".

(** The result is a [py::object], which is empty when a [NamedTuple] or
    [StructSequence] root carries no [node_data]. *)
Definition get_type (registry : PyTreeTypeRegistry) (s : PyTreeSpec)
    : result (option PyObject) :=
  node <- back (m_traversal s) ;;
  match kind node with
  | Custom =>
      match custom node with
      | Some registration => OK (Some (registration_type registry registration))
      | Datatypes.None => Raise InternalError
      end
  | Leaf => OK (Some PyNone)
  | None => OK (Some PyNone_Type)
  | Tuple => OK (Some PyTuple_Type)
  | List => OK (Some PyList_Type)
  | Dict => OK (Some PyDict_Type)
  | NamedTuple | StructSequence => OK (node_data node)
  | OrderedDict => OK (Some PyOrderedDictTypeObject)
  | DefaultDict => OK (Some PyDefaultDictTypeObject)
  | Deque => OK (Some PyDequeTypeObject)
  end.

(** An entry of the replay stack that counts no more leaves than nodes. *)
Definition entry_bounded (e : Z * Z) : Prop := 0 <= fst e <= snd e.

(** The values the loop of [Compose] computes for the node [n] (the two
    products, the difference and the sum) lie between 0 and [bound]. *)
Definition compose_arithmetic_bounded (bound inner_leaves inner_nodes : Z) (n : Node) : Prop :=
  0 <= num_leaves n * inner_leaves <= bound
  /\ 0 <= num_nodes n - num_leaves n <= bound
  /\ 0 <= num_leaves n * inner_nodes <= bound
  /\ 0 <= (num_nodes n - num_leaves n) + num_leaves n * inner_nodes <= bound.

(** * Properties *)

(** ** Basic facts *)

Lemma bind_ok {A B} (r : result A) (k : A -> result B) (b : B) :
  bind r k = OK b -> exists a, r = OK a /\ k a = OK b.
Proof.
  destruct r as [a|e]; simpl; intros Hk; [exists a; auto | discriminate].
Qed.

Lemma back_snoc (t : list Node) (n : Node) : back (t ++ [n]) = OK n.
Proof. unfold back. rewrite rev_app_distr. reflexivity. Qed.

Lemma back_ok_inv (t : list Node) (n : Node) :
  back t = OK n -> exists t', t = t' ++ [n].
Proof.
  unfold back. intros Hb.
  destruct (rev t) as [|x r] eqn:Hr; [discriminate|].
  inversion Hb; subst x. exists (rev r).
  rewrite <- (rev_involutive t), Hr. reflexivity.
Qed.

Lemma back_nil_inv (t : list Node) : back t = Raise InternalError <-> t = [].
Proof.
  unfold back. split.
  - destruct (rev t) eqn:Hr; [|discriminate].
    intros _. rewrite <- (rev_involutive t), Hr. reflexivity.
  - intros ->. reflexivity.
Qed.

Lemma size_app (a b : list Node) : size (a ++ b) = size a + size b.
Proof. unfold size. rewrite length_app. lia. Qed.

Lemma size_nonneg (a : list Node) : 0 <= size a.
Proof. unfold size. lia. Qed.

Lemma count_leaves_app (a b : list Node) :
  count_leaves (a ++ b) = count_leaves a + count_leaves b.
Proof. induction a as [|x a IH]; simpl; [reflexivity | rewrite IH; lia]. Qed.

Lemma count_leaves_bounds (a : list Node) : 0 <= count_leaves a <= size a.
Proof.
  unfold size. induction a as [|x a IH]; simpl List.length; simpl count_leaves; [lia|].
  destruct (is_leaf_kind (kind x)); lia.
Qed.

Lemma kind_eqb_eq (a b : PyTreeKind) : kind_eqb a b = true <-> a = b.
Proof.
  unfold kind_eqb. rewrite Z.eqb_eq. split; [|intros ->; reflexivity].
  destruct a, b; simpl; intros E; try reflexivity; discriminate.
Qed.

Lemma kind_of_ordinal_ordinal (k : PyTreeKind) : kind_of_ordinal (kind_ordinal k) = Some k.
Proof. destruct k; reflexivity. Qed.

Lemma ptr_eqb_eq (a b : option RegistrationPtr) : ptr_eqb a b = true <-> a = b.
Proof.
  destruct a as [p|], b as [q|]; simpl; try (split; congruence).
  rewrite Pos.eqb_eq. split; congruence.
Qed.

Lemma empty_true (s : string) : empty s = true <-> s = "".
Proof. destruct s; simpl; split; congruence. Qed.

Lemma expect_eq_ok (a b : Z) : expect_eq a b = OK tt <-> a = b.
Proof.
  unfold expect_eq. destruct (Z.eqb_spec a b); split; congruence.
Qed.

(** ** Composition *)

Section ComposeFacts.
Variables outer inner : PyTreeSpec.


Lemma Compose_flag_mismatch :
  m_none_is_leaf outer <> m_none_is_leaf inner ->
  Compose outer inner = Raise InvalidArgument.
Proof.
  intros Hne. unfold Compose.
  destruct (Bool.eqb (m_none_is_leaf outer) (m_none_is_leaf inner)) eqn:E; [|reflexivity].
  apply Bool.eqb_prop in E. contradiction.
Qed.

Lemma Compose_namespace_mismatch :
  namespace_mismatch (m_namespace outer) (m_namespace inner) = true ->
  Compose outer inner = Raise InvalidArgument.
Proof.
  intros Hns. unfold Compose. rewrite Hns.
  destruct (negb (Bool.eqb (m_none_is_leaf outer) (m_none_is_leaf inner))); reflexivity.
Qed.

(** When the preconditions hold and the counts of the two specs are
    consistent, [Compose] returns, and its result is the loop's output. *)
Lemma Compose_succeeds (root_o root_i : Node) :
  m_none_is_leaf outer = m_none_is_leaf inner ->
  namespace_mismatch (m_namespace outer) (m_namespace inner) = false ->
  back (m_traversal outer) = OK root_o ->
  back (m_traversal inner) = OK root_i ->
  num_nodes root_o = size (m_traversal outer) ->
  num_nodes root_i = size (m_traversal inner) ->
  (kind root_o = Leaf -> num_leaves root_o = 1 /\ num_nodes root_o = 1) ->
  Compose outer inner =
    OK (mkSpec (flat_map (compose_node (m_traversal inner) (num_leaves root_i)
                            (size (m_traversal inner)))
                         (m_traversal outer))
               (m_none_is_leaf outer) (composed_namespace outer inner)).
Proof.
  intros Hflag Hns Hbo Hbi Hno Hni Hleaf.
  unfold Compose, spec_num_leaves, spec_num_nodes.
  rewrite Hflag, Bool.eqb_reflx, Hns, Hbo, Hbi. simpl.
  destruct (back_ok_inv _ _ Hbo) as [to Eo].
  destruct (back_ok_inv _ _ Hbi) as [ti Ei].
  rewrite Eo at 1. rewrite flat_map_app. simpl flat_map. rewrite app_nil_r.
  unfold compose_node at 2.
  destruct (kind root_o) eqn:Hk;
    try (rewrite rev_app_distr; simpl;
         unfold expect_eq; rewrite Z.eqb_refl; simpl;
         rewrite Hno, Z.eqb_refl; reflexivity).
  (* the outer root is a leaf: the outer spec is that single leaf *)
  destruct (Hleaf eq_refl) as [Hl1 Hn1].
  rewrite rev_app_distr.
  replace (rev (m_traversal inner)) with (root_i :: rev ti)
    by (rewrite Ei, rev_app_distr; reflexivity).
  simpl. unfold expect_eq.
  replace (num_leaves root_o * num_leaves root_i) with (num_leaves root_i) by (rewrite Hl1; lia).
  rewrite Z.eqb_refl. simpl.
  replace (size (m_traversal outer) - num_leaves root_o
           + num_leaves root_o * size (m_traversal inner))
    with (num_nodes root_i) by (rewrite <- Hno, Hn1, Hl1, Hni; lia).
  rewrite Z.eqb_refl. reflexivity.
Qed.
End ComposeFacts.


Lemma namespace_mismatch_true (a b : string) :
  namespace_mismatch a b = true <-> a <> "" /\ b <> "" /\ a <> b.
Proof.
  unfold namespace_mismatch.
  rewrite !Bool.andb_true_iff, !Bool.negb_true_iff.
  rewrite <- !Bool.not_true_iff_false, !empty_true, String.eqb_eq. tauto.
Qed.

Lemma namespace_mismatch_false (a b : string) :
  namespace_mismatch a b = false <-> a = "" \/ b = "" \/ a = b.
Proof.
  rewrite <- Bool.not_true_iff_false, namespace_mismatch_true.
  destruct (string_dec a ""), (string_dec b ""), (string_dec a b); tauto.
Qed.

Lemma back_in (t : list Node) (n : Node) : back t = OK n -> In n t.
Proof.
  intros Hb. destruct (back_ok_inv _ _ Hb) as [t' ->].
  apply in_or_app. right. left. reflexivity.
Qed.

Lemma counts_consistent_root (s : PyTreeSpec) :
  counts_consistent s ->
  exists root, back (m_traversal s) = OK root
    /\ num_leaves root = count_leaves (m_traversal s)
    /\ num_nodes root = size (m_traversal s)
    /\ (kind root = Leaf -> num_leaves root = 1 /\ num_nodes root = 1).
Proof.
  intros [(root & Hb & Hl & Hn) Hleaf]. exists root. repeat split; auto.
  - unfold leaf_invariant in Hleaf. rewrite Forall_forall in Hleaf.
    apply (Hleaf root (back_in _ _ Hb)). assumption.
  - unfold leaf_invariant in Hleaf. rewrite Forall_forall in Hleaf.
    apply (Hleaf root (back_in _ _ Hb)). assumption.
Qed.

(** A spec returned by [Compose] is the output of its loop and has passed
    the two assertions on its root. *)
Lemma Compose_root_checked (outer inner r : PyTreeSpec) :
  Compose outer inner = OK r ->
  exists lo li root,
    spec_num_leaves outer = OK lo /\ spec_num_leaves inner = OK li
    /\ m_traversal r =
         flat_map (compose_node (m_traversal inner) li (spec_num_nodes inner))
                  (m_traversal outer)
    /\ back (m_traversal r) = OK root
    /\ num_leaves root = lo * li
    /\ num_nodes root = (spec_num_nodes outer - lo) + lo * spec_num_nodes inner.
Proof.
  unfold Compose.
  destruct (negb (Bool.eqb (m_none_is_leaf outer) (m_none_is_leaf inner))); [discriminate|].
  destruct (namespace_mismatch (m_namespace outer) (m_namespace inner)); [discriminate|].
  intros Hc.
  apply bind_ok in Hc. destruct Hc as (lo & Hlo & Hc).
  apply bind_ok in Hc. destruct Hc as (li & Hli & Hc).
  apply bind_ok in Hc. destruct Hc as (root & Hroot & Hc).
  apply bind_ok in Hc. destruct Hc as ([] & Hl & Hc).
  apply bind_ok in Hc. destruct Hc as ([] & Hn & Hc).
  inversion Hc; subst r; clear Hc. simpl.
  exists lo, li, root. apply expect_eq_ok in Hl, Hn.
  repeat split; auto.
  unfold back.
  destruct (rev (flat_map _ (m_traversal outer))); [discriminate | exact Hroot].
Qed.

Lemma compose_node_piece (inner : PyTreeSpec) (li ni : Z) (node : Node) :
  composed_piece inner li ni node (compose_node (m_traversal inner) li ni node).
Proof.
  unfold composed_piece, compose_node. split.
  - intros ->. reflexivity.
  - intros Hk. destruct (kind node) eqn:E; try contradiction;
      eexists; (split; [reflexivity|]); simpl; rewrite ?E; repeat split; reflexivity.
Qed.

Lemma flat_map_pieces (inner : PyTreeSpec) (li ni : Z) (t : list Node) :
  exists pieces,
    flat_map (compose_node (m_traversal inner) li ni) t = List.concat pieces
    /\ Forall2 (composed_piece inner li ni) t pieces.
Proof.
  exists (map (compose_node (m_traversal inner) li ni) t). split.
  - apply flat_map_concat_map.
  - induction t as [|n t IH]; simpl; constructor; auto using compose_node_piece.
Qed.

(** The only [std::invalid_argument] of [Compose] comes from its two
    precondition checks. *)
Lemma Compose_invalid_argument_inv (outer inner : PyTreeSpec) :
  Compose outer inner = Raise InvalidArgument ->
  m_none_is_leaf outer <> m_none_is_leaf inner
  \/ namespace_mismatch (m_namespace outer) (m_namespace inner) = true.
Proof.
  unfold Compose.
  destruct (Bool.eqb (m_none_is_leaf outer) (m_none_is_leaf inner)) eqn:Hf; simpl.
  2:{ intros _. left. intros E. rewrite E, Bool.eqb_reflx in Hf. discriminate. }
  destruct (namespace_mismatch (m_namespace outer) (m_namespace inner)); [auto|].
  unfold spec_num_leaves, back, expect_eq.
  destruct (rev (m_traversal outer)); simpl; [discriminate|].
  destruct (rev (m_traversal inner)); simpl; [discriminate|].
  destruct (rev (flat_map _ _)); simpl; [discriminate|].
  destruct (_ =? _); simpl; [|discriminate].
  destruct (_ =? _); simpl; discriminate.
Qed.

(** C8. [Compose] raises [std::invalid_argument] exactly when the
    [none_is_leaf] flags differ or both namespaces are non-empty and
    different; on specs with consistent counts this is its only failure, and
    a failure yields no result.  When it succeeds the result carries the
    shared flag and the non-empty namespace of the two (the empty one when
    both are empty). *)
Theorem Compose_failure_iff (outer inner : PyTreeSpec) :
  let mismatch :=
    m_none_is_leaf outer <> m_none_is_leaf inner
    \/ (m_namespace outer <> "" /\ m_namespace inner <> ""
        /\ m_namespace outer <> m_namespace inner) in
  (Compose outer inner = Raise InvalidArgument <-> mismatch)
  /\ (counts_consistent outer -> counts_consistent inner ->
      (is_ok (Compose outer inner) = false <-> mismatch))
  /\ (forall r, Compose outer inner = OK r ->
        m_none_is_leaf r = m_none_is_leaf outer
        /\ m_none_is_leaf r = m_none_is_leaf inner
        /\ (m_namespace outer <> "" -> m_namespace r = m_namespace outer)
        /\ (m_namespace inner <> "" -> m_namespace r = m_namespace inner)
        /\ (m_namespace outer = "" -> m_namespace inner = "" -> m_namespace r = "")).
Proof.
  intros mismatch.
  assert (Hfail : mismatch -> Compose outer inner = Raise InvalidArgument).
  { intros [Hf | Hn].
    - apply Compose_flag_mismatch; assumption.
    - apply Compose_namespace_mismatch, namespace_mismatch_true; assumption. }
  assert (Hinv : Compose outer inner = Raise InvalidArgument -> mismatch).
  { intros Hc. destruct (Compose_invalid_argument_inv _ _ Hc) as [Hf | Hn].
    - left; assumption.
    - right. apply namespace_mismatch_true; assumption. }
  split; [split; assumption|]. split.
  - intros Ho Hi. split.
    + intros Hno.
      destruct (Bool.bool_dec (m_none_is_leaf outer) (m_none_is_leaf inner)) as [Hflag | Hflag];
        [|left; assumption].
      destruct (namespace_mismatch (m_namespace outer) (m_namespace inner)) eqn:Hns;
        [right; apply namespace_mismatch_true; assumption|].
      destruct (counts_consistent_root _ Ho) as (root_o & Hbo & _ & Hnn & Hleaf).
      destruct (counts_consistent_root _ Hi) as (root_i & Hbi & _ & Hni & _).
      rewrite (Compose_succeeds outer inner root_o root_i Hflag Hns Hbo Hbi Hnn Hni Hleaf) in Hno.
      discriminate.
    + intros Hm. rewrite (Hfail Hm). reflexivity.
  - intros r Hr. unfold Compose in Hr.
    destruct (Bool.eqb (m_none_is_leaf outer) (m_none_is_leaf inner)) eqn:Hf;
      simpl in Hr; [|discriminate].
    destruct (namespace_mismatch (m_namespace outer) (m_namespace inner)) eqn:Hns;
      [discriminate|].
    apply bind_ok in Hr. destruct Hr as (lo & _ & Hr).
    apply bind_ok in Hr. destruct Hr as (li & _ & Hr).
    apply bind_ok in Hr. destruct Hr as (root & _ & Hr).
    apply bind_ok in Hr. destruct Hr as ([] & _ & Hr).
    apply bind_ok in Hr. destruct Hr as ([] & _ & Hr).
    inversion Hr; subst r; clear Hr. simpl.
    apply Bool.eqb_prop in Hf.
    apply namespace_mismatch_false in Hns.
    destruct (empty (m_namespace inner)) eqn:He.
    + apply empty_true in He. repeat split; auto; congruence.
    + assert (m_namespace inner <> "") by (rewrite <- empty_true; congruence).
      repeat split; auto; intros; try congruence.
      destruct Hns as [E | [E | E]]; congruence.
Qed.

(** ** The tuple constructor *)

Lemma tuple_check_ok (none_is_leaf : bool) (treespecs : list PyTreeSpec) :
  forall acc,
    Forall (fun t => m_none_is_leaf t = none_is_leaf) treespecs ->
    namespaces_agree (acc :: map m_namespace treespecs) ->
    tuple_check none_is_leaf acc treespecs = OK (tuple_namespace acc treespecs).
Proof.
  induction treespecs as [|t rest IH]; intros acc Hflag Hns; simpl; [reflexivity|].
  inversion Hflag as [|? ? Ht Hrest]; subst.
  rewrite Bool.eqb_reflx. simpl.
  destruct (empty (m_namespace t)) eqn:Et; simpl.
  - assert (E : (if empty acc then m_namespace t else acc) = acc).
    { destruct (empty acc) eqn:Ea; [|reflexivity].
      apply empty_true in Et, Ea. congruence. }
    rewrite E. apply IH; [assumption|].
    intros a b Ha Hb. apply Hns; simpl in *; tauto.
  - destruct (empty acc) eqn:Ea.
    + apply IH; [assumption|].
      intros a b Ha Hb. apply Hns; simpl in *; tauto.
    + assert (E : acc = m_namespace t).
      { apply Hns; simpl; auto; rewrite <- empty_true; congruence. }
      rewrite <- E, String.eqb_refl. simpl. apply IH; [assumption|].
      intros a b Ha Hb. apply Hns; simpl in *; tauto.
Qed.

Lemma spec_num_leaves_root (s : PyTreeSpec) :
  m_traversal s <> [] -> spec_num_leaves s = OK (root_leaves s).
Proof.
  intros Hne. unfold spec_num_leaves, root_leaves, back.
  destruct (rev (m_traversal s)) eqn:Hr; [|reflexivity].
  exfalso. apply Hne. rewrite <- (rev_involutive (m_traversal s)), Hr. reflexivity.
Qed.

Lemma tuple_collect_ok (treespecs : list PyTreeSpec) :
  forall out leaves,
    Forall (fun t => m_traversal t <> []) treespecs ->
    tuple_collect out leaves treespecs =
      OK (out ++ List.concat (map m_traversal treespecs),
          leaves + sum_Z (map root_leaves treespecs)).
Proof.
  induction treespecs as [|t rest IH]; intros out leaves Hne; simpl.
  - rewrite app_nil_r, Z.add_0_r. reflexivity.
  - inversion Hne as [|? ? Ht Hrest]; subst.
    rewrite (spec_num_leaves_root _ Ht). simpl.
    rewrite (IH _ _ Hrest), <- app_assoc, Z.add_assoc. reflexivity.
Qed.

Lemma size_concat (ts : list PyTreeSpec) :
  size (List.concat (map m_traversal ts)) = sum_Z (map (fun t => size (m_traversal t)) ts).
Proof.
  induction ts as [|t ts IH]; simpl; [reflexivity|].
  rewrite size_app, IH. reflexivity.
Qed.

(** What [Tuple] returns on children it accepts. *)
Lemma Tuple_ok (treespecs : list PyTreeSpec) (none_is_leaf : bool) :
  Forall (fun t => m_none_is_leaf t = none_is_leaf) treespecs ->
  namespaces_agree (map m_namespace treespecs) ->
  Forall (fun t => m_traversal t <> []) treespecs ->
  PyTreeSpec_Tuple treespecs none_is_leaf =
    OK (mkSpec (List.concat (map m_traversal treespecs)
                ++ [tuple_node (Z.of_nat (List.length treespecs))
                      (sum_Z (map root_leaves treespecs))
                      (size (List.concat (map m_traversal treespecs)) + 1)])
               none_is_leaf (tuple_namespace "" treespecs)).
Proof.
  intros Hflag Hns Hne. unfold PyTreeSpec_Tuple.
  rewrite tuple_check_ok; [|assumption|].
  2:{ intros a b [<-|Ha] [<-|Hb]; try congruence. apply Hns; assumption. }
  cbn [bind]. rewrite (tuple_collect_ok _ [] 0 Hne). reflexivity.
Qed.

(** ** The codec *)

Lemma cast_ssize_t_int (z : Z) : ssize_ok z = true -> cast_ssize_t (PyInt z) = OK z.
Proof. unfold ssize_ok, cast_ssize_t. intros ->. reflexivity. Qed.

Lemma decode_node_state (registry : PyTreeTypeRegistry) (none_is_leaf : bool)
    (ns : string) (n : Node) :
  node_picklable registry none_is_leaf ns n = true ->
  decode_node registry none_is_leaf ns (node_state registry n) = OK n.
Proof.
  destruct n as [k ar data entries cust nl nn].
  unfold node_picklable, node_state, decode_node. cbn [kind arity node_data node_entries
    custom num_leaves num_nodes cast_tuple bind].
  rewrite !Bool.andb_true_iff. intros [[[[Har Hnl] Hnn] Hdata] Hrest].
  rewrite (cast_ssize_t_int _ Har), (cast_ssize_t_int _ Hnl), (cast_ssize_t_int _ Hnn).
  assert (Hk : cast_ssize_t (PyInt (kind_ordinal k)) = OK (kind_ordinal k))
    by (destruct k; reflexivity).
  rewrite Hk. cbn [bind]. rewrite kind_of_ordinal_ordinal.
  destruct k;
    try (apply Bool.andb_true_iff in Hrest; destruct Hrest as [He Hc]);
    try (apply ptr_eqb_eq in Hc; subst cust).
  - (* Custom *)
    destruct data as [d|]; [|discriminate]. cbn [or_none bind].
    destruct cust as [p|]; [|discriminate].
    apply Bool.andb_true_iff in Hc. destruct Hc as [Hty Hlk].
    apply Bool.negb_true_iff in Hty. apply ptr_eqb_eq in Hlk.
    rewrite Hty, Hlk.
    destruct entries as [[| | | |items| |]|]; try discriminate; reflexivity.
  - destruct data; [discriminate|]. destruct entries; [discriminate|]. reflexivity.
  - destruct data; [discriminate|]. destruct entries; [discriminate|]. reflexivity.
  - destruct data; [discriminate|]. destruct entries; [discriminate|]. reflexivity.
  - destruct data; [discriminate|]. destruct entries; [discriminate|]. reflexivity.
  - destruct data as [[]|]; try discriminate. destruct entries; [discriminate|]. reflexivity.
  - destruct data as [[]|]; try discriminate. destruct entries; [discriminate|]. reflexivity.
  - destruct data as [[]|]; try discriminate. destruct entries; [discriminate|]. reflexivity.
  - destruct data as [d|]; [|discriminate]. destruct entries; [discriminate|]. reflexivity.
  - destruct data as [d|]; [|discriminate]. destruct entries; [discriminate|]. reflexivity.
  - destruct data as [[]|]; try discriminate. destruct entries; [discriminate|]. reflexivity.
Qed.

Lemma decode_nodes_states (registry : PyTreeTypeRegistry) (none_is_leaf : bool)
    (ns : string) (t : list Node) :
  forallb (node_picklable registry none_is_leaf ns) t = true ->
  decode_nodes registry none_is_leaf ns (map (node_state registry) t) = OK t.
Proof.
  induction t as [|n t IH]; simpl; [reflexivity|].
  rewrite Bool.andb_true_iff. intros [Hn Ht].
  rewrite (decode_node_state _ _ _ _ Hn). simpl. rewrite (IH Ht). reflexivity.
Qed.

Lemma FromPicklable_ToPicklable (registry : PyTreeTypeRegistry) (s : PyTreeSpec) :
  picklable registry s = true ->
  FromPicklable registry (ToPicklable registry s) = OK s.
Proof.
  intros Hp. destruct s as [t nil ns]. unfold picklable in Hp. simpl in Hp.
  unfold FromPicklable, FromPicklableImpl, ToPicklable. simpl.
  rewrite (decode_nodes_states _ _ _ _ Hp). reflexivity.
Qed.

(** ** Host equality and host hash *)


Lemma all2_refl (items : list PyObject) :
  Forall (fun x => py_eq x x = true) items -> all2 py_eq items items = true.
Proof.
  induction 1 as [|x r Hx Hr IH]; simpl; [reflexivity|].
  rewrite Hx, IH. reflexivity.
Qed.

(** Host equality is reflexive on the modelled values. *)
Lemma py_eq_refl (a : PyObject) : py_eq a a = true.
Proof.
  induction a using PyObject_nested_ind; simpl;
    auto using Bool.eqb_reflx, Z.eqb_refl, String.eqb_refl, all2_refl.
Qed.

Lemma hash_items_all2 (xs : list PyObject) :
  Forall (fun x => forall b, py_eq x b = true -> py_hash x = py_hash b) xs ->
  forall ys acc, all2 py_eq xs ys = true ->
    hash_items py_hash acc xs = hash_items py_hash acc ys.
Proof.
  induction 1 as [|x r Hx Hr IH]; intros [|y ys] acc Hall; simpl in *;
    try discriminate; [reflexivity|].
  apply Bool.andb_true_iff in Hall. destruct Hall as [Hxy Hrest].
  rewrite (Hx y Hxy). destruct (py_hash y); simpl; [|reflexivity].
  apply IH. assumption.
Qed.

(** Equal host values have equal hashes (or are both unhashable). *)
Lemma py_hash_eq (a : PyObject) : forall b, py_eq a b = true -> py_hash a = py_hash b.
Proof.
  induction a as [|x|x|x|xs IH|xs IH|x] using PyObject_nested_ind;
    intros [|y|y|y|ys|ys|y] E; simpl in E; try discriminate.
  - reflexivity.
  - apply Bool.eqb_prop in E. subst. reflexivity.
  - apply Z.eqb_eq in E. subst. destruct x; reflexivity.
  - apply Z.eqb_eq in E. subst. destruct y; reflexivity.
  - apply Z.eqb_eq in E. subst. reflexivity.
  - apply String.eqb_eq in E. subst. reflexivity.
  - simpl. apply hash_items_all2; assumption.
  - reflexivity.
  - apply String.eqb_eq in E. subst. reflexivity.
Qed.

Lemma data_differs_refl (d : option PyObject) : data_differs d d = false.
Proof. destruct d; simpl; [|reflexivity]. unfold not_equal. rewrite py_eq_refl. reflexivity. Qed.

Lemma ptr_eqb_refl (p : option RegistrationPtr) : ptr_eqb p p = true.
Proof. apply ptr_eqb_eq. reflexivity. Qed.

Lemma kind_eqb_refl (k : PyTreeKind) : kind_eqb k k = true.
Proof. apply kind_eqb_eq. reflexivity. Qed.

Lemma nodes_equal_refl (t : list Node) : nodes_equal t t = OK true.
Proof.
  induction t as [|n t IH]; simpl; [reflexivity|].
  rewrite kind_eqb_refl, Z.eqb_refl, Bool.eqb_reflx, ptr_eqb_refl, data_differs_refl.
  simpl. rewrite !Z.eqb_refl. simpl. exact IH.
Qed.

(** [operator==] is reflexive: a spec equals itself. *)
Lemma spec_eq_refl (s : PyTreeSpec) : spec_eq s s = OK true.
Proof.
  unfold spec_eq. rewrite Z.eqb_refl, Bool.eqb_reflx. simpl.
  assert (E : namespace_mismatch (m_namespace s) (m_namespace s) = false)
    by (apply namespace_mismatch_false; auto).
  rewrite E. apply nodes_equal_refl.
Qed.

Lemma cast_ssize_t_int_inv (z k : Z) : cast_ssize_t (PyInt z) = OK k -> k = z.
Proof.
  unfold cast_ssize_t. destruct (_ && _); [|discriminate]. congruence.
Qed.

(** Decoding an encoded node, when it succeeds, returns the kind, the arity
    and the counts that were stored. *)
Lemma decode_node_state_counts (registry : PyTreeTypeRegistry) (none_is_leaf : bool)
    (ns : string) (n n' : Node) :
  decode_node registry none_is_leaf ns (node_state registry n) = OK n' ->
  kind n' = kind n /\ arity n' = arity n
  /\ num_leaves n' = num_leaves n /\ num_nodes n' = num_nodes n.
Proof.
  unfold decode_node, node_state. cbn [cast_tuple bind]. intros Hd.
  apply bind_ok in Hd. destruct Hd as (k & Hk & Hd).
  apply bind_ok in Hd. destruct Hd as (ar & Har & Hd).
  apply cast_ssize_t_int_inv in Hk, Har. subst k ar.
  rewrite kind_of_ordinal_ordinal in Hd.
  apply bind_ok in Hd. destruct Hd as (data & _ & Hd).
  apply bind_ok in Hd. destruct Hd as (ec & _ & Hd).
  apply bind_ok in Hd. destruct Hd as (l & Hl & Hd).
  apply bind_ok in Hd. destruct Hd as (m & Hm & Hd).
  apply cast_ssize_t_int_inv in Hl, Hm. subst l m.
  inversion Hd; subst n'. simpl. auto.
Qed.

Lemma decode_nodes_states_counts (registry : PyTreeTypeRegistry) (none_is_leaf : bool)
    (ns : string) (t : list Node) :
  forall t', decode_nodes registry none_is_leaf ns (map (node_state registry) t) = OK t' ->
    Forall2 (fun n' n => kind n' = kind n /\ arity n' = arity n
                         /\ num_leaves n' = num_leaves n /\ num_nodes n' = num_nodes n) t' t.
Proof.
  induction t as [|n t IH]; simpl; intros t' Hd.
  - inversion Hd. constructor.
  - apply bind_ok in Hd. destruct Hd as (n' & Hn & Hd).
    apply bind_ok in Hd. destruct Hd as (r & Hr & Hd).
    inversion Hd; subst t'. constructor; [|apply IH; assumption].
    eapply decode_node_state_counts; eassumption.
Qed.

(** ** The count invariant along the construction paths *)

Lemma count_invariant_Leaf (none_is_leaf : bool) :
  count_invariant (PyTreeSpec_Leaf none_is_leaf).
Proof. exists leaf_node. repeat split; reflexivity. Qed.

Lemma count_invariant_None (none_is_leaf : bool) :
  count_invariant (PyTreeSpec_None none_is_leaf).
Proof.
  destruct none_is_leaf; simpl.
  - apply (count_invariant_Leaf true).
  - eexists. repeat split; reflexivity.
Qed.

Lemma count_invariant_nonempty (s : PyTreeSpec) :
  count_invariant s -> m_traversal s <> [].
Proof.
  intros (root & Hb & _) E. rewrite E in Hb. discriminate.
Qed.

Lemma count_invariant_root_leaves (s : PyTreeSpec) :
  count_invariant s ->
  root_leaves s = count_leaves (m_traversal s)
  /\ spec_num_leaves s = OK (count_leaves (m_traversal s)).
Proof.
  intros (root & Hb & Hl & _). unfold root_leaves, spec_num_leaves. rewrite Hb.
  unfold back in Hb. destruct (rev (m_traversal s)); [discriminate|].
  inversion Hb; subst. simpl. rewrite Hl. auto.
Qed.

Lemma count_leaves_concat (ts : list PyTreeSpec) :
  Forall count_invariant ts ->
  count_leaves (List.concat (map m_traversal ts)) = sum_Z (map root_leaves ts).
Proof.
  induction 1 as [|t ts Ht Hts IH]; simpl; [reflexivity|].
  rewrite count_leaves_app, IH.
  destruct (count_invariant_root_leaves _ Ht) as [-> _]. reflexivity.
Qed.

Lemma count_invariant_Tuple (treespecs : list PyTreeSpec) (none_is_leaf : bool)
    (r : PyTreeSpec) :
  Forall count_invariant treespecs ->
  PyTreeSpec_Tuple treespecs none_is_leaf = OK r ->
  count_invariant r.
Proof.
  intros Hts Hr. unfold PyTreeSpec_Tuple in Hr.
  apply bind_ok in Hr. destruct Hr as (ns & _ & Hr).
  rewrite (tuple_collect_ok treespecs [] 0) in Hr.
  2:{ eapply Forall_impl; [|exact Hts]. apply count_invariant_nonempty. }
  cbn [bind app] in Hr. inversion Hr; subst r; clear Hr.
  eexists. cbn [m_traversal]. split; [apply back_snoc|].
  cbn [num_leaves num_nodes]. rewrite count_leaves_app, size_app, count_leaves_concat by assumption.
  simpl. split; [lia | reflexivity].
Qed.

Lemma compose_node_one (inner : list Node) (li ni : Z) (n : Node) :
  count_leaves (compose_node inner li ni n)
    = (if is_leaf_kind (kind n) then count_leaves inner else 0)
  /\ size (compose_node inner li ni n)
    = (if is_leaf_kind (kind n) then size inner else 1).
Proof.
  unfold compose_node.
  destruct (kind n) eqn:Hk; cbn [is_leaf_kind count_leaves kind]; rewrite ?Hk;
    cbn [is_leaf_kind]; split; reflexivity.
Qed.

Lemma compose_node_counts (inner : list Node) (li ni : Z) (t : list Node) :
  count_leaves (flat_map (compose_node inner li ni) t)
    = count_leaves t * count_leaves inner
  /\ size (flat_map (compose_node inner li ni) t)
    = (size t - count_leaves t) + count_leaves t * size inner.
Proof.
  induction t as [|n t [IHl IHs]]; [split; reflexivity|].
  cbn [flat_map]. rewrite count_leaves_app, size_app, IHl, IHs.
  destruct (compose_node_one inner li ni n) as [-> ->].
  change (n :: t) with ([n] ++ t). rewrite count_leaves_app, size_app.
  cbn [count_leaves]. change (size [n]) with 1.
  destruct (is_leaf_kind (kind n)); split; lia.
Qed.

Lemma count_invariant_Compose (outer inner r : PyTreeSpec) :
  count_invariant outer -> count_invariant inner ->
  Compose outer inner = OK r ->
  count_invariant r.
Proof.
  intros Ho Hi Hr.
  destruct (Compose_root_checked _ _ _ Hr) as (lo & li & root & Hlo & Hli & Ht & Hb & Hl & Hn).
  destruct (count_invariant_root_leaves _ Ho) as [_ Elo].
  destruct (count_invariant_root_leaves _ Hi) as [_ Eli].
  rewrite Elo in Hlo. rewrite Eli in Hli. inversion Hlo; inversion Hli; subst lo li.
  exists root. split; [assumption|].
  destruct (compose_node_counts (m_traversal inner) (count_leaves (m_traversal inner))
              (spec_num_nodes inner) (m_traversal outer)) as [Cl Cs].
  rewrite Ht, Cl, Cs. unfold spec_num_nodes in Hn. split; assumption.
Qed.

Lemma count_invariant_same_counts (t t' : list Node) (nil nil' : bool) (ns ns' : string) :
  Forall2 (fun n' n => kind n' = kind n /\ arity n' = arity n
                       /\ num_leaves n' = num_leaves n /\ num_nodes n' = num_nodes n) t' t ->
  count_invariant (mkSpec t nil ns) -> count_invariant (mkSpec t' nil' ns').
Proof.
  intros Hf (root & Hb & Hl & Hn). simpl in *.
  destruct (back_ok_inv _ _ Hb) as [t0 ->].
  apply Forall2_app_inv_r in Hf. destruct Hf as (t0' & l' & Hf0 & Hf1 & ->).
  inversion Hf1 as [|root' ? ? ? (Hk & _ & Hl' & Hn') Hnil]; subst.
  inversion Hnil; subst.
  exists root'. simpl. split; [apply back_snoc|].
  rewrite count_leaves_app, size_app in *.
  assert (Hc : count_leaves t0' = count_leaves t0 /\ size t0' = size t0).
  { clear -Hf0. induction Hf0 as [|x y a b (Hk & _) _ [IHl IHs]]; [split; reflexivity|].
    simpl. rewrite Hk, IHl. unfold size in *. simpl List.length. split; lia. }
  destruct Hc as [-> ->]. simpl. rewrite Hk. unfold size in *. simpl in *. lia.
Qed.

Lemma count_invariant_roundtrip (registry : PyTreeTypeRegistry) (s s' : PyTreeSpec) :
  count_invariant s ->
  FromPicklable registry (ToPicklable registry s) = OK s' ->
  count_invariant s'.
Proof.
  intros Hs Hd. destruct s as [t nil ns].
  unfold FromPicklable, FromPicklableImpl, ToPicklable in Hd. simpl in Hd.
  apply bind_ok in Hd. destruct Hd as (t' & Ht' & Hd). inversion Hd; subst s'.
  eapply count_invariant_same_counts; [|exact Hs].
  eapply decode_nodes_states_counts; eassumption.
Qed.

(** C4 (as stated, refuted). [FromPicklable] accepts a pickle of a single
    leaf that records 5 leaves and 7 nodes, and returns a spec whose root
    counts are neither the number of leaves nor the length of the traversal. *)
Lemma FromPicklable_keeps_wrong_counts :
  FromPicklable empty_registry miscounted_pickle = OK miscounted_spec
  /\ ~ count_invariant miscounted_spec.
Proof.
  split; [reflexivity|].
  intros (root & Hb & Hl & _). inversion Hb; subst root. discriminate Hl.
Qed.

(** C4 (amended). [Leaf] and [None] return specs that satisfy the count
    invariant; [Tuple] and [Compose] return such a spec when their arguments
    satisfy it; [FromPicklable] copies the stored counts, so decoding the
    pickle of a spec that satisfies the invariant gives a spec that satisfies
    it. *)
Theorem construction_paths_count_invariant :
  (forall none_is_leaf, count_invariant (PyTreeSpec_Leaf none_is_leaf))
  /\ (forall none_is_leaf, count_invariant (PyTreeSpec_None none_is_leaf))
  /\ (forall treespecs none_is_leaf r,
        Forall count_invariant treespecs ->
        PyTreeSpec_Tuple treespecs none_is_leaf = OK r -> count_invariant r)
  /\ (forall outer inner r,
        count_invariant outer -> count_invariant inner ->
        Compose outer inner = OK r -> count_invariant r)
  /\ (forall registry s s',
        count_invariant s ->
        FromPicklable registry (ToPicklable registry s) = OK s' -> count_invariant s').
Proof.
  repeat split.
  - apply count_invariant_Leaf.
  - apply count_invariant_None.
  - apply count_invariant_Tuple.
  - apply count_invariant_Compose.
  - apply count_invariant_roundtrip.
Qed.

(** C2 (as stated, refuted).  Three specs that satisfy the invariants of the
    data model and do not survive the round trip.  (1) The spec of [(x,)]
    whose tuple node records its path entries: the decoder rejects its
    pickle, since it accepts path entries on [Custom] nodes only.  (2) The
    tuple, built by the tuple constructor, of a [Box] flattened in the default
    namespace and a [Box] flattened in namespace ["b"], where [Box] is
    registered in both: each child survives the round trip, but the tuple
    adopts namespace ["b"], the decoder resolves both [Box] nodes there, and
    the decoded spec differs from the original under [operator==].  (3) A
    deque node without [node_data]: the encoder writes [None], the decoder
    stores that [None] as data, and [operator==] tells present data from
    absent data. *)
Lemma pickle_roundtrip_fails :
  (well_formed entries_spec = true
   /\ FromPicklable empty_registry (ToPicklable empty_registry entries_spec)
      = Raise Malformed)
  /\ (well_formed mixed_tuple_spec = true
      /\ FromPicklable shadow_registry (ToPicklable shadow_registry (box_spec_in "" 1%positive))
         = OK (box_spec_in "" 1%positive)
      /\ FromPicklable shadow_registry (ToPicklable shadow_registry (box_spec_in "b" 2%positive))
         = OK (box_spec_in "b" 2%positive)
      /\ PyTreeSpec_Tuple [box_spec_in "" 1%positive; box_spec_in "b" 2%positive] false
         = OK mixed_tuple_spec
      /\ FromPicklable shadow_registry (ToPicklable shadow_registry mixed_tuple_spec)
         = OK mixed_tuple_decoded
      /\ spec_eq mixed_tuple_decoded mixed_tuple_spec = OK false)
  /\ (well_formed deque_spec_without_data = true
      /\ FromPicklable empty_registry (ToPicklable empty_registry deque_spec_without_data)
         = OK (deque_spec PyNone)
      /\ spec_eq (deque_spec PyNone) deque_spec_without_data = OK false).
Proof. repeat split; reflexivity. Qed.

(** C2 (amended).  When every node of [s] has the fields the decoder demands
    of its kind (see [node_picklable]), decoding the pickled form of [s]
    returns [s] itself: flag, namespace and every field of every node are
    preserved, and the result is equal to [s] under [operator==]. *)
Theorem pickle_roundtrip (registry : PyTreeTypeRegistry) (s : PyTreeSpec) :
  picklable registry s = true ->
  exists s', FromPicklable registry (ToPicklable registry s) = OK s'
    /\ spec_eq s' s = OK true
    /\ s' = s.
Proof.
  intros Hp. exists s. split; [apply FromPicklable_ToPicklable; assumption|].
  split; [apply spec_eq_refl | reflexivity].
Qed.

(** ** Hashing *)

Section HashFacts.
Context {HS : HashState}.

Lemma hash_keys_eq (xs : list PyObject) :
  forall ys h, all2 py_eq xs ys = true -> hash_keys h xs = hash_keys h ys.
Proof.
  induction xs as [|x xs IH]; intros [|y ys] h Hall; simpl in *;
    try discriminate; [reflexivity|].
  apply Bool.andb_true_iff in Hall. destruct Hall as [Hxy Hrest].
  rewrite (py_hash_eq _ _ Hxy). destruct (py_hash y); simpl; [|reflexivity].
  apply IH. assumption.
Qed.

Lemma all2_length (xs : list PyObject) :
  forall ys, all2 py_eq xs ys = true -> List.length xs = List.length ys.
Proof.
  induction xs as [|x xs IH]; intros [|y ys] Hall; simpl in *; try discriminate;
    [reflexivity|].
  apply Bool.andb_true_iff in Hall. destruct Hall as [_ Hrest].
  f_equal. apply IH. assumption.
Qed.

(** A host value equal to a list is a list. *)
Lemma py_eq_list_inv (x y : PyObject) :
  py_eq x y = true ->
  match x, y with
  | PyList a, PyList b => all2 py_eq a b = true
  | PyList _, _ | _, PyList _ => False
  | _, _ => True
  end.
Proof. destruct x, y; simpl; intros E; try discriminate; auto. Qed.

Lemma dict_hash_eq (x y : PyObject) (ar h : Z) :
  py_eq x y = true ->
  match x with
  | PyList keys => _ <- expect_eq (Z.of_nat (List.length keys)) ar ;; hash_keys h keys
  | _ => Raise Undefined
  end
  = match y with
    | PyList keys => _ <- expect_eq (Z.of_nat (List.length keys)) ar ;; hash_keys h keys
    | _ => Raise Undefined
    end.
Proof.
  intros E. pose proof (py_eq_list_inv _ _ E) as Hl.
  destruct x, y; try reflexivity; try contradiction.
  rewrite (all2_length _ _ Hl). destruct (expect_eq _ ar); simpl; [|reflexivity].
  apply hash_keys_eq. assumption.
Qed.

(** Nodes that [operator==] accepts have the same data hash. *)
Lemma node_data_hash_agree (a b : Node) :
  nodes_agree a b -> node_data_hash a = node_data_hash b.
Proof.
  intros (Hk & Har & _ & Hd). unfold node_data_hash. rewrite <- Hk, <- Har.
  destruct (node_data a) as [x|], (node_data b) as [y|]; try contradiction;
    [|reflexivity].
  destruct (kind a); simpl; try (apply py_hash_eq; assumption); try reflexivity.
  - apply dict_hash_eq. assumption.
  - apply dict_hash_eq. assumption.
  - (* DefaultDict *)
    destruct x as [| | | |xs| |], y as [| | | |ys| |]; simpl in Hd;
      try discriminate; try reflexivity.
    destruct xs as [|f [|kx [|? ?]]], ys as [|g [|ky [|? ?]]]; simpl in Hd;
      try reflexivity;
      try (exfalso; rewrite ?Bool.andb_false_r in Hd; discriminate).
    rewrite !Bool.andb_true_iff in Hd. destruct Hd as (Hf & Hkl & _).
    pose proof (py_eq_list_inv _ _ Hkl) as Hl.
    destruct kx, ky; try reflexivity; try contradiction.
    rewrite (all2_length _ _ Hl). destruct (expect_eq _ (arity a)); simpl; [|reflexivity].
    rewrite (py_hash_eq _ _ Hf). destruct (py_hash g); simpl; [|reflexivity].
    apply hash_keys_eq. assumption.
Qed.

(** The node hash reads [kind], [arity], [custom], the two counts and the
    data hash, nothing else. *)
Lemma hash_node_fields (h : H) (a b : Node) :
  kind a = kind b -> arity a = arity b -> custom a = custom b ->
  num_leaves a = num_leaves b -> num_nodes a = num_nodes b ->
  node_data_hash a = node_data_hash b ->
  hash_node h a = hash_node h b.
Proof.
  intros Hk Har Hc Hl Hn Hd. unfold hash_node.
  rewrite Hk, Har, Hc, Hl, Hn, Hd. reflexivity.
Qed.

Lemma node_data_hash_same_fields (a b : Node) :
  same_hashed_fields a b -> node_data_hash a = node_data_hash b.
Proof.
  intros (Hk & Har & _ & _ & _ & Hd). unfold node_data_hash. rewrite <- Hk, <- Har.
  destruct (kind a) eqn:E; try reflexivity; rewrite Hd by discriminate; reflexivity.
Qed.

Lemma hash_nodes_Forall2 (R : Node -> Node -> Prop) :
  (forall h a b, R a b -> hash_node h a = hash_node h b) ->
  forall t t', Forall2 R t t' -> forall h, hash_nodes h t = hash_nodes h t'.
Proof.
  intros HR t t' Hf. induction Hf as [|a b t t' Hab _ IH]; intros h; simpl;
    [reflexivity|].
  rewrite (HR h a b Hab). destruct (hash_node h b); simpl; [apply IH | reflexivity].
Qed.

Lemma hash_spec_Forall2 (R : Node -> Node -> Prop) (a b : PyTreeSpec) :
  (forall h x y, R x y -> hash_node h x = hash_node h y) ->
  Forall2 R (m_traversal a) (m_traversal b) ->
  m_none_is_leaf a = m_none_is_leaf b ->
  m_namespace a = m_namespace b ->
  PyTreeSpec_hash a = PyTreeSpec_hash b.
Proof.
  intros HR Hf Hflag Hns. unfold PyTreeSpec_hash, hash_spec.
  rewrite (hash_nodes_Forall2 R HR _ _ Hf), Hflag, Hns.
  unfold size. rewrite (Forall2_length Hf). reflexivity.
Qed.
End HashFacts.

(** ** Equality *)

Lemma nodes_agree_test (x y : Node) :
  nodes_agree x y <->
  (negb (kind_eqb (kind x) (kind y)) || negb (arity x =? arity y)
   || negb (Bool.eqb (is_null (node_data x)) (is_null (node_data y)))
   || negb (ptr_eqb (custom x) (custom y))) = false
  /\ data_differs (node_data x) (node_data y) = false.
Proof.
  unfold nodes_agree.
  rewrite !Bool.orb_false_iff, !Bool.negb_false_iff, kind_eqb_eq, Z.eqb_eq, ptr_eqb_eq.
  destruct (node_data x) as [dx|], (node_data y) as [dy|]; simpl;
    unfold not_equal; rewrite ?Bool.negb_false_iff; intuition discriminate.
Qed.

Lemma nodes_agree_dec (x y : Node) : {nodes_agree x y} + {~ nodes_agree x y}.
Proof.
  destruct ((negb (kind_eqb (kind x) (kind y)) || negb (arity x =? arity y)
   || negb (Bool.eqb (is_null (node_data x)) (is_null (node_data y)))
   || negb (ptr_eqb (custom x) (custom y)))) eqn:E1.
  - right. rewrite nodes_agree_test, E1. intros [? _]. discriminate.
  - destruct (data_differs (node_data x) (node_data y)) eqn:E2.
    + right. rewrite nodes_agree_test, E2. intros [_ ?]. discriminate.
    + left. apply nodes_agree_test. auto.
Qed.

(** One iteration of the loop of [operator==]. *)
Lemma nodes_equal_cons (x y : Node) (a b : list Node) :
  nodes_equal (x :: a) (y :: b) =
    if nodes_agree_dec x y then
      if (num_leaves x =? num_leaves y) && (num_nodes x =? num_nodes y)
      then nodes_equal a b else Raise InternalError
    else OK false.
Proof.
  cbn [nodes_equal].
  destruct (nodes_agree_dec x y) as [Hy | Hn].
  - apply nodes_agree_test in Hy. destruct Hy as [-> ->].
    destruct (num_leaves x =? num_leaves y); simpl; [|reflexivity].
    destruct (num_nodes x =? num_nodes y); reflexivity.
  - rewrite nodes_agree_test in Hn.
    destruct (negb _ || _ || _ || _); [reflexivity|].
    destruct (data_differs _ _); [reflexivity|]. exfalso. auto.
Qed.

(** The loop returns [true] exactly when every pair of nodes passes the
    comparison and carries the same counts. *)
Lemma nodes_equal_true (a : list Node) :
  forall b, List.length a = List.length b ->
    (nodes_equal a b = OK true <->
     Forall2 (fun x y => nodes_agree x y /\ same_counts x y) a b).
Proof.
  induction a as [|x a IH]; intros [|y b] Hlen; try discriminate.
  - simpl. split; [constructor | reflexivity].
  - rewrite nodes_equal_cons. simpl in Hlen. injection Hlen as Hlen.
    destruct (nodes_agree_dec x y) as [Hy | Hn].
    + destruct (Z.eqb_spec (num_leaves x) (num_leaves y)) as [El | El];
        destruct (Z.eqb_spec (num_nodes x) (num_nodes y)) as [En | En]; simpl.
      * rewrite (IH b Hlen). split.
        -- intros Hf. constructor; [split; [assumption | split; assumption] | assumption].
        -- intros Hf. inversion Hf; assumption.
      * split; [discriminate|]. intros Hf. inversion Hf as [|? ? ? ? [_ [_ ?]] _]. contradiction.
      * split; [discriminate|]. intros Hf. inversion Hf as [|? ? ? ? [_ [? _]] _]. contradiction.
      * split; [discriminate|]. intros Hf. inversion Hf as [|? ? ? ? [_ [? _]] _]. contradiction.
    + split; [discriminate|]. intros Hf. inversion Hf as [|? ? ? ? [? _] _]. contradiction.
Qed.

Lemma size_eqb_length (a b : list Node) :
  (size a =? size b) = true <-> List.length a = List.length b.
Proof. unfold size. rewrite Z.eqb_eq. lia. Qed.

(** [operator==] returns [true] exactly when the flags are equal, the
    namespaces are compatible, and the nodes agree pairwise, counts
    included. *)
Lemma spec_eq_true (a b : PyTreeSpec) :
  spec_eq a b = OK true <->
  m_none_is_leaf a = m_none_is_leaf b
  /\ (m_namespace a = "" \/ m_namespace b = "" \/ m_namespace a = m_namespace b)
  /\ Forall2 (fun x y => nodes_agree x y /\ same_counts x y) (m_traversal a) (m_traversal b).
Proof.
  unfold spec_eq. rewrite <- namespace_mismatch_false.
  destruct (size (m_traversal a) =? size (m_traversal b)) eqn:Hs; simpl.
  2:{ split; [discriminate|]. intros (_ & _ & Hf).
      apply Forall2_length in Hf. apply size_eqb_length in Hf. congruence. }
  apply size_eqb_length in Hs.
  destruct (Bool.eqb (m_none_is_leaf a) (m_none_is_leaf b)) eqn:Hf; simpl.
  2:{ split; [discriminate|]. intros (E & _). rewrite E, Bool.eqb_reflx in Hf. discriminate. }
  apply Bool.eqb_prop in Hf.
  destruct (namespace_mismatch (m_namespace a) (m_namespace b)).
  - split; [discriminate|]. intros (_ & ? & _). discriminate.
  - rewrite (nodes_equal_true _ _ Hs). tauto.
Qed.

Lemma hash_node_agree {HS : HashState} (h : H) (x y : Node) :
  nodes_agree x y /\ same_counts x y -> hash_node h x = hash_node h y.
Proof.
  intros [Ha [Hl Hn]]. pose proof (node_data_hash_agree _ _ Ha) as Hd.
  destruct Ha as (Hk & Har & Hc & _). apply hash_node_fields; assumption.
Qed.

Lemma hash_node_same_fields {HS : HashState} (h : H) (x y : Node) :
  same_hashed_fields x y -> hash_node h x = hash_node h y.
Proof.
  intros Hs. pose proof (node_data_hash_same_fields _ _ Hs) as Hd.
  destruct Hs as (Hk & Har & Hc & Hl & Hn & _). apply hash_node_fields; assumption.
Qed.

Lemma same_but_entries_agree (x y : Node) :
  same_but_entries x y -> nodes_agree x y /\ same_counts x y.
Proof.
  intros (Hk & Har & Hd & Hc & Hl & Hn). unfold nodes_agree, same_counts.
  rewrite Hd. repeat split; auto.
  destruct (node_data y); [apply py_eq_refl | exact I].
Qed.

Lemma hash_of_equal_specs {HS : HashState} (a b : PyTreeSpec) :
  spec_eq a b = OK true ->
  m_namespace a = m_namespace b ->
  PyTreeSpec_hash a = PyTreeSpec_hash b.
Proof.
  intros Heq Hns. apply spec_eq_true in Heq. destruct Heq as (Hflag & _ & Hf).
  eapply hash_spec_Forall2; [|exact Hf|exact Hflag|exact Hns].
  intros h x y. apply hash_node_agree.
Qed.

(** C3 (as stated, refuted).  The spec of a pair in the default namespace and
    the same spec in namespace ["ns"] are equal under [operator==], which
    takes an empty namespace for any namespace.  Their hashes absorb the
    same words and then the two different namespace strings: they agree only
    if the hash state collides on [""] and ["ns"], and with the 64-bit
    mixing state they differ. *)
Lemma equal_specs_with_different_hashes :
  spec_eq (pair_spec "") (pair_spec "ns") = OK true
  /\ (forall HS : HashState, exists h : H,
        @PyTreeSpec_hash HS (pair_spec "") = OK (finalize (combine_string h ""))
        /\ @PyTreeSpec_hash HS (pair_spec "ns") = OK (finalize (combine_string h "ns")))
  /\ @PyTreeSpec_hash MixingHashState (pair_spec "")
     <> @PyTreeSpec_hash MixingHashState (pair_spec "ns").
Proof.
  split; [reflexivity|]. split.
  - intros HS. eexists. split; reflexivity.
  - vm_compute. discriminate.
Qed.

(** C3 (amended).  If [a == b] and the two namespaces are the same string,
    then [hash(a) = hash(b)], whatever the hash state. *)
Theorem eq_hash_consistent {HS : HashState} (a b : PyTreeSpec) :
  spec_eq a b = OK true ->
  m_namespace a = m_namespace b ->
  PyTreeSpec_hash a = PyTreeSpec_hash b.
Proof.
  intros Heq Hns. apply hash_of_equal_specs; assumption.
Qed.

(** C9.  The node hash is determined by [kind], [arity], the registration
    pointer, [num_leaves], [num_nodes] and the data hash; the data hash of a
    [Custom] node is the constant 0, so [Custom] nodes that agree on the
    other fields have the same hash whatever their [node_data], and so have
    two specs that differ only there. *)
Theorem custom_node_data_not_hashed {HS : HashState} :
  (forall h a b,
     kind a = kind b -> arity a = arity b -> custom a = custom b ->
     num_leaves a = num_leaves b -> num_nodes a = num_nodes b ->
     node_data_hash a = node_data_hash b ->
     hash_node h a = hash_node h b)
  /\ (forall a, kind a = Custom -> node_data_hash a = OK 0)
  /\ (forall h a b,
        kind a = Custom -> kind b = Custom ->
        arity a = arity b -> custom a = custom b ->
        num_leaves a = num_leaves b -> num_nodes a = num_nodes b ->
        hash_node h a = hash_node h b /\ Node_hash a = Node_hash b)
  /\ (forall s t,
        Forall2 same_hashed_fields (m_traversal s) (m_traversal t) ->
        m_none_is_leaf s = m_none_is_leaf t -> m_namespace s = m_namespace t ->
        PyTreeSpec_hash s = PyTreeSpec_hash t).
Proof.
  split; [|split; [|split]].
  - intros h a b. apply hash_node_fields.
  - intros a Hk. unfold node_data_hash. rewrite Hk. reflexivity.
  - intros h a b Ha Hb Har Hc Hl Hn.
    assert (Hd : node_data_hash a = node_data_hash b)
      by (unfold node_data_hash; rewrite Ha, Hb; reflexivity).
    assert (Hk : kind a = kind b) by congruence.
    split; [apply hash_node_fields; assumption|].
    unfold Node_hash. rewrite (hash_node_fields seed a b Hk Har Hc Hl Hn Hd). reflexivity.
  - intros s t Hf Hflag Hns.
    eapply hash_spec_Forall2; [|exact Hf|exact Hflag|exact Hns].
    intros h x y. apply hash_node_same_fields.
Qed.

(** C10.  Two specs whose nodes differ only in [node_entries], with the same
    flag and namespace, are equal under [operator==] and have the same hash:
    neither reads [node_entries]. *)
Theorem node_entries_ignored {HS : HashState} (a b : PyTreeSpec) :
  Forall2 same_but_entries (m_traversal a) (m_traversal b) ->
  m_none_is_leaf a = m_none_is_leaf b ->
  m_namespace a = m_namespace b ->
  spec_eq a b = OK true /\ PyTreeSpec_hash a = PyTreeSpec_hash b.
Proof.
  intros Hf Hflag Hns.
  assert (Hf' : Forall2 (fun x y => nodes_agree x y /\ same_counts x y)
                        (m_traversal a) (m_traversal b)).
  { eapply Forall2_impl; [|exact Hf]. apply same_but_entries_agree. }
  assert (Heq : spec_eq a b = OK true) by (apply spec_eq_true; auto).
  split; [assumption|]. apply hash_of_equal_specs; assumption.
Qed.

Lemma Forall2_of_nth_error (R : Node -> Node -> Prop) (a : list Node) :
  forall b, List.length a = List.length b ->
    (forall i x y, nth_error a i = Some x -> nth_error b i = Some y -> R x y) ->
    Forall2 R a b.
Proof.
  induction a as [|x a IH]; intros [|y b] Hlen Hnth; try discriminate; constructor.
  - apply (Hnth O); reflexivity.
  - apply IH; [simpl in Hlen; congruence|].
    intros i u v Hu Hv. apply (Hnth (S i)); assumption.
Qed.

Lemma Forall2_to_nth_error (R : Node -> Node -> Prop) (a b : list Node) :
  Forall2 R a b ->
  forall i x y, nth_error a i = Some x -> nth_error b i = Some y -> R x y.
Proof.
  induction 1 as [|u v a b Huv _ IH]; intros [|i] x y Hx Hy; simpl in *;
    try discriminate.
  - congruence.
  - eapply IH; eassumption.
Qed.

(** ** Counts are implied by structure *)

Lemma counts_ok_agree (x y : Node) (stack : list (Z * Z)) :
  kind x = kind y -> arity x = arity y ->
  counts_ok x stack = true -> counts_ok y stack = true ->
  same_counts x y /\ push_node x stack = push_node y stack.
Proof.
  unfold counts_ok, push_node, same_counts, expected_leaves. intros Hk Har Hx Hy.
  rewrite !Bool.andb_true_iff, !Z.eqb_eq in Hx, Hy.
  destruct Hx as [[_ Hxl] Hxn]. destruct Hy as [[_ Hyl] Hyn].
  rewrite Hk, Har in *. rewrite <- Hyl in Hxl. rewrite <- Hyn in Hxn.
  rewrite Hxl, Hxn. auto.
Qed.

Lemma replay_same_counts (a b : list Node) :
  Forall2 nodes_agree a b ->
  forall stack sa sb,
    replay a stack = Some sa -> replay b stack = Some sb ->
    Forall2 same_counts a b.
Proof.
  induction 1 as [|x y a b Hxy _ IH]; intros stack sa sb Ha Hb; [constructor|].
  simpl in Ha, Hb.
  destruct (counts_ok x stack) eqn:Hx; [|discriminate].
  destruct (counts_ok y stack) eqn:Hy; [|discriminate].
  destruct Hxy as (Hk & Har & _).
  destruct (counts_ok_agree x y stack Hk Har Hx Hy) as [Hc Hp].
  constructor; [assumption|]. rewrite Hp in Ha. eapply IH; eassumption.
Qed.

Lemma counts_well_formed_replay (t : list Node) :
  counts_well_formed t = true -> exists e, replay t [] = Some [e].
Proof.
  unfold counts_well_formed.
  destruct (replay t []) as [[|e [|]]|]; try discriminate. eauto.
Qed.

Lemma Forall2_conj (R S : Node -> Node -> Prop) (a b : list Node) :
  Forall2 R a b -> Forall2 S a b -> Forall2 (fun x y => R x y /\ S x y) a b.
Proof.
  induction 1; intros HS; inversion HS; subst; constructor; auto.
Qed.

(** When the nodes agree pairwise, the loop of [operator==] either returns
    [true] or trips over one of its two assertions. *)
Lemma nodes_equal_agree (a b : list Node) :
  Forall2 nodes_agree a b ->
  nodes_equal a b = OK true \/ nodes_equal a b = Raise InternalError.
Proof.
  induction 1 as [|x y a b Hxy _ IH]; [left; reflexivity|].
  rewrite nodes_equal_cons.
  destruct (nodes_agree_dec x y); [|contradiction].
  destruct (_ && _); [exact IH | right; reflexivity].
Qed.

(** C5.  [a == b] returns [true] only if the traversals have the same
    length, the flags are equal, the namespaces are equal or one of them is
    empty, and at every position the two nodes agree on [kind], [arity], the
    registration pointer and [node_data] (both absent, or both present and
    equal by host equality).  Conversely, when these conditions hold the
    comparison returns [true] unless one of its assertions on the counts
    raises; on traversals whose counts are well formed the counts follow
    from the structure, and the comparison returns [true] exactly when the
    conditions hold. *)
Theorem spec_eq_iff (a b : PyTreeSpec) :
  let conditions :=
    List.length (m_traversal a) = List.length (m_traversal b)
    /\ m_none_is_leaf a = m_none_is_leaf b
    /\ (m_namespace a = m_namespace b \/ m_namespace a = "" \/ m_namespace b = "")
    /\ (forall i x y,
          nth_error (m_traversal a) i = Some x ->
          nth_error (m_traversal b) i = Some y ->
          nodes_agree x y) in
  (spec_eq a b = OK true -> conditions)
  /\ (conditions -> spec_eq a b = OK true \/ spec_eq a b = Raise InternalError)
  /\ (counts_well_formed (m_traversal a) = true ->
      counts_well_formed (m_traversal b) = true ->
      (spec_eq a b = OK true <-> conditions)).
Proof.
  intros conditions.
  assert (Hfwd : spec_eq a b = OK true -> conditions).
  { intros Heq. apply spec_eq_true in Heq. destruct Heq as (Hflag & Hns & Hf).
    split; [exact (Forall2_length Hf)|]. split; [assumption|]. split; [tauto|].
    intros i x y Hx Hy.
    exact (proj1 (Forall2_to_nth_error _ _ _ Hf i x y Hx Hy)). }
  split; [assumption|]. split.
  - intros (Hlen & Hflag & Hns & Hnth).
    pose proof (Forall2_of_nth_error nodes_agree _ _ Hlen Hnth) as Hf.
    unfold spec_eq.
    rewrite (proj2 (size_eqb_length _ _) Hlen), Hflag, Bool.eqb_reflx. simpl.
    rewrite (proj2 (namespace_mismatch_false _ _)) by tauto.
    apply nodes_equal_agree. assumption.
  - intros Ha Hb. split; [assumption|].
    intros (Hlen & Hflag & Hns & Hnth).
    pose proof (Forall2_of_nth_error nodes_agree _ _ Hlen Hnth) as Hf.
    destruct (counts_well_formed_replay _ Ha) as [ea Hra].
    destruct (counts_well_formed_replay _ Hb) as [eb Hrb].
    pose proof (replay_same_counts _ _ Hf _ _ _ Hra Hrb) as Hc.
    apply spec_eq_true. split; [assumption|]. split; [tauto|].
    apply Forall2_conj; assumption.
Qed.

(** ** Children *)

Lemma replay_app (a b : list Node) :
  forall stack,
    replay (a ++ b) stack =
      match replay a stack with
      | Some stack' => replay b stack'
      | Datatypes.None => Datatypes.None
      end.
Proof.
  induction a as [|n a IH]; intros stack; simpl; [reflexivity|].
  destruct (counts_ok n stack); [apply IH | reflexivity].
Qed.

Lemma sum_Z_app (a b : list Z) : sum_Z (a ++ b) = sum_Z a + sum_Z b.
Proof. induction a as [|x a IH]; simpl; [reflexivity | rewrite IH; lia]. Qed.

Lemma sum_Z_firstn_skipn (n : nat) (l : list Z) :
  sum_Z (firstn n l) + sum_Z (skipn n l) = sum_Z l.
Proof. rewrite <- sum_Z_app, firstn_skipn. reflexivity. Qed.

Lemma Forall2_firstn {A B} (R : A -> B -> Prop) (n : nat) :
  forall a b, Forall2 R a b -> Forall2 R (firstn n a) (firstn n b).
Proof.
  induction n as [|n IH]; intros a b Hf; simpl; [constructor|].
  destruct Hf; constructor; auto.
Qed.

Lemma Forall2_skipn {A B} (R : A -> B -> Prop) (n : nat) :
  forall a b, Forall2 R a b -> Forall2 R (skipn n a) (skipn n b).
Proof.
  induction n as [|n IH]; intros a b Hf; simpl; [assumption|].
  destruct Hf; [constructor | auto].
Qed.

(** The run covered by a stack of finished subtrees is as long as the sum
    of their node counts. *)
Lemma size_segments (segs : list (list Node)) (stack : list (Z * Z)) :
  Forall2 seg_ok segs stack ->
  size (List.concat (rev segs)) = sum_Z (map snd stack).
Proof.
  induction 1 as [|seg e segs stack (body & n & _ & _ & Hsz) _ IH]; [reflexivity|].
  cbn [rev map sum_Z]. rewrite concat_app, size_app, IH.
  cbn [List.concat]. rewrite app_nil_r, Hsz. lia.
Qed.

(** The replay of a traversal cuts it into the subtrees left on the stack,
    the most recent first. *)
Lemma replay_segments (p : list Node) :
  forall stack, replay p [] = Some stack ->
    exists segs, p = List.concat (rev segs) /\ Forall2 seg_ok segs stack.
Proof.
  induction p as [|n p IH] using rev_ind; intros stack Hr.
  - simpl in Hr. inversion Hr. exists []. split; [reflexivity | constructor].
  - rewrite replay_app in Hr.
    destruct (replay p []) as [stack'|] eqn:Hp; [|discriminate].
    destruct (IH stack' eq_refl) as (segs & Hcat & Hf).
    simpl in Hr. destruct (counts_ok n stack') eqn:Hn; [|discriminate].
    inversion Hr; subst stack; clear Hr.
    set (k := Z.to_nat (arity n)) in *.
    exists ((List.concat (rev (firstn k segs)) ++ [n]) :: skipn k segs).
    split.
    + simpl. rewrite concat_app. simpl. rewrite app_nil_r, app_assoc, <- concat_app.
      rewrite <- rev_app_distr, firstn_skipn, <- Hcat. reflexivity.
    + unfold push_node. fold k. constructor; [|apply Forall2_skipn; assumption].
      exists (List.concat (rev (firstn k segs))), n.
      split; [reflexivity|]. split; [reflexivity|]. simpl.
      rewrite size_app, (size_segments _ (firstn k stack'))
        by (apply Forall2_firstn; assumption).
      unfold counts_ok in Hn. fold k in Hn.
      rewrite !Bool.andb_true_iff, !Z.eqb_eq in Hn. destruct Hn as [_ Hnn].
      rewrite Hnn. unfold expected_nodes. change (size [n]) with 1. cbn [snd]. lia.
Qed.

Lemma at_index_middle (a rest : list Node) (n : Node) :
  at_index (a ++ n :: rest) (size a) = OK n.
Proof.
  unfold at_index, size. rewrite length_app. simpl List.length.
  destruct (Z.ltb_spec (Z.of_nat (List.length a)) 0); [lia|].
  destruct (Z.leb_spec (Z.of_nat (List.length a + S (List.length rest)))
              (Z.of_nat (List.length a))); [lia|].
  simpl. rewrite Nat2Z.id, nth_error_app2, Nat.sub_diag by lia. reflexivity.
Qed.

Lemma slice_middle (a seg rest : list Node) :
  slice (a ++ seg ++ rest) (size a) (size a + size seg) = seg.
Proof.
  unfold slice, size.
  replace (Z.of_nat (List.length a) + Z.of_nat (List.length seg) - Z.of_nat (List.length a))
    with (Z.of_nat (List.length seg)) by lia.
  rewrite !Nat2Z.id, skipn_app, skipn_all, Nat.sub_diag. simpl.
  rewrite firstn_app, firstn_all, Nat.sub_diag. simpl. apply app_nil_r.
Qed.

(** Walking back from the root by the [num_nodes] of each child cuts the
    traversal at the boundaries of the subtrees. *)
Lemma children_loop_segments (s : PyTreeSpec) (segs : list (list Node))
    (stack : list (Z * Z)) :
  Forall2 seg_ok segs stack ->
  forall rest children,
    m_traversal s = List.concat (rev segs) ++ rest ->
    children_loop s (List.length segs) (size (List.concat (rev segs))) children
      = OK (0, map (spec_of_segment s) (rev segs) ++ children).
Proof.
  induction 1 as [|seg e segs stack (body & n & Hseg & He & Hsz) _ IH];
    intros rest children Ht; [reflexivity|].
  cbn [List.length children_loop rev].
  rewrite concat_app. cbn [List.concat]. rewrite app_nil_r, size_app.
  set (P := size (List.concat (rev segs))).
  assert (Hnn : num_nodes n = size seg) by (rewrite Hsz, <- He; reflexivity).
  assert (Hat : at_index (m_traversal s) (P + size seg - 1) = OK n).
  { rewrite Ht. cbn [rev]. rewrite concat_app. cbn [List.concat].
    rewrite app_nil_r, Hseg, <- !app_assoc. cbn [app].
    rewrite (app_assoc (List.concat (rev segs)) body).
    replace (P + size (body ++ [n]) - 1) with (size (List.concat (rev segs) ++ body)).
    - apply at_index_middle.
    - unfold P. rewrite !size_app. change (size [n]) with 1. lia. }
  rewrite Hat. cbn [bind]. rewrite Hnn.
  pose proof (size_nonneg (List.concat (rev segs))) as HP. fold P in HP.
  pose proof (size_nonneg seg) as Hs0.
  destruct (Z.ltb_spec (P + size seg) (size seg)); [lia|].
  destruct (Z.ltb_spec (size seg) 0); [lia|].
  replace (P + size seg - size seg) with P by lia.
  assert (Hsl : slice (m_traversal s) P (P + size seg) = seg).
  { rewrite Ht. cbn [rev]. rewrite concat_app. cbn [List.concat].
    rewrite app_nil_r, <- app_assoc. apply slice_middle. }
  rewrite Hsl. unfold P.
  etransitivity; [apply (IH (seg ++ rest))|].
  - rewrite Ht. cbn [rev]. rewrite concat_app. cbn [List.concat].
    rewrite app_nil_r, <- app_assoc. reflexivity.
  - rewrite map_app, <- app_assoc. reflexivity.
Qed.

Lemma nodes_agree_refl (x : Node) : nodes_agree x x.
Proof.
  unfold nodes_agree. repeat split.
  destruct (node_data x); [apply py_eq_refl | exact I].
Qed.

Lemma Forall2_refl_agree (t : list Node) :
  Forall2 (fun x y => nodes_agree x y /\ same_counts x y) t t.
Proof.
  induction t; constructor; auto.
  split; [apply nodes_agree_refl | split; reflexivity].
Qed.

Lemma root_leaves_segments (s : PyTreeSpec) (segs : list (list Node))
    (stack : list (Z * Z)) :
  Forall2 seg_ok segs stack ->
  sum_Z (map root_leaves (map (spec_of_segment s) (rev segs))) = sum_Z (map fst stack).
Proof.
  induction 1 as [|seg e segs stack (body & n & Hseg & He & _) _ IH]; [reflexivity|].
  cbn [rev]. rewrite !map_app, sum_Z_app, IH. cbn [map sum_Z].
  unfold root_leaves, spec_of_segment. cbn [m_traversal].
  rewrite Hseg, rev_app_distr. cbn [rev app]. rewrite <- He. cbn [fst]. lia.
Qed.

Lemma concat_segments (s : PyTreeSpec) (segs : list (list Node)) :
  List.concat (map m_traversal (map (spec_of_segment s) segs)) = List.concat segs.
Proof.
  rewrite map_map. unfold spec_of_segment. cbn [m_traversal]. rewrite map_id. reflexivity.
Qed.

Lemma tuple_namespace_same (ns : string) (treespecs : list PyTreeSpec) :
  Forall (fun t => m_namespace t = ns) treespecs ->
  forall acc, acc = "" \/ acc = ns ->
    tuple_namespace acc treespecs = "" \/ tuple_namespace acc treespecs = ns.
Proof.
  induction 1 as [|t ts Ht _ IH]; intros acc Hacc; simpl; [assumption|].
  apply IH. destruct (empty acc); [right; assumption | assumption].
Qed.

(** The shape of a well-formed traversal: the children of the root are the
    subtrees the replay has on its stack when it reaches the root. *)
Lemma root_segments (t : list Node) (root : Node) :
  counts_well_formed t = true ->
  back t = OK root ->
  exists p segs stack,
    t = p ++ [root] /\ p = List.concat (rev segs)
    /\ Forall2 seg_ok segs stack
    /\ arity root = Z.of_nat (List.length segs)
    /\ num_leaves root = expected_leaves root stack
    /\ num_nodes root = expected_nodes stack.
Proof.
  intros Hwf Hb. destruct (counts_well_formed_replay _ Hwf) as [e Hr].
  destruct (back_ok_inv _ _ Hb) as [p ->].
  rewrite replay_app in Hr. destruct (replay p []) as [stack|] eqn:Hp; [|discriminate].
  destruct (replay_segments _ _ Hp) as (segs & Hcat & Hf).
  simpl in Hr. destruct (counts_ok root stack) eqn:Hc; [|discriminate].
  unfold push_node in Hr. injection Hr as He Hskip.
  unfold counts_ok in Hc. rewrite !Bool.andb_true_iff, !Z.eqb_eq in Hc.
  destruct Hc as [[[[Hge Hle] _] Hl] Hn].
  apply Z.leb_le in Hge, Hle.
  assert (Hlen : Z.to_nat (arity root) = List.length stack).
  { pose proof (length_skipn (Z.to_nat (arity root)) stack) as Hs.
    rewrite Hskip in Hs. simpl in Hs. lia. }
  rewrite Hlen, firstn_all in Hl, Hn.
  exists p, segs, stack. repeat split; auto.
  rewrite (Forall2_length Hf). lia.
Qed.

Lemma Children_segments (s : PyTreeSpec) (root : Node) (p : list Node)
    (segs : list (list Node)) (stack : list (Z * Z)) :
  m_traversal s = p ++ [root] -> p = List.concat (rev segs) ->
  Forall2 seg_ok segs stack ->
  arity root = Z.of_nat (List.length segs) ->
  Children s = OK (map (spec_of_segment s) (rev segs)).
Proof.
  intros Ht Hp Hf Har. unfold Children. rewrite Ht, rev_app_distr. cbn [rev app].
  destruct (Z.ltb_spec (arity root) 0); [lia|].
  rewrite Har, Nat2Z.id, size_app. change (size [root]) with 1.
  replace (size p + 1 - 1) with (size p) by lia. rewrite Hp.
  rewrite (children_loop_segments s segs stack Hf [root] []).
  - cbn [bind]. rewrite app_nil_r. reflexivity.
  - rewrite Ht, Hp. reflexivity.
Qed.

Lemma seg_ok_nonempty (segs : list (list Node)) (stack : list (Z * Z)) :
  Forall2 seg_ok segs stack -> forall seg, In seg segs -> seg <> [].
Proof.
  induction 1 as [|x e segs stack (body & n & Hseg & _) _ IH]; intros seg Hin;
    [contradiction|].
  destruct Hin as [<- | Hin]; [|auto].
  rewrite Hseg. intros E. apply app_eq_nil in E. destruct E as [_ E]. discriminate.
Qed.

Lemma well_formed_root_ok (s : PyTreeSpec) (root : Node) :
  well_formed s = true -> back (m_traversal s) = OK root ->
  counts_well_formed (m_traversal s) = true /\ node_ok (m_none_is_leaf s) root = true.
Proof.
  unfold well_formed. rewrite Bool.andb_true_iff. intros [Hc Hn] Hb. split; [assumption|].
  rewrite forallb_forall in Hn. apply Hn. eapply back_in; eassumption.
Qed.

(** C6.  For a well-formed spec [s] whose root is a [Tuple], [Children]
    returns as many specs as the root's [arity], each with the flag and the
    namespace of [s], and the tuple constructor applied to them returns a
    spec equal to [s] under [operator==]. *)
Theorem Children_reassembly (s : PyTreeSpec) (root : Node) :
  well_formed s = true ->
  back (m_traversal s) = OK root ->
  kind root = Tuple ->
  exists children r,
    Children s = OK children
    /\ Z.of_nat (List.length children) = arity root
    /\ Forall (fun c => m_none_is_leaf c = m_none_is_leaf s
                        /\ m_namespace c = m_namespace s) children
    /\ PyTreeSpec_Tuple children (m_none_is_leaf s) = OK r
    /\ spec_eq r s = OK true.
Proof.
  intros Hwf Hb Hk.
  destruct (well_formed_root_ok _ _ Hwf Hb) as [Hc Hok].
  destruct (root_segments _ _ Hc Hb) as (p & segs & stack & Ht & Hp & Hf & Har & Hl & Hn).
  pose proof (Children_segments s root p segs stack Ht Hp Hf Har) as Hch.
  set (children := map (spec_of_segment s) (rev segs)) in *.
  assert (Hflag : Forall (fun c => m_none_is_leaf c = m_none_is_leaf s) children).
  { apply Forall_forall. intros c Hc'. apply in_map_iff in Hc'.
    destruct Hc' as (seg & <- & _). reflexivity. }
  assert (Hns : Forall (fun c => m_namespace c = m_namespace s) children).
  { apply Forall_forall. intros c Hc'. apply in_map_iff in Hc'.
    destruct Hc' as (seg & <- & _). reflexivity. }
  assert (Hne : Forall (fun c => m_traversal c <> []) children).
  { apply Forall_forall. intros c Hc'. apply in_map_iff in Hc'.
    destruct Hc' as (seg & <- & Hin). apply in_rev in Hin.
    exact (seg_ok_nonempty _ _ Hf seg Hin). }
  assert (Hagree : namespaces_agree (map m_namespace children)).
  { intros a b Ha Hb' _ _. apply in_map_iff in Ha, Hb'.
    destruct Ha as (ca & <- & Hca). destruct Hb' as (cb & <- & Hcb).
    rewrite Forall_forall in Hns. rewrite (Hns _ Hca), (Hns _ Hcb). reflexivity. }
  pose proof (Tuple_ok children (m_none_is_leaf s) Hflag Hagree Hne) as Htup.
  eexists children, _. split; [exact Hch|].
  split; [unfold children; rewrite length_map, length_rev; lia|].
  split.
  { apply Forall_forall. intros c Hc'. rewrite Forall_forall in Hflag, Hns. auto. }
  split; [exact Htup|].
  apply spec_eq_true. cbn [m_traversal m_none_is_leaf m_namespace].
  split; [reflexivity|]. split.
  { destruct (tuple_namespace_same (m_namespace s) children Hns "" (or_introl eq_refl))
      as [-> | ->]; auto. }
  unfold children at 1. rewrite concat_segments, <- Hp, Ht.
  apply Forall2_app; [apply Forall2_refl_agree|].
  constructor; [|constructor].
  unfold node_ok in Hok. rewrite Hk in Hok.
  apply Bool.andb_true_iff in Hok. destruct Hok as [Hcust Hdata].
  apply ptr_eqb_eq in Hcust.
  unfold nodes_agree, same_counts, tuple_node.
  cbn [kind arity custom node_data num_leaves num_nodes].
  rewrite Hk, Hcust. destruct (node_data root); [discriminate|].
  repeat split.
  - unfold children. rewrite length_map, length_rev. lia.
  - rewrite Hl. unfold expected_leaves. rewrite Hk. cbn [is_leaf_kind].
    apply root_leaves_segments. assumption.
  - rewrite Hn. unfold expected_nodes, children.
    rewrite concat_segments, (size_segments _ _ Hf). lia.
Qed.

(** ** Well-formed traversals have consistent counts *)

Lemma replay_totals (t : list Node) :
  forall stack stack',
    replay t stack = Some stack' ->
    sum_Z (map fst stack') = sum_Z (map fst stack) + count_leaves t
    /\ sum_Z (map snd stack') = sum_Z (map snd stack) + size t.
Proof.
  induction t as [|n t IH]; intros stack stack' Hr; simpl in Hr.
  - inversion Hr. unfold size. simpl. lia.
  - destruct (counts_ok n stack) eqn:Hc; [|discriminate].
    destruct (IH _ _ Hr) as [Hl Hn]. rewrite Hl, Hn. clear IH Hr Hl Hn.
    unfold counts_ok in Hc. rewrite !Bool.andb_true_iff, !Z.eqb_eq in Hc.
    destruct Hc as [[[_ Hleaf] Hl] Hn].
    unfold push_node. cbn [map fst snd sum_Z count_leaves]. rewrite Hl, Hn.
    change (n :: t) with ([n] ++ t). rewrite size_app. change (size [n]) with 1.
    pose proof (sum_Z_firstn_skipn (Z.to_nat (arity n)) (map fst stack)) as Ef.
    pose proof (sum_Z_firstn_skipn (Z.to_nat (arity n)) (map snd stack)) as Es.
    rewrite firstn_map, skipn_map in Ef, Es.
    unfold expected_leaves, expected_nodes.
    destruct (is_leaf_kind (kind n)) eqn:Hk.
    + cbn [implb] in Hleaf. apply Z.eqb_eq in Hleaf. rewrite Hleaf in *.
      cbn [Z.to_nat firstn skipn map sum_Z] in *. lia.
    + lia.
Qed.

Lemma replay_leaves (t : list Node) :
  forall stack stack',
    replay t stack = Some stack' ->
    Forall (fun n => kind n = Leaf ->
                     num_leaves n = 1 /\ num_nodes n = 1 /\ arity n = 0) t.
Proof.
  induction t as [|n t IH]; intros stack stack' Hr; simpl in Hr; constructor.
  - destruct (counts_ok n stack) eqn:Hc; [|discriminate]. intros Hk.
    unfold counts_ok, expected_leaves, expected_nodes in Hc.
    rewrite Hk in Hc. cbn [is_leaf_kind implb] in Hc.
    rewrite !Bool.andb_true_iff, !Z.eqb_eq in Hc.
    destruct Hc as [[[_ Har] Hl] Hn]. rewrite Har in Hn. simpl in Hn. auto.
  - destruct (counts_ok n stack); [|discriminate]. eapply IH; eassumption.
Qed.

(** Structural well-formedness gives invariants 1, 3 and 4. *)
Lemma counts_well_formed_consistent (s : PyTreeSpec) :
  counts_well_formed (m_traversal s) = true -> counts_consistent s.
Proof.
  intros Hwf. destruct (counts_well_formed_replay _ Hwf) as [e Hr]. split.
  - destruct (replay_totals _ _ _ Hr) as [Hl Hn]. simpl in Hl, Hn.
    assert (Hne : m_traversal s <> []).
    { intros E. rewrite E in Hr. discriminate. }
    destruct (exists_last Hne) as (t' & x & Et). rewrite Et in *.
    exists x. split; [rewrite Et; apply back_snoc|]. rewrite Et.
    rewrite replay_app in Hr. destruct (replay t' []) as [st|]; [|discriminate].
    simpl in Hr. destruct (counts_ok x st); [|discriminate].
    unfold push_node in Hr. injection Hr as He _. subst e. simpl in Hl, Hn. lia.
  - eapply replay_leaves; eassumption.
Qed.

(** ** The range of the counts *)

Lemma sum_entries_bounded (stack : list (Z * Z)) :
  Forall entry_bounded stack ->
  0 <= sum_Z (map fst stack) <= sum_Z (map snd stack).
Proof.
  induction 1 as [|e stack He _ IH]; cbn [map sum_Z]; [lia|].
  unfold entry_bounded in He. lia.
Qed.

Lemma Forall_firstn_skipn (P : Z * Z -> Prop) (k : nat) (l : list (Z * Z)) :
  Forall P l -> Forall P (firstn k l) /\ Forall P (skipn k l).
Proof.
  intros Hl. rewrite <- (firstn_skipn k l) in Hl. apply Forall_app in Hl. exact Hl.
Qed.

(** A node that fits a stack of bounded entries counts no more leaves than
    nodes, and leaves a stack of bounded entries. *)
Lemma counts_ok_bounded (n : Node) (stack : list (Z * Z)) :
  counts_ok n stack = true ->
  Forall entry_bounded stack ->
  Forall entry_bounded (push_node n stack).
Proof.
  unfold counts_ok, push_node, expected_leaves, expected_nodes. intros Hc Hs.
  rewrite !Bool.andb_true_iff, !Z.eqb_eq in Hc. destruct Hc as [[_ Hl] Hn].
  destruct (Forall_firstn_skipn entry_bounded (Z.to_nat (arity n)) stack Hs) as [Hf Hk].
  pose proof (sum_entries_bounded _ Hf) as Hb.
  constructor; [|exact Hk]. unfold entry_bounded. cbn [fst snd].
  rewrite Hl, Hn. destruct (is_leaf_kind (kind n)); lia.
Qed.

(** Every node of a replayed traversal counts at most the leaves, and at
    most the internal nodes, that the stack holds in the end. *)
Lemma replay_node_bounds (t : list Node) :
  forall stack stack',
    replay t stack = Some stack' ->
    Forall entry_bounded stack ->
    Forall entry_bounded stack'
    /\ Forall (fun n => 0 <= num_leaves n <= sum_Z (map fst stack')
                        /\ 0 <= num_nodes n - num_leaves n
                             <= sum_Z (map snd stack') - sum_Z (map fst stack')) t.
Proof.
  induction t as [|n t IH]; intros stack stack' Hr Hs; cbn [replay] in Hr.
  - inversion Hr; subst. split; [exact Hs | constructor].
  - destruct (counts_ok n stack) eqn:Hc; [|discriminate].
    pose proof (counts_ok_bounded n stack Hc Hs) as Hs1.
    destruct (IH _ _ Hr Hs1) as [Hs' Ht]. split; [exact Hs'|].
    constructor; [|exact Ht].
    destruct (replay_totals t _ _ Hr) as [El En].
    pose proof (count_leaves_bounds t) as Hcl.
    unfold push_node in Hs1, El, En. cbn [map fst snd sum_Z] in El, En.
    inversion Hs1 as [|e rest He Hrest]; subst.
    pose proof (sum_entries_bounded _ Hrest) as Hb.
    unfold entry_bounded in He. cbn [fst snd] in He. lia.
Qed.

(** In a well-formed traversal every node counts at most the leaves and at
    most the internal nodes of the whole traversal. *)
Lemma well_formed_node_bounds (t : list Node) :
  counts_well_formed t = true ->
  Forall (fun n => 0 <= num_leaves n <= count_leaves t
                   /\ 0 <= num_nodes n - num_leaves n <= size t - count_leaves t) t.
Proof.
  intros Hwf. destruct (counts_well_formed_replay t Hwf) as [e Hr].
  destruct (replay_node_bounds t [] [e] Hr (Forall_nil _)) as [_ Ht].
  destruct (replay_totals t _ _ Hr) as [El En].
  cbn [map sum_Z] in El, En, Ht.
  eapply Forall_impl; [|exact Ht]. cbv beta. intros n Hn. lia.
Qed.

(** C1. For specs with the same [none_is_leaf] and compatible namespaces,
    [outer] a well-formed traversal and [inner] with consistent counts,
    [Compose] returns a spec made of one piece per node of [outer]: a copy
    of [inner]'s traversal for a leaf, and for an internal node a copy whose
    [num_leaves] is the old one times [inner]'s root [num_leaves] and whose
    [num_nodes] is (old [num_nodes] - old [num_leaves]) + old [num_leaves]
    times [inner]'s root [num_nodes]; the root of the result has
    [num_leaves = outer.num_leaves * inner.num_leaves] and
    [num_nodes = (outer.num_nodes - outer.num_leaves)
    + outer.num_leaves * inner.num_nodes].  Every product, difference and
    sum that the loop computes lies between 0 and the number of nodes of the
    result, so none leaves the range of [ssize_t]. *)
Theorem Compose_counts (outer inner : PyTreeSpec) :
  m_none_is_leaf outer = m_none_is_leaf inner ->
  namespace_mismatch (m_namespace outer) (m_namespace inner) = false ->
  counts_well_formed (m_traversal outer) = true ->
  counts_consistent inner ->
  exists r root_o root_i root_r pieces,
    Compose outer inner = OK r
    /\ back (m_traversal outer) = OK root_o
    /\ back (m_traversal inner) = OK root_i
    /\ back (m_traversal r) = OK root_r
    /\ m_traversal r = List.concat pieces
    /\ Forall2 (composed_piece inner (num_leaves root_i) (num_nodes root_i))
               (m_traversal outer) pieces
    /\ num_leaves root_r = num_leaves root_o * num_leaves root_i
    /\ num_nodes root_r =
         (spec_num_nodes outer - num_leaves root_o)
         + num_leaves root_o * spec_num_nodes inner
    /\ Forall (compose_arithmetic_bounded (spec_num_nodes r)
                 (num_leaves root_i) (num_nodes root_i))
              (m_traversal outer).
Proof.
  intros Hflag Hns Hwf Hi.
  pose proof (counts_well_formed_consistent outer Hwf) as Ho.
  destruct (counts_consistent_root _ Ho) as (root_o & Hbo & _ & Hno & Hleaf).
  destruct (counts_consistent_root _ Hi) as (root_i & Hbi & Hli & Hni & _).
  pose proof (Compose_succeeds outer inner root_o root_i Hflag Hns Hbo Hbi Hno Hni Hleaf) as Hc.
  destruct (Compose_root_checked _ _ _ Hc) as (lo & li & root_r & Hlo & Hli' & _ & Hbr & Hl & Hn).
  unfold spec_num_leaves in Hlo, Hli'. rewrite Hbo in Hlo. rewrite Hbi in Hli'.
  simpl in Hlo, Hli'. inversion Hlo; inversion Hli'; subst lo li.
  destruct (flat_map_pieces inner (num_leaves root_i) (num_nodes root_i) (m_traversal outer))
    as (pieces & Hp & Hf).
  eexists _, root_o, root_i, root_r, pieces.
  split; [exact Hc|].
  split; [exact Hbo|]. split; [exact Hbi|].
  split; [exact Hbr|].
  split; [cbn [m_traversal]; rewrite <- Hni; exact Hp|].
  split; [exact Hf|]. split; [exact Hl|]. split; [exact Hn|].
  unfold spec_num_nodes. cbn [m_traversal].
  destruct (compose_node_counts (m_traversal inner) (num_leaves root_i)
              (size (m_traversal inner)) (m_traversal outer)) as [_ Hsize].
  rewrite Hsize, Hni, Hli.
  pose proof (count_leaves_bounds (m_traversal inner)) as Hbi'.
  pose proof (count_leaves_bounds (m_traversal outer)) as Hbo'.
  eapply Forall_impl; [|exact (well_formed_node_bounds _ Hwf)]. cbv beta.
  intros n [Hnl Hnn]. unfold compose_arithmetic_bounded.
  set (a := num_leaves n) in *. set (b := num_nodes n - num_leaves n) in *.
  set (L := count_leaves (m_traversal outer)) in *.
  set (M := size (m_traversal outer) - L) in *.
  set (li := count_leaves (m_traversal inner)) in *.
  set (ni := size (m_traversal inner)) in *.
  assert (H1 : 0 <= a * li) by (apply Z.mul_nonneg_nonneg; lia).
  assert (H2 : a * li <= a * ni) by (apply Z.mul_le_mono_nonneg_l; lia).
  assert (H3 : a * ni <= L * ni) by (apply Z.mul_le_mono_nonneg_r; lia).
  lia.
Qed.

(** The running sum of the second loop of [Tuple] never leaves the range
    between 0 and the number of nodes collected. *)
Lemma tuple_sum_bounded (treespecs : list PyTreeSpec) (k : nat) :
  Forall count_invariant treespecs ->
  0 <= sum_Z (map root_leaves (firstn k treespecs))
    <= size (List.concat (map m_traversal treespecs)).
Proof.
  intros Hci.
  assert (Hk : Forall count_invariant (firstn k treespecs)).
  { rewrite <- (firstn_skipn k treespecs) in Hci. apply Forall_app in Hci. apply Hci. }
  rewrite <- (count_leaves_concat _ Hk).
  pose proof (count_leaves_bounds (List.concat (map m_traversal (firstn k treespecs)))) as Hb.
  rewrite <- (firstn_skipn k treespecs) at 3.
  rewrite map_app, concat_app, size_app.
  assert (0 <= size (List.concat (map m_traversal (skipn k treespecs))))
    by (unfold size; lia).
  lia.
Qed.

(** C7. For children that all carry the given [none_is_leaf], whose
    non-empty namespaces agree and whose roots count the leaves and the
    nodes of their traversals, the tuple constructor returns the
    concatenation of the children's traversals followed by one new root of
    kind [Tuple], with [arity] the number of children, [num_leaves] the sum
    of the children's root [num_leaves] and [num_nodes] one plus the sum of
    the children's traversal lengths.  The running sum of the leaves stays
    between 0 and the number of nodes collected, so it never leaves the
    range of [ssize_t]. *)
Theorem Tuple_traversal (treespecs : list PyTreeSpec) (none_is_leaf : bool) :
  Forall (fun t => m_none_is_leaf t = none_is_leaf) treespecs ->
  namespaces_agree (map m_namespace treespecs) ->
  Forall count_invariant treespecs ->
  exists r root,
    PyTreeSpec_Tuple treespecs none_is_leaf = OK r
    /\ m_traversal r = List.concat (map m_traversal treespecs) ++ [root]
    /\ kind root = Tuple
    /\ arity root = Z.of_nat (List.length treespecs)
    /\ num_leaves root = sum_Z (map root_leaves treespecs)
    /\ num_nodes root = 1 + sum_Z (map (fun t => size (m_traversal t)) treespecs)
    /\ node_data root = Datatypes.None /\ node_entries root = Datatypes.None
    /\ custom root = Datatypes.None
    /\ m_none_is_leaf r = none_is_leaf
    /\ m_namespace r = tuple_namespace "" treespecs
    /\ (forall k, 0 <= sum_Z (map root_leaves (firstn k treespecs)) < spec_num_nodes r).
Proof.
  intros Hflag Hns Hci.
  assert (Hne : Forall (fun t => m_traversal t <> []) treespecs).
  { eapply Forall_impl; [|exact Hci]. cbv beta. intros t (root & Hb & _) E.
    rewrite E in Hb. discriminate. }
  eexists _, _. split; [apply Tuple_ok; assumption|].
  cbn [m_traversal m_none_is_leaf m_namespace tuple_node
       kind arity num_leaves num_nodes node_data node_entries custom].
  rewrite <- size_concat.
  do 10 (split; [try reflexivity; try apply Z.add_comm|]).
  intros k. unfold spec_num_nodes. cbn [m_traversal]. rewrite size_app.
  pose proof (tuple_sum_bounded treespecs k Hci) as Hb.
  change (size [tuple_node (Z.of_nat (List.length treespecs))
                  (sum_Z (map root_leaves treespecs))
                  (size (List.concat (map m_traversal treespecs)) + 1)]) with 1.
  lia.
Qed.

(** ** The theorems at concrete specs *)

(** The spec of a pair has consistent counts, in any namespace. *)
Lemma pair_spec_consistent (ns : string) : counts_consistent (pair_spec ns).
Proof. apply counts_well_formed_consistent. reflexivity. Defined.

(** C1 at a pair composed with a pair of namespace ["ns"]. *)
Lemma Compose_counts_witness :
  m_none_is_leaf (pair_spec "") = m_none_is_leaf (pair_spec "ns")
  /\ namespace_mismatch (m_namespace (pair_spec "")) (m_namespace (pair_spec "ns")) = false
  /\ counts_well_formed (m_traversal (pair_spec "")) = true
  /\ exists r root_o root_i root_r pieces,
       Compose (pair_spec "") (pair_spec "ns") = OK r
       /\ back (m_traversal (pair_spec "")) = OK root_o
       /\ back (m_traversal (pair_spec "ns")) = OK root_i
       /\ back (m_traversal r) = OK root_r
       /\ m_traversal r = List.concat pieces
       /\ Forall2 (composed_piece (pair_spec "ns") (num_leaves root_i) (num_nodes root_i))
                  (m_traversal (pair_spec "")) pieces
       /\ num_leaves root_r = num_leaves root_o * num_leaves root_i
       /\ num_nodes root_r =
            (spec_num_nodes (pair_spec "") - num_leaves root_o)
            + num_leaves root_o * spec_num_nodes (pair_spec "ns")
       /\ Forall (compose_arithmetic_bounded (spec_num_nodes r)
                    (num_leaves root_i) (num_nodes root_i))
                 (m_traversal (pair_spec "")).
Proof.
  split; [reflexivity|]. split; [reflexivity|]. split; [reflexivity|].
  apply (Compose_counts (pair_spec "") (pair_spec "ns"));
    [reflexivity | reflexivity | reflexivity | apply pair_spec_consistent].
Defined.

(** C8 at two pairs of namespaces ["a"] and ["b"]. *)
Lemma Compose_failure_iff_witness :
  counts_consistent (pair_spec "a") /\ counts_consistent (pair_spec "b")
  /\ (is_ok (Compose (pair_spec "a") (pair_spec "b")) = false <->
      (m_none_is_leaf (pair_spec "a") <> m_none_is_leaf (pair_spec "b")
       \/ (m_namespace (pair_spec "a") <> "" /\ m_namespace (pair_spec "b") <> ""
           /\ m_namespace (pair_spec "a") <> m_namespace (pair_spec "b")))).
Proof.
  split; [apply pair_spec_consistent|]. split; [apply pair_spec_consistent|].
  apply (proj1 (proj2 (Compose_failure_iff (pair_spec "a") (pair_spec "b"))));
    apply pair_spec_consistent.
Defined.

(** C7 at the children [*], [(*, *)] and [None]. *)
Lemma Tuple_traversal_witness :
  let treespecs := [PyTreeSpec_Leaf false; pair_spec "ns"; PyTreeSpec_None false] in
  Forall (fun t => m_none_is_leaf t = false) treespecs
  /\ namespaces_agree (map m_namespace treespecs)
  /\ Forall count_invariant treespecs
  /\ exists r root,
       PyTreeSpec_Tuple treespecs false = OK r
       /\ m_traversal r = List.concat (map m_traversal treespecs) ++ [root]
       /\ kind root = Tuple
       /\ arity root = Z.of_nat (List.length treespecs)
       /\ num_leaves root = sum_Z (map root_leaves treespecs)
       /\ num_nodes root = 1 + sum_Z (map (fun t => size (m_traversal t)) treespecs)
       /\ node_data root = Datatypes.None /\ node_entries root = Datatypes.None
       /\ custom root = Datatypes.None
       /\ m_none_is_leaf r = false
       /\ m_namespace r = tuple_namespace "" treespecs
       /\ (forall k, 0 <= sum_Z (map root_leaves (firstn k treespecs)) < spec_num_nodes r).
Proof.
  intros treespecs.
  assert (Hflag : Forall (fun t => m_none_is_leaf t = false) treespecs)
    by (repeat constructor).
  assert (Hns : namespaces_agree (map m_namespace treespecs)).
  { intros a b Ha Hb Hna Hnb. simpl in Ha, Hb.
    destruct Ha as [<-|[<-|[<-|[]]]]; destruct Hb as [<-|[<-|[<-|[]]]];
      try reflexivity; contradiction. }
  assert (Hci : Forall count_invariant treespecs).
  { constructor; [eexists; repeat split; reflexivity|].
    constructor; [exact (proj1 (pair_spec_consistent "ns"))|].
    constructor; [eexists; repeat split; reflexivity | constructor]. }
  split; [exact Hflag|]. split; [exact Hns|]. split; [exact Hci|].
  exact (Tuple_traversal treespecs false Hflag Hns Hci).
Defined.

(** C4 (amended) at the tuple of a leaf and a [None] node. *)
Lemma construction_paths_count_invariant_witness :
  Forall count_invariant [PyTreeSpec_Leaf false; PyTreeSpec_None false]
  /\ PyTreeSpec_Tuple [PyTreeSpec_Leaf false; PyTreeSpec_None false] false
     = OK (mkSpec [leaf_node;
                   mkNode None 0 Datatypes.None Datatypes.None Datatypes.None 0 1;
                   tuple_node 2 1 3] false "")
  /\ count_invariant
       (mkSpec [leaf_node;
                mkNode None 0 Datatypes.None Datatypes.None Datatypes.None 0 1;
                tuple_node 2 1 3] false "").
Proof.
  assert (Hc : Forall count_invariant [PyTreeSpec_Leaf false; PyTreeSpec_None false]).
  { constructor; [exact (proj1 construction_paths_count_invariant false)|].
    constructor; [exact (proj1 (proj2 construction_paths_count_invariant) false)|].
    constructor. }
  split; [exact Hc|]. split; [reflexivity|].
  exact (proj1 (proj2 (proj2 construction_paths_count_invariant)) _ false _ Hc eq_refl).
Defined.

(** C2 (amended) at a [Box] with aux data and path entries. *)
Lemma pickle_roundtrip_witness :
  picklable box_registry (box_spec_with_entries (PyInt 7) (PyTuple [PyStr "item"])) = true
  /\ exists s',
       FromPicklable box_registry
         (ToPicklable box_registry
            (box_spec_with_entries (PyInt 7) (PyTuple [PyStr "item"]))) = OK s'
       /\ spec_eq s' (box_spec_with_entries (PyInt 7) (PyTuple [PyStr "item"])) = OK true
       /\ s' = box_spec_with_entries (PyInt 7) (PyTuple [PyStr "item"]).
Proof.
  split; [reflexivity|].
  apply (pickle_roundtrip box_registry). reflexivity.
Defined.

(** C3 (amended) at two deque specs whose [maxlen] are [1] and [True]:
    equal host values, equal specs, equal hashes. *)
Lemma eq_hash_consistent_witness :
  spec_eq (deque_spec (PyInt 1)) (deque_spec (PyBool true)) = OK true
  /\ m_namespace (deque_spec (PyInt 1)) = m_namespace (deque_spec (PyBool true))
  /\ @PyTreeSpec_hash MixingHashState (deque_spec (PyInt 1))
     = @PyTreeSpec_hash MixingHashState (deque_spec (PyBool true)).
Proof.
  split; [reflexivity|]. split; [reflexivity|].
  apply (@eq_hash_consistent MixingHashState); reflexivity.
Defined.

(** C5 at a pair in the default namespace and a pair in ["ns"]. *)
Lemma spec_eq_iff_witness :
  counts_well_formed (m_traversal (pair_spec "")) = true
  /\ counts_well_formed (m_traversal (pair_spec "ns")) = true
  /\ (spec_eq (pair_spec "") (pair_spec "ns") = OK true <->
      List.length (m_traversal (pair_spec "")) = List.length (m_traversal (pair_spec "ns"))
      /\ m_none_is_leaf (pair_spec "") = m_none_is_leaf (pair_spec "ns")
      /\ (m_namespace (pair_spec "") = m_namespace (pair_spec "ns")
          \/ m_namespace (pair_spec "") = "" \/ m_namespace (pair_spec "ns") = "")
      /\ (forall i x y,
            nth_error (m_traversal (pair_spec "")) i = Some x ->
            nth_error (m_traversal (pair_spec "ns")) i = Some y ->
            nodes_agree x y)).
Proof.
  split; [reflexivity|]. split; [reflexivity|].
  apply (proj2 (proj2 (spec_eq_iff (pair_spec "") (pair_spec "ns")))); reflexivity.
Defined.

(** C6 at the spec of a pair. *)
Lemma Children_reassembly_witness :
  well_formed (pair_spec "ns") = true
  /\ back (m_traversal (pair_spec "ns")) = OK (tuple_node 2 2 3)
  /\ kind (tuple_node 2 2 3) = Tuple
  /\ exists children r,
       Children (pair_spec "ns") = OK children
       /\ Z.of_nat (List.length children) = arity (tuple_node 2 2 3)
       /\ Forall (fun c => m_none_is_leaf c = m_none_is_leaf (pair_spec "ns")
                           /\ m_namespace c = m_namespace (pair_spec "ns")) children
       /\ PyTreeSpec_Tuple children (m_none_is_leaf (pair_spec "ns")) = OK r
       /\ spec_eq r (pair_spec "ns") = OK true.
Proof.
  split; [reflexivity|]. split; [reflexivity|]. split; [reflexivity|].
  apply (Children_reassembly (pair_spec "ns") (tuple_node 2 2 3)); reflexivity.
Defined.

(** C9 at two [Box] specs with different aux data: unequal, same hash. *)
Lemma custom_node_data_not_hashed_witness :
  Forall2 same_hashed_fields (m_traversal (box_spec (PyInt 1)))
                             (m_traversal (box_spec (PyList [PyInt 2])))
  /\ spec_eq (box_spec (PyInt 1)) (box_spec (PyList [PyInt 2])) = OK false
  /\ @PyTreeSpec_hash MixingHashState (box_spec (PyInt 1))
     = @PyTreeSpec_hash MixingHashState (box_spec (PyList [PyInt 2])).
Proof.
  assert (Hf : Forall2 same_hashed_fields (m_traversal (box_spec (PyInt 1)))
                 (m_traversal (box_spec (PyList [PyInt 2])))).
  { constructor; [|constructor; [|constructor]]; unfold same_hashed_fields; simpl;
      repeat split; try reflexivity; intros Hk; contradiction Hk; reflexivity. }
  split; [exact Hf|]. split; [reflexivity|].
  exact (proj2 (proj2 (proj2 (@custom_node_data_not_hashed MixingHashState)))
           _ _ Hf eq_refl eq_refl).
Defined.

(** C10 at a [Box] spec with and without path entries. *)
Lemma node_entries_ignored_witness :
  Forall2 same_but_entries
    (m_traversal (box_spec (PyInt 7)))
    (m_traversal (box_spec_with_entries (PyInt 7) (PyTuple [PyStr "item"])))
  /\ spec_eq (box_spec (PyInt 7))
             (box_spec_with_entries (PyInt 7) (PyTuple [PyStr "item"])) = OK true
  /\ @PyTreeSpec_hash MixingHashState (box_spec (PyInt 7))
     = @PyTreeSpec_hash MixingHashState
         (box_spec_with_entries (PyInt 7) (PyTuple [PyStr "item"])).
Proof.
  assert (Hf : Forall2 same_but_entries
                 (m_traversal (box_spec (PyInt 7)))
                 (m_traversal (box_spec_with_entries (PyInt 7) (PyTuple [PyStr "item"])))).
  { repeat constructor. }
  split; [exact Hf|].
  exact (@node_entries_ignored MixingHashState _ _ Hf eq_refl eq_refl).
Defined.

(** * Further properties of the code *)

(** ** Equality is symmetric, and not transitive across namespaces *)

Lemma all2_sym (xs : list PyObject) :
  Forall (fun x => forall y, py_eq x y = py_eq y x) xs ->
  forall ys, all2 py_eq xs ys = all2 py_eq ys xs.
Proof.
  induction 1 as [|x xs Hx _ IH]; intros [|y ys]; simpl; try reflexivity.
  rewrite Hx, IH. reflexivity.
Qed.

(** Host equality is symmetric on the modelled values. *)
Lemma py_eq_sym (a : PyObject) : forall b, py_eq a b = py_eq b a.
Proof.
  induction a as [|x|x|x|xs IH|xs IH|x] using PyObject_nested_ind;
    intros [|y|y|y|ys|ys|y]; simpl; try reflexivity.
  - destruct x, y; reflexivity.
  - apply Z.eqb_sym.
  - apply Z.eqb_sym.
  - apply Z.eqb_sym.
  - apply String.eqb_sym.
  - apply all2_sym. assumption.
  - apply all2_sym. assumption.
  - apply String.eqb_sym.
Qed.

Lemma kind_eqb_sym (a b : PyTreeKind) : kind_eqb a b = kind_eqb b a.
Proof. unfold kind_eqb. apply Z.eqb_sym. Qed.

Lemma ptr_eqb_sym (a b : option RegistrationPtr) : ptr_eqb a b = ptr_eqb b a.
Proof. destruct a, b; simpl; try reflexivity. apply Pos.eqb_sym. Qed.

Lemma bool_eqb_sym (a b : bool) : Bool.eqb a b = Bool.eqb b a.
Proof. destruct a, b; reflexivity. Qed.

Lemma data_differs_sym (a b : option PyObject) : data_differs a b = data_differs b a.
Proof.
  destruct a, b; simpl; try reflexivity. unfold not_equal. rewrite py_eq_sym. reflexivity.
Qed.

Lemma namespace_mismatch_sym (a b : string) :
  namespace_mismatch a b = namespace_mismatch b a.
Proof.
  unfold namespace_mismatch. rewrite (String.eqb_sym a b).
  destruct (empty a), (empty b); reflexivity.
Qed.

Lemma nodes_equal_sym (a : list Node) :
  forall b, List.length a = List.length b -> nodes_equal a b = nodes_equal b a.
Proof.
  induction a as [|x a IH]; intros [|y b] Hlen; try discriminate; [reflexivity|].
  cbn [nodes_equal].
  rewrite (kind_eqb_sym (kind y)), (Z.eqb_sym (arity y)),
    (bool_eqb_sym (is_null (node_data y))), (ptr_eqb_sym (custom y)),
    (data_differs_sym (node_data y)), (Z.eqb_sym (num_leaves y)),
    (Z.eqb_sym (num_nodes y)).
  rewrite (IH b) by (simpl in Hlen; congruence). reflexivity.
Qed.

Lemma spec_eq_sym (a b : PyTreeSpec) : spec_eq a b = spec_eq b a.
Proof.
  unfold spec_eq.
  rewrite (Z.eqb_sym (size (m_traversal b))), (bool_eqb_sym (m_none_is_leaf b)),
    (namespace_mismatch_sym (m_namespace b)).
  destruct (size (m_traversal a) =? size (m_traversal b)) eqn:Hs; [|reflexivity].
  apply size_eqb_length in Hs. rewrite (nodes_equal_sym _ _ Hs). reflexivity.
Qed.

(** X1.  [operator==] and [operator!=] are symmetric, outcome for outcome:
    [a == b] and [b == a] return the same boolean or raise the same error,
    and so do [a != b] and [b != a]; a spec is equal to itself, whatever its
    counts. *)
Theorem equality_symmetric (a b : PyTreeSpec) :
  spec_eq a b = spec_eq b a
  /\ spec_ne a b = spec_ne b a
  /\ spec_eq a a = OK true
  /\ spec_ne a a = OK false.
Proof.
  unfold spec_ne. rewrite (spec_eq_sym b a), spec_eq_refl. repeat split; reflexivity.
Qed.

(** X2.  [operator==] is not transitive: whatever the traversal and the
    flag, a spec in a non-empty namespace is equal to the same spec in the
    default namespace, which is equal to the same spec in any other
    non-empty namespace, while the two namespaced specs are not equal. *)
Theorem equality_not_transitive (t : list Node) (none_is_leaf : bool) (n1 n2 : string) :
  n1 <> "" -> n2 <> "" -> n1 <> n2 ->
  spec_eq (mkSpec t none_is_leaf n1) (mkSpec t none_is_leaf "") = OK true
  /\ spec_eq (mkSpec t none_is_leaf "") (mkSpec t none_is_leaf n2) = OK true
  /\ spec_eq (mkSpec t none_is_leaf n1) (mkSpec t none_is_leaf n2) = OK false.
Proof.
  intros H1 H2 H12. unfold spec_eq. cbn [m_traversal m_none_is_leaf m_namespace].
  rewrite Z.eqb_refl, Bool.eqb_reflx. cbn [negb orb].
  rewrite (proj2 (namespace_mismatch_false n1 "")) by auto.
  rewrite (proj2 (namespace_mismatch_false "" n2)) by auto.
  rewrite (proj2 (namespace_mismatch_true n1 n2)) by auto.
  rewrite nodes_equal_refl. repeat split; reflexivity.
Qed.

(** X2 at the spec of a pair and the namespaces ["a"] and ["b"]. *)
Lemma equality_not_transitive_witness :
  spec_eq (pair_spec "a") (pair_spec "") = OK true
  /\ spec_eq (pair_spec "") (pair_spec "b") = OK true
  /\ spec_eq (pair_spec "a") (pair_spec "b") = OK false.
Proof.
  apply (equality_not_transitive (m_traversal (pair_spec "")) false "a" "b");
    discriminate.
Defined.

(** ** The failures of the tuple constructor *)

Lemma tuple_check_cases (none_is_leaf : bool) (treespecs : list PyTreeSpec) :
  forall acc,
    tuple_check none_is_leaf acc treespecs = OK (tuple_namespace acc treespecs)
    \/ tuple_check none_is_leaf acc treespecs = Raise InvalidArgument.
Proof.
  induction treespecs as [|t rest IH]; intros acc; simpl; [auto|].
  destruct (negb (Bool.eqb (m_none_is_leaf t) none_is_leaf)); [auto|].
  destruct (empty (m_namespace t)) eqn:Et; simpl.
  - replace (if empty acc then m_namespace t else acc) with acc; [apply IH|].
    destruct (empty acc) eqn:Ea; [|reflexivity].
    apply empty_true in Et, Ea. congruence.
  - destruct (empty acc) eqn:Ea; [apply IH|].
    destruct (String.eqb acc (m_namespace t)); simpl; [apply IH | auto].
Qed.

Lemma tuple_check_inv (none_is_leaf : bool) (treespecs : list PyTreeSpec) :
  forall acc ns,
    tuple_check none_is_leaf acc treespecs = OK ns ->
    Forall (fun t => m_none_is_leaf t = none_is_leaf) treespecs
    /\ namespaces_agree (acc :: map m_namespace treespecs).
Proof.
  induction treespecs as [|t rest IH]; intros acc ns Hc; simpl in Hc.
  - split; [constructor|]. intros a b [<-|[]] [<-|[]] _ _. reflexivity.
  - destruct (Bool.eqb (m_none_is_leaf t) none_is_leaf) eqn:Hf; [|discriminate].
    apply Bool.eqb_prop in Hf. simpl in Hc.
    assert (Hstep : forall acc',
      tuple_check none_is_leaf acc' rest = OK ns ->
      (acc = acc' \/ (acc = "" /\ acc' = m_namespace t)) ->
      (m_namespace t = "" \/ m_namespace t = acc') ->
      Forall (fun t => m_none_is_leaf t = none_is_leaf) (t :: rest)
      /\ namespaces_agree (acc :: map m_namespace (t :: rest))).
    { intros acc' Hr Hacc Ht. destruct (IH _ _ Hr) as [Hfl Hag].
      split; [constructor; assumption|].
      intros a b Ha Hb Hna Hnb.
      assert (Hin : forall c, In c (acc :: map m_namespace (t :: rest)) -> c <> "" ->
                              In c (acc' :: map m_namespace rest)).
      { intros c [<-|[<-|Hc']] Hnc.
        - destruct Hacc as [->|[-> _]]; [left; reflexivity | contradiction].
        - destruct Ht as [E|E]; [contradiction | left; symmetry; exact E].
        - right; assumption. }
      apply Hag; auto. }
    destruct (empty (m_namespace t)) eqn:Et; simpl in Hc.
    + apply empty_true in Et. apply (Hstep acc Hc); auto.
    + destruct (empty acc) eqn:Ea.
      * apply empty_true in Ea. apply (Hstep (m_namespace t) Hc); auto.
      * destruct (String.eqb acc (m_namespace t)) eqn:Es; [|discriminate].
        apply String.eqb_eq in Es. simpl in Hc. apply (Hstep acc Hc); auto.
Qed.

Lemma namespaces_agree_default (l : list string) :
  namespaces_agree ("" :: l) <-> namespaces_agree l.
Proof.
  split; intros Hag a b Ha Hb Hna Hnb.
  - apply Hag; simpl; auto.
  - destruct Ha as [<-|Ha]; [contradiction|]. destruct Hb as [<-|Hb]; [contradiction|].
    apply Hag; assumption.
Qed.

Lemma tuple_collect_cases (treespecs : list PyTreeSpec) :
  forall out leaves,
    (Forall (fun t => m_traversal t <> []) treespecs
     /\ is_ok (tuple_collect out leaves treespecs) = true)
    \/ (Exists (fun t => m_traversal t = []) treespecs
        /\ tuple_collect out leaves treespecs = Raise InternalError).
Proof.
  induction treespecs as [|t rest IH]; intros out leaves; simpl.
  - left. split; [constructor | reflexivity].
  - unfold spec_num_leaves, back.
    destruct (rev (m_traversal t)) as [|n r] eqn:Hr; simpl.
    + right. split; [|reflexivity]. left.
      rewrite <- (rev_involutive (m_traversal t)), Hr. reflexivity.
    + assert (Hne : m_traversal t <> []).
      { intros E. rewrite E in Hr. discriminate. }
      destruct (IH (out ++ m_traversal t) (leaves + num_leaves n)) as [[Hf Hok] | [He Hraise]].
      * left. split; [constructor; assumption | assumption].
      * right. split; [right; assumption | assumption].
Qed.

(** X3.  The tuple constructor raises [std::invalid_argument] exactly when
    some child has another [none_is_leaf] than the one asked for or two
    children have different non-empty namespaces; past these checks it
    fails only on a child with an empty traversal, with an internal error;
    otherwise it returns. *)
Theorem Tuple_failures (treespecs : list PyTreeSpec) (none_is_leaf : bool) :
  let accepted :=
    Forall (fun t => m_none_is_leaf t = none_is_leaf) treespecs
    /\ namespaces_agree (map m_namespace treespecs) in
  (PyTreeSpec_Tuple treespecs none_is_leaf = Raise InvalidArgument <-> ~ accepted)
  /\ (PyTreeSpec_Tuple treespecs none_is_leaf = Raise InternalError <->
      accepted /\ Exists (fun t => m_traversal t = []) treespecs)
  /\ (is_ok (PyTreeSpec_Tuple treespecs none_is_leaf) = true <->
      accepted /\ Forall (fun t => m_traversal t <> []) treespecs).
Proof.
  intros accepted. unfold PyTreeSpec_Tuple.
  destruct (tuple_check_cases none_is_leaf treespecs "") as [Hc | Hc].
  - pose proof (tuple_check_inv _ _ _ _ Hc) as [Hf Hag].
    apply (proj1 (namespaces_agree_default _)) in Hag.
    assert (Hacc : accepted) by (split; assumption).
    rewrite Hc. cbn [bind].
    destruct (tuple_collect_cases treespecs [] 0) as [[Hne Hok] | [He Hraise]].
    + destruct (tuple_collect [] 0 treespecs) as [[out leaves]|e]; [|discriminate].
      cbn [bind]. split; [|split].
      * split; [discriminate | intros Hn; contradiction].
      * split; [discriminate|]. intros [_ Hex].
        apply Exists_exists in Hex. destruct Hex as (t & Hin & Hempty).
        rewrite Forall_forall in Hne. exfalso. exact (Hne t Hin Hempty).
      * split; [auto | reflexivity].
    + rewrite Hraise. cbn [bind]. split; [|split].
      * split; [discriminate | intros Hn; contradiction].
      * split; [auto | reflexivity].
      * split; [discriminate|]. intros [_ Hne].
        apply Exists_exists in He. destruct He as (t & Hin & Hempty).
        rewrite Forall_forall in Hne. exfalso. exact (Hne t Hin Hempty).
  - rewrite Hc. cbn [bind].
    assert (Hnacc : ~ accepted).
    { intros [Hf Hag].
      rewrite tuple_check_ok in Hc; [discriminate | assumption |].
      apply namespaces_agree_default. assumption. }
    split; [|split].
    + split; [auto | reflexivity].
    + split; [discriminate | intros [Ha _]; contradiction].
    + split; [discriminate | intros [Ha _]; contradiction].
Qed.

(** ** Well-formedness is kept by the algebra *)

Lemma counts_ok_arity (n : Node) (stack : list (Z * Z)) :
  counts_ok n stack = true -> (Z.to_nat (arity n) <= List.length stack)%nat.
Proof.
  unfold counts_ok. rewrite !Bool.andb_true_iff. intros [[[[H0 Hle] _] _] _].
  apply Z.leb_le in H0, Hle. lia.
Qed.

Lemma counts_ok_frame (n : Node) (stack below : list (Z * Z)) :
  counts_ok n stack = true ->
  counts_ok n (stack ++ below) = true
  /\ push_node n (stack ++ below) = push_node n stack ++ below.
Proof.
  intros Hc. pose proof (counts_ok_arity _ _ Hc) as Hk.
  unfold counts_ok, push_node in *.
  rewrite firstn_app, skipn_app.
  replace (Z.to_nat (arity n) - List.length stack)%nat with O by lia.
  cbn [firstn skipn]. rewrite app_nil_r. split; [|reflexivity].
  rewrite !Bool.andb_true_iff in *. destruct Hc as [[[[H0 Hle] Hl] Hn] Hm].
  repeat split; auto. apply Z.leb_le. apply Z.leb_le in Hle.
  rewrite length_app. lia.
Qed.

(** The replay of a traversal does not look below the subtrees it builds. *)
Lemma replay_frame (t : list Node) :
  forall stack stack' below,
    replay t stack = Some stack' ->
    replay t (stack ++ below) = Some (stack' ++ below).
Proof.
  induction t as [|n t IH]; intros stack stack' below Hr; simpl in *.
  - inversion Hr. reflexivity.
  - destruct (counts_ok n stack) eqn:Hc; [|discriminate].
    destruct (counts_ok_frame n stack below Hc) as [-> ->]. apply IH. assumption.
Qed.

Lemma replay_forest (segs : list (list Node)) (stack : list (Z * Z)) :
  Forall2 seg_wf segs stack ->
  forall below, replay (List.concat (rev segs)) below = Some (stack ++ below).
Proof.
  induction 1 as [|seg e segs stack [_ Hseg] _ IH]; intros below; [reflexivity|].
  cbn [rev]. rewrite concat_app. cbn [List.concat]. rewrite app_nil_r.
  rewrite replay_app, IH.
  exact (replay_frame seg [] [e] (stack ++ below) Hseg).
Qed.

(** The replay cuts a traversal into subtrees that are well formed. *)
Lemma replay_segments_wf (p : list Node) :
  forall stack, replay p [] = Some stack ->
    exists segs, p = List.concat (rev segs) /\ Forall2 seg_wf segs stack.
Proof.
  induction p as [|n p IH] using rev_ind; intros stack Hr.
  - simpl in Hr. inversion Hr. exists []. split; [reflexivity | constructor].
  - rewrite replay_app in Hr.
    destruct (replay p []) as [stack'|] eqn:Hp; [|discriminate].
    destruct (IH stack' eq_refl) as (segs & Hcat & Hf).
    simpl in Hr. destruct (counts_ok n stack') eqn:Hn; [|discriminate].
    inversion Hr; subst stack; clear Hr.
    pose proof (counts_ok_arity _ _ Hn) as Hk.
    set (k := Z.to_nat (arity n)) in *.
    assert (Hfk : Forall2 seg_wf (firstn k segs) (firstn k stack'))
      by (apply Forall2_firstn; assumption).
    assert (Hok : Forall2 seg_ok (firstn k segs) (firstn k stack')).
    { eapply Forall2_impl; [|exact Hfk]. intros ? ? [? _]. assumption. }
    exists ((List.concat (rev (firstn k segs)) ++ [n]) :: skipn k segs).
    split.
    + simpl. rewrite concat_app. simpl. rewrite app_nil_r, app_assoc, <- concat_app.
      rewrite <- rev_app_distr, firstn_skipn, <- Hcat. reflexivity.
    + unfold push_node. fold k. constructor; [|apply Forall2_skipn; assumption].
      assert (Hcnt : counts_ok n (firstn k stack') = true).
      { unfold counts_ok in *. fold k in Hn |- *.
        rewrite firstn_firstn, Nat.min_id, length_firstn.
        rewrite !Bool.andb_true_iff in *. destruct Hn as [[[[H0 Hle] Hl] Hnl] Hnn].
        repeat split; auto. apply Z.leb_le. apply Z.leb_le in H0. lia. }
      split.
      * exists (List.concat (rev (firstn k segs))), n.
        split; [reflexivity|]. split; [reflexivity|]. simpl.
        rewrite size_app, (size_segments _ _ Hok).
        unfold counts_ok in Hn. fold k in Hn.
        rewrite !Bool.andb_true_iff, !Z.eqb_eq in Hn. destruct Hn as [_ Hnn].
        rewrite Hnn. unfold expected_nodes. change (size [n]) with 1. cbn [snd]. lia.
      * rewrite replay_app, (replay_forest _ _ Hfk []), app_nil_r.
        cbn [replay]. rewrite Hcnt. unfold push_node. fold k.
        rewrite skipn_firstn_comm, Nat.sub_diag. reflexivity.
Qed.

Lemma root_segments_wf (t : list Node) (root : Node) :
  counts_well_formed t = true ->
  back t = OK root ->
  exists p segs stack,
    t = p ++ [root] /\ p = List.concat (rev segs)
    /\ Forall2 seg_wf segs stack
    /\ arity root = Z.of_nat (List.length segs).
Proof.
  intros Hwf Hb. destruct (counts_well_formed_replay _ Hwf) as [e Hr].
  destruct (back_ok_inv _ _ Hb) as [p ->].
  rewrite replay_app in Hr. destruct (replay p []) as [stack|] eqn:Hp; [|discriminate].
  destruct (replay_segments_wf _ _ Hp) as (segs & Hcat & Hf).
  simpl in Hr. destruct (counts_ok root stack) eqn:Hc; [|discriminate].
  unfold push_node in Hr. injection Hr as _ Hskip.
  pose proof (counts_ok_arity _ _ Hc) as Hk.
  unfold counts_ok in Hc. rewrite !Bool.andb_true_iff in Hc.
  destruct Hc as [[[[Hge _] _] _] _]. apply Z.leb_le in Hge.
  pose proof (length_skipn (Z.to_nat (arity root)) stack) as Hs.
  rewrite Hskip in Hs. simpl in Hs.
  exists p, segs, stack. repeat split; auto.
  rewrite (Forall2_length Hf). lia.
Qed.

Lemma seg_wf_well_formed (s : PyTreeSpec) (segs : list (list Node))
    (stack : list (Z * Z)) (rest : list Node) :
  Forall2 seg_wf segs stack ->
  forallb (node_ok (m_none_is_leaf s)) (List.concat (rev segs) ++ rest) = true ->
  forall seg, In seg segs -> well_formed (spec_of_segment s seg) = true.
Proof.
  intros Hf Hok seg Hin. unfold well_formed, spec_of_segment.
  cbn [m_traversal m_none_is_leaf]. apply Bool.andb_true_iff. split.
  - assert (He : exists e, replay seg [] = Some [e]).
    { clear Hok. induction Hf as [|x e segs stack [_ Hx] _ IH]; [contradiction|].
      destruct Hin as [<-|Hin]; [eauto | auto]. }
    destruct He as [e He]. unfold counts_well_formed. rewrite He. reflexivity.
  - rewrite forallb_forall in Hok |- *. intros n Hn. apply Hok.
    apply in_or_app. left. apply in_concat. exists seg. split; [|assumption].
    apply in_rev. rewrite rev_involutive. assumption.
Qed.

(** X4.  For a well-formed spec of any root kind, [Children] returns as many
    specs as the root's [arity]; they are well formed, carry the flag and the
    namespace of the spec, and their traversals, put end to end and followed
    by the root, are the traversal of the spec. *)
Theorem Children_well_formed (s : PyTreeSpec) (root : Node) :
  well_formed s = true ->
  back (m_traversal s) = OK root ->
  exists children,
    Children s = OK children
    /\ Z.of_nat (List.length children) = arity root
    /\ List.concat (map m_traversal children) ++ [root] = m_traversal s
    /\ Forall (fun c => well_formed c = true
                        /\ m_none_is_leaf c = m_none_is_leaf s
                        /\ m_namespace c = m_namespace s) children.
Proof.
  intros Hwf Hb. unfold well_formed in Hwf. apply Bool.andb_true_iff in Hwf.
  destruct Hwf as [Hc Hok].
  destruct (root_segments_wf _ _ Hc Hb) as (p & segs & stack & Ht & Hp & Hf & Har).
  assert (Hso : Forall2 seg_ok segs stack).
  { eapply Forall2_impl; [|exact Hf]. intros ? ? [? _]. assumption. }
  exists (map (spec_of_segment s) (rev segs)).
  split; [exact (Children_segments s root p segs stack Ht Hp Hso Har)|].
  split; [rewrite length_map, length_rev; lia|].
  split; [rewrite concat_segments, <- Hp, Ht; reflexivity|].
  apply Forall_forall. intros c Hin. apply in_map_iff in Hin.
  destruct Hin as (seg & <- & Hin). apply in_rev in Hin.
  split; [|split; reflexivity].
  rewrite Ht, Hp in Hok. exact (seg_wf_well_formed s segs stack [root] Hf Hok seg Hin).
Qed.

Lemma sum_fst_scale (li ni : Z) (l : list (Z * Z)) :
  sum_Z (map fst (map (scale_counts li ni) l)) = sum_Z (map fst l) * li.
Proof.
  induction l as [|e l IH]; [reflexivity|].
  cbn [map sum_Z]. rewrite IH. unfold scale_counts. cbn [fst]. lia.
Qed.

Lemma sum_snd_scale (li ni : Z) (l : list (Z * Z)) :
  sum_Z (map snd (map (scale_counts li ni) l))
  = (sum_Z (map snd l) - sum_Z (map fst l)) + sum_Z (map fst l) * ni.
Proof.
  induction l as [|e l IH]; [reflexivity|].
  cbn [map sum_Z]. rewrite IH. unfold scale_counts. cbn [fst snd]. lia.
Qed.

Lemma counts_ok_scaled (li ni : Z) (n : Node) (stack : list (Z * Z)) :
  is_leaf_kind (kind n) = false ->
  counts_ok n stack = true ->
  let n' := mkNode (kind n) (arity n) (node_data n) (node_entries n) (custom n)
              (num_leaves n * li)
              ((num_nodes n - num_leaves n) + (num_leaves n * ni)) in
  counts_ok n' (map (scale_counts li ni) stack) = true
  /\ push_node n' (map (scale_counts li ni) stack)
     = map (scale_counts li ni) (push_node n stack).
Proof.
  intros Hk Hc n'. unfold counts_ok, expected_leaves, expected_nodes in Hc.
  rewrite Hk in Hc. rewrite !Bool.andb_true_iff, !Z.eqb_eq in Hc.
  destruct Hc as [[[[H0 Hle] _] Hl] Hn]. split.
  - unfold counts_ok, expected_leaves, expected_nodes, n'.
    cbn [kind arity num_leaves num_nodes]. rewrite Hk.
    rewrite firstn_map, sum_fst_scale, sum_snd_scale, length_map, <- Hl.
    rewrite !Bool.andb_true_iff, !Z.eqb_eq. repeat split; auto. lia.
  - unfold push_node, n'. cbn [kind arity num_leaves num_nodes map].
    rewrite skipn_map. unfold scale_counts at 2. cbn [fst snd]. reflexivity.
Qed.

(** The replay of a composed traversal follows the replay of the outer one,
    with every subtree's counts scaled. *)
Lemma replay_compose (inner : list Node) (li ni : Z) :
  replay inner [] = Some [(li, ni)] ->
  forall t stack stack',
    replay t stack = Some stack' ->
    replay (flat_map (compose_node inner li ni) t) (map (scale_counts li ni) stack)
      = Some (map (scale_counts li ni) stack').
Proof.
  intros Hin. induction t as [|n t IH]; intros stack stack' Hr.
  - simpl in Hr. inversion Hr. reflexivity.
  - cbn [replay] in Hr. destruct (counts_ok n stack) eqn:Hc; [|discriminate].
    cbn [flat_map]. rewrite replay_app.
    assert (Hstep : replay (compose_node inner li ni n) (map (scale_counts li ni) stack)
                    = Some (map (scale_counts li ni) (push_node n stack))).
    { destruct (is_leaf_kind (kind n)) eqn:Hk'.
      - unfold counts_ok, expected_leaves, expected_nodes in Hc. rewrite Hk' in Hc.
        rewrite !Bool.andb_true_iff, !Z.eqb_eq in Hc.
        destruct Hc as [[[_ Hleaf] Hl] Hn].
        cbn [implb] in Hleaf. apply Z.eqb_eq in Hleaf.
        rewrite Hleaf in Hn. cbn [Z.to_nat firstn map sum_Z] in Hn.
        assert (Ek : kind n = Leaf) by (destruct (kind n); try discriminate; reflexivity).
        unfold compose_node, push_node. rewrite Ek, Hleaf.
        pose proof (replay_frame inner [] [(li, ni)]
                      (map (scale_counts li ni) stack) Hin) as Hfr.
        cbn [app] in Hfr. rewrite Hfr.
        cbn [Z.to_nat skipn map]. rewrite Hl, Hn. unfold scale_counts at 2.
        cbn [fst snd]. do 2 f_equal. f_equal; lia.
      - destruct (counts_ok_scaled li ni n stack Hk' Hc) as [Hc' Hp'].
        unfold compose_node.
        destruct (kind n) eqn:Ek; try discriminate;
          cbn [replay]; cbv zeta in Hc', Hp'; rewrite Hc', Hp'; reflexivity. }
    rewrite Hstep. apply IH. assumption.
Qed.

Lemma replay_root_entry (t : list Node) (root : Node) :
  counts_well_formed t = true -> back t = OK root ->
  replay t [] = Some [(num_leaves root, num_nodes root)].
Proof.
  intros Hwf Hb. destruct (counts_well_formed_replay _ Hwf) as [e Hr].
  rewrite Hr. destruct (back_ok_inv _ _ Hb) as [p ->].
  rewrite replay_app in Hr. destruct (replay p []) as [stack|]; [|discriminate].
  simpl in Hr. destruct (counts_ok root stack); [|discriminate].
  unfold push_node in Hr. injection Hr as He _. rewrite He. reflexivity.
Qed.

Lemma node_ok_compose_node (flag : bool) (inner : list Node) (li ni : Z) (n : Node) :
  node_ok flag n = true -> forallb (node_ok flag) inner = true ->
  forallb (node_ok flag) (compose_node inner li ni n) = true.
Proof.
  intros Hn Hi. unfold compose_node.
  destruct (kind n) eqn:Ek; try assumption;
    cbn [forallb]; rewrite Bool.andb_true_r;
    unfold node_ok in *; cbn [kind arity custom node_data]; rewrite Ek in Hn; exact Hn.
Qed.

Lemma node_ok_flat_map (flag : bool) (inner : list Node) (li ni : Z) (t : list Node) :
  forallb (node_ok flag) t = true -> forallb (node_ok flag) inner = true ->
  forallb (node_ok flag) (flat_map (compose_node inner li ni) t) = true.
Proof.
  intros Ht Hi. induction t as [|n t IH]; [reflexivity|].
  cbn [forallb flat_map] in *. apply Bool.andb_true_iff in Ht. destruct Ht as [Hn Ht].
  rewrite forallb_app, (node_ok_compose_node _ _ _ _ _ Hn Hi), (IH Ht). reflexivity.
Qed.

(** X5.  [Compose] keeps specs well formed: for well-formed specs with the
    same flag and compatible namespaces it returns, and the result is again
    well formed, so every node of the composed traversal carries the counts
    of its own subtree. *)
Theorem Compose_well_formed (outer inner : PyTreeSpec) :
  well_formed outer = true -> well_formed inner = true ->
  m_none_is_leaf outer = m_none_is_leaf inner ->
  namespace_mismatch (m_namespace outer) (m_namespace inner) = false ->
  exists r, Compose outer inner = OK r /\ well_formed r = true.
Proof.
  intros Ho Hi Hflag Hns. unfold well_formed in Ho, Hi.
  apply Bool.andb_true_iff in Ho, Hi. destruct Ho as [Hco Hko]. destruct Hi as [Hci Hki].
  destruct (counts_consistent_root _ (counts_well_formed_consistent _ Hco))
    as (root_o & Hbo & _ & Hno & Hleaf).
  destruct (counts_consistent_root _ (counts_well_formed_consistent _ Hci))
    as (root_i & Hbi & _ & Hni & _).
  eexists. split; [exact (Compose_succeeds outer inner root_o root_i
                            Hflag Hns Hbo Hbi Hno Hni Hleaf)|].
  unfold well_formed. cbn [m_traversal m_none_is_leaf]. apply Bool.andb_true_iff. split.
  - pose proof (replay_root_entry _ _ Hci Hbi) as Hri. rewrite Hni in Hri.
    destruct (counts_well_formed_replay _ Hco) as [eo Hro].
    pose proof (replay_compose _ _ _ Hri _ _ _ Hro) as Hrc. cbn [map] in Hrc.
    unfold counts_well_formed. rewrite Hrc. reflexivity.
  - apply node_ok_flat_map; [assumption | rewrite Hflag; assumption].
Qed.

(** X5 at a nested spec composed with a pair. *)
Lemma Compose_well_formed_witness :
  exists r, Compose nested_spec (pair_spec "ns") = OK r /\ well_formed r = true.
Proof.
  apply (Compose_well_formed nested_spec (pair_spec "ns")); reflexivity.
Defined.

(** X4 at a nested spec. *)
Lemma Children_well_formed_witness :
  exists children,
    Children nested_spec = OK children
    /\ Z.of_nat (List.length children)
       = arity (mkNode List 2 Datatypes.None Datatypes.None Datatypes.None 3 7)
    /\ List.concat (map m_traversal children)
         ++ [mkNode List 2 Datatypes.None Datatypes.None Datatypes.None 3 7]
       = m_traversal nested_spec
    /\ Forall (fun c => well_formed c = true
                        /\ m_none_is_leaf c = m_none_is_leaf nested_spec
                        /\ m_namespace c = m_namespace nested_spec) children.
Proof.
  apply (Children_well_formed nested_spec); reflexivity.
Defined.

Lemma sum_Z_rev (l : list Z) : sum_Z (rev l) = sum_Z l.
Proof.
  induction l as [|x l IH]; [reflexivity|].
  cbn [rev sum_Z]. rewrite sum_Z_app, IH. cbn [sum_Z]. lia.
Qed.

Lemma replay_whole (s : PyTreeSpec) :
  counts_well_formed (m_traversal s) = true ->
  replay (m_traversal s) [] = Some [(root_leaves s, size (m_traversal s))].
Proof.
  intros Hwf.
  destruct (counts_consistent_root _ (counts_well_formed_consistent _ Hwf))
    as (root & Hb & _ & Hn & _).
  rewrite (replay_root_entry _ _ Hwf Hb), Hn. unfold root_leaves.
  destruct (back_ok_inv _ _ Hb) as [p ->]. rewrite rev_app_distr. reflexivity.
Qed.

Lemma replay_concat (children : list PyTreeSpec) :
  Forall (fun c => counts_well_formed (m_traversal c) = true) children ->
  forall below,
    replay (List.concat (map m_traversal children)) below
    = Some (rev (map (fun c => (root_leaves c, size (m_traversal c))) children) ++ below).
Proof.
  induction 1 as [|c cs Hc _ IH]; intros below; [reflexivity|].
  cbn [map List.concat rev]. rewrite replay_app.
  pose proof (replay_frame _ _ _ below (replay_whole c Hc)) as Hfr. cbn [app] in Hfr.
  rewrite Hfr, IH, <- app_assoc. reflexivity.
Qed.

(** X6.  The tuple constructor keeps specs well formed: from well-formed
    children that carry the requested flag and whose non-empty namespaces
    agree it returns a well-formed spec. *)
Theorem Tuple_well_formed (treespecs : list PyTreeSpec) (none_is_leaf : bool) :
  Forall (fun c => well_formed c = true /\ m_none_is_leaf c = none_is_leaf) treespecs ->
  namespaces_agree (map m_namespace treespecs) ->
  exists r, PyTreeSpec_Tuple treespecs none_is_leaf = OK r /\ well_formed r = true.
Proof.
  intros Hcs Hns.
  assert (Hflag : Forall (fun t => m_none_is_leaf t = none_is_leaf) treespecs).
  { eapply Forall_impl; [|exact Hcs]. intros c [_ ?]. assumption. }
  assert (Hcw : Forall (fun c => counts_well_formed (m_traversal c) = true) treespecs).
  { eapply Forall_impl; [|exact Hcs]. intros c [Hw _]. unfold well_formed in Hw.
    apply Bool.andb_true_iff in Hw. tauto. }
  assert (Hne : Forall (fun t => m_traversal t <> []) treespecs).
  { eapply Forall_impl; [|exact Hcw]. intros c Hw E. cbv beta in Hw.
    rewrite E in Hw. discriminate. }
  eexists. split; [exact (Tuple_ok treespecs none_is_leaf Hflag Hns Hne)|].
  unfold well_formed. cbn [m_traversal m_none_is_leaf]. apply Bool.andb_true_iff. split.
  - unfold counts_well_formed. rewrite replay_app, (replay_concat _ Hcw []), app_nil_r.
    set (entries := map (fun c => (root_leaves c, size (m_traversal c))) treespecs).
    assert (Hlen : List.length (rev entries) = List.length treespecs)
      by (unfold entries; rewrite length_rev, length_map; reflexivity).
    cbn [replay]. unfold counts_ok, push_node, expected_leaves, expected_nodes, tuple_node.
    cbn [kind arity num_leaves num_nodes is_leaf_kind implb].
    assert (Hfa : firstn (List.length treespecs) (rev entries) = rev entries)
      by (rewrite <- Hlen; apply firstn_all).
    assert (Hsk : skipn (List.length treespecs) (rev entries) = [])
      by (rewrite <- Hlen; apply skipn_all).
    rewrite Nat2Z.id, Hfa, Hsk, Hlen.
    rewrite !map_rev, !sum_Z_rev. unfold entries. rewrite !map_map. cbn [fst snd].
    rewrite size_concat.
    replace (0 <=? Z.of_nat (List.length treespecs)) with true
      by (symmetry; apply Z.leb_le; lia).
    rewrite Z.leb_refl, Z.eqb_refl. cbn [andb].
    replace (sum_Z (map (fun t => size (m_traversal t)) treespecs) + 1
             =? 1 + sum_Z (map (fun x => size (m_traversal x)) treespecs)) with true
      by (symmetry; apply Z.eqb_eq; lia).
    reflexivity.
  - rewrite forallb_app. apply Bool.andb_true_iff. split; [|reflexivity].
    apply forallb_forall. intros n Hn. apply in_concat in Hn.
    destruct Hn as (t & Ht & Hn). apply in_map_iff in Ht. destruct Ht as (c & <- & Hc).
    rewrite Forall_forall in Hcs. destruct (Hcs c Hc) as [Hw <-].
    unfold well_formed in Hw. apply Bool.andb_true_iff in Hw. destruct Hw as [_ Hok].
    rewrite forallb_forall in Hok. auto.
Qed.

(** X6 at the children [(x, y)], a nested spec and a leaf. *)
Lemma Tuple_well_formed_witness :
  exists r, PyTreeSpec_Tuple [pair_spec ""; nested_spec; PyTreeSpec_Leaf false] false = OK r
            /\ well_formed r = true.
Proof.
  apply (Tuple_well_formed [pair_spec ""; nested_spec; PyTreeSpec_Leaf false] false).
  - repeat constructor.
  - intros a b Ha Hb Hna Hnb. simpl in Ha, Hb.
    destruct Ha as [<-|[<-|[<-|[]]]]; contradiction.
Defined.

(** ** [is_leaf] *)

Lemma single_node_counts (n : Node) :
  counts_well_formed [n] = true ->
  arity n = 0 /\ num_nodes n = 1
  /\ num_leaves n = (if is_leaf_kind (kind n) then 1 else 0).
Proof.
  unfold counts_well_formed. cbn [replay].
  destruct (counts_ok n []) eqn:Hc; [|discriminate]. intros _.
  unfold counts_ok, expected_leaves, expected_nodes in Hc.
  rewrite !Bool.andb_true_iff, !Z.eqb_eq in Hc.
  destruct Hc as [[[[H0 Hle] _] Hl] Hn]. apply Z.leb_le in H0, Hle. simpl in Hle.
  assert (Ha : arity n = 0) by lia. rewrite Ha in Hl, Hn.
  cbn [Z.to_nat firstn map sum_Z] in Hl, Hn. repeat split; auto.
Qed.

(** X7.  [is_leaf] never raises.  With [strict = false] it returns [true]
    exactly for the specs of one node.  With [strict = true] it returns
    [true] exactly when that one node counts one leaf, which on a well-formed
    spec means that the spec is a single [Leaf] node (a lone [None] node or
    an empty container is not a leaf). *)
Theorem is_leaf_single_node (s : PyTreeSpec) :
  (forall strict, exists b, is_leaf s strict = OK b)
  /\ (is_leaf s false = OK true <-> exists n, m_traversal s = [n])
  /\ (is_leaf s true = OK true <-> exists n, m_traversal s = [n] /\ num_leaves n = 1)
  /\ (counts_well_formed (m_traversal s) = true ->
      (is_leaf s true = OK true <-> exists n, m_traversal s = [n] /\ kind n = Leaf)).
Proof.
  assert (Hone : (spec_num_nodes s =? 1) = true <-> exists n, m_traversal s = [n]).
  { unfold spec_num_nodes, size. rewrite Z.eqb_eq.
    destruct (m_traversal s) as [|n [|m t]]; simpl List.length; split;
      try lia; try (intros [x Hx]; discriminate). eauto. }
  assert (Hstrict : is_leaf s true = OK true <->
                    exists n, m_traversal s = [n] /\ num_leaves n = 1).
  { unfold is_leaf. destruct (spec_num_nodes s =? 1) eqn:E.
    - destruct (proj1 Hone eq_refl) as [n Hn].
      unfold spec_num_leaves. rewrite Hn. cbn [back rev app bind]. split.
      + intros Hl. exists n. split; [reflexivity|].
        injection Hl as Hl. apply Z.eqb_eq. assumption.
      + intros (m & Hm & Hl). injection Hm as <-. rewrite Hl. reflexivity.
    - split; [discriminate|]. intros (n & Hn & _).
      discriminate (proj2 Hone (ex_intro _ n Hn)). }
  split; [|split; [|split]].
  - intros [|]; unfold is_leaf; [|eauto].
    destruct (spec_num_nodes s =? 1) eqn:E; [|eauto].
    destruct (proj1 Hone eq_refl) as [n Hn].
    unfold spec_num_leaves. rewrite Hn. cbn [back rev app bind]. eauto.
  - unfold is_leaf. rewrite <- Hone. split; [intros Hb; injection Hb; auto | intros ->; reflexivity].
  - exact Hstrict.
  - intros Hwf. rewrite Hstrict. split.
    + intros (n & Hn & Hl). exists n. split; [assumption|].
      rewrite Hn in Hwf. destruct (single_node_counts n Hwf) as (_ & _ & Hl').
      rewrite Hl in Hl'. destruct (kind n); try discriminate. reflexivity.
    + intros (n & Hn & Hk). exists n. split; [assumption|].
      rewrite Hn in Hwf. destruct (single_node_counts n Hwf) as (_ & _ & Hl').
      rewrite Hk in Hl'. exact Hl'.
Qed.

(** X7 at the spec of a single leaf. *)
Lemma is_leaf_single_node_witness :
  counts_well_formed (m_traversal (PyTreeSpec_Leaf false)) = true
  /\ (is_leaf (PyTreeSpec_Leaf false) true = OK true <->
      exists n, m_traversal (PyTreeSpec_Leaf false) = [n] /\ kind n = Leaf).
Proof.
  split; [reflexivity|].
  apply (proj2 (proj2 (proj2 (is_leaf_single_node (PyTreeSpec_Leaf false))))).
  reflexivity.
Defined.

(** ** The algebra of [Compose] *)

Lemma leaf_invariant_Compose (outer inner r : PyTreeSpec) :
  leaf_invariant inner -> Compose outer inner = OK r -> leaf_invariant r.
Proof.
  intros Hi Hr.
  destruct (Compose_root_checked _ _ _ Hr) as (lo & li & root & _ & _ & Ht & _).
  unfold leaf_invariant in *. rewrite Ht. clear Ht Hr.
  induction (m_traversal outer) as [|n t IH]; [constructor|].
  cbn [flat_map]. apply Forall_app. split; [|exact IH].
  unfold compose_node. destruct (kind n) eqn:Ek; try exact Hi;
    (constructor; [cbn [kind]; intros E; discriminate | constructor]).
Qed.

Lemma counts_consistent_Compose (outer inner r : PyTreeSpec) :
  counts_consistent outer -> counts_consistent inner ->
  Compose outer inner = OK r -> counts_consistent r.
Proof.
  intros [Hco _] [Hci Hli] Hr. split.
  - exact (count_invariant_Compose outer inner r Hco Hci Hr).
  - exact (leaf_invariant_Compose outer inner r Hli Hr).
Qed.

(** What [Compose] returns on inputs with consistent counts. *)
Lemma Compose_consistent (outer inner : PyTreeSpec) :
  counts_consistent outer -> counts_consistent inner ->
  m_none_is_leaf outer = m_none_is_leaf inner ->
  namespace_mismatch (m_namespace outer) (m_namespace inner) = false ->
  Compose outer inner =
    OK (mkSpec (flat_map (compose_node (m_traversal inner) (root_leaves inner)
                            (size (m_traversal inner)))
                         (m_traversal outer))
               (m_none_is_leaf outer) (composed_namespace outer inner)).
Proof.
  intros Ho Hi Hflag Hns.
  destruct (counts_consistent_root _ Ho) as (root_o & Hbo & _ & Hno & Hleaf).
  destruct (counts_consistent_root _ Hi) as (root_i & Hbi & _ & Hni & _).
  rewrite (Compose_succeeds outer inner root_o root_i Hflag Hns Hbo Hbi Hno Hni Hleaf).
  assert (E : root_leaves inner = num_leaves root_i).
  { unfold root_leaves. destruct (back_ok_inv _ _ Hbi) as [p Hp].
    rewrite Hp, rev_app_distr. reflexivity. }
  rewrite E. reflexivity.
Qed.

Lemma Leaf_consistent (none_is_leaf : bool) : counts_consistent (PyTreeSpec_Leaf none_is_leaf).
Proof.
  split; [apply count_invariant_Leaf|].
  repeat constructor.
Qed.

(** X8.  A single leaf is a left unit of [Compose]: composing the leaf spec
    with a spec [s] of the same flag that satisfies the count invariant
    returns [s] itself, namespace included. *)
Theorem Compose_leaf_left (s : PyTreeSpec) :
  count_invariant s ->
  Compose (PyTreeSpec_Leaf (m_none_is_leaf s)) s = OK s.
Proof.
  intros (root & Hb & Hl & Hn).
  rewrite (Compose_succeeds (PyTreeSpec_Leaf (m_none_is_leaf s)) s leaf_node root);
    try reflexivity; try assumption.
  - destruct s as [t flag ns]. cbn [PyTreeSpec_Leaf m_traversal m_none_is_leaf m_namespace
      flat_map compose_node leaf_node kind]. rewrite app_nil_r.
    unfold composed_namespace. cbn [m_namespace PyTreeSpec_Leaf].
    destruct (empty ns) eqn:E; [|reflexivity].
    apply empty_true in E. rewrite E. reflexivity.
  - intros _. split; reflexivity.
Qed.

(** X8 at a nested spec. *)
Lemma Compose_leaf_left_witness :
  count_invariant nested_spec
  /\ Compose (PyTreeSpec_Leaf (m_none_is_leaf nested_spec)) nested_spec = OK nested_spec.
Proof.
  assert (Hc : count_invariant nested_spec).
  { exact (proj1 (counts_well_formed_consistent nested_spec eq_refl)). }
  split; [exact Hc | exact (Compose_leaf_left nested_spec Hc)].
Defined.

Lemma compose_leaf_node (flag : bool) (n : Node) :
  node_ok flag n = true ->
  (kind n = Leaf -> num_leaves n = 1 /\ num_nodes n = 1 /\ arity n = 0) ->
  exists n', compose_node [leaf_node] 1 1 n = [n']
    /\ same_but_entries n' n
    /\ ((kind n = Leaf -> node_entries n = Datatypes.None) -> n' = n).
Proof.
  intros Hok Hleaf. unfold compose_node.
  destruct n as [k ar data entries cust nl nn]. cbn [kind] in *.
  destruct k;
    try (eexists; split; [reflexivity|]; split;
         [unfold same_but_entries;
          cbn [kind arity node_data custom num_leaves num_nodes];
          repeat split; lia
         | intros _;
           cbn [kind arity node_data node_entries custom num_leaves num_nodes];
           f_equal; lia]).
  (* Leaf *)
  destruct (Hleaf eq_refl) as (Hl & Hn & Ha). cbn in Hl, Hn, Ha. subst nl nn ar.
  unfold node_ok in Hok. cbn in Hok.
  apply Bool.andb_true_iff in Hok. destruct Hok as [Hc Hd].
  apply ptr_eqb_eq in Hc. subst cust. destruct data; [discriminate|].
  exists leaf_node. split; [reflexivity|]. split.
  - unfold same_but_entries, leaf_node. cbn. repeat split.
  - intros He. cbn in He. rewrite (He eq_refl). reflexivity.
Qed.

Lemma compose_leaf_traversal (flag : bool) (t : list Node) :
  forallb (node_ok flag) t = true ->
  Forall (fun n => kind n = Leaf -> num_leaves n = 1 /\ num_nodes n = 1 /\ arity n = 0) t ->
  Forall2 same_but_entries (flat_map (compose_node [leaf_node] 1 1) t) t
  /\ (Forall (fun n => kind n = Leaf -> node_entries n = Datatypes.None) t ->
      flat_map (compose_node [leaf_node] 1 1) t = t).
Proof.
  intros Hok Hl. induction Hl as [|n t Hn _ IH]; [split; [constructor | reflexivity]|].
  cbn [forallb] in Hok. apply Bool.andb_true_iff in Hok. destruct Hok as [Hok Hrest].
  destruct (IH Hrest) as [IH2 IHe].
  destruct (compose_leaf_node flag n Hok Hn) as (n' & Hc & Hs & He).
  cbn [flat_map]. rewrite Hc. cbn [app]. split.
  - constructor; assumption.
  - intros Hf. inversion Hf as [|? ? Hx Hxs]; subst. rewrite (He Hx), (IHe Hxs). reflexivity.
Qed.

(** X9.  A single leaf is a right unit of [Compose] up to path entries:
    composing a well-formed spec [s] with the leaf spec of the same flag
    returns a spec equal to [s] under [operator==], with the namespace of
    [s]; it is [s] itself when no leaf of [s] records path entries. *)
Theorem Compose_leaf_right (s : PyTreeSpec) :
  well_formed s = true ->
  exists r,
    Compose s (PyTreeSpec_Leaf (m_none_is_leaf s)) = OK r
    /\ spec_eq r s = OK true
    /\ m_namespace r = m_namespace s
    /\ (Forall (fun n => kind n = Leaf -> node_entries n = Datatypes.None) (m_traversal s) ->
        r = s).
Proof.
  intros Hwf. unfold well_formed in Hwf. apply Bool.andb_true_iff in Hwf.
  destruct Hwf as [Hc Hok].
  pose proof (counts_well_formed_consistent _ Hc) as Hcons.
  pose proof (Compose_consistent s (PyTreeSpec_Leaf (m_none_is_leaf s)) Hcons
                (Leaf_consistent _) eq_refl) as Hcomp.
  assert (Hns : namespace_mismatch (m_namespace s)
                  (m_namespace (PyTreeSpec_Leaf (m_none_is_leaf s))) = false)
    by (apply namespace_mismatch_false; auto).
  specialize (Hcomp Hns).
  change (root_leaves (PyTreeSpec_Leaf (m_none_is_leaf s))) with 1 in Hcomp.
  change (size (m_traversal (PyTreeSpec_Leaf (m_none_is_leaf s)))) with 1 in Hcomp.
  change (m_traversal (PyTreeSpec_Leaf (m_none_is_leaf s))) with [leaf_node] in Hcomp.
  change (composed_namespace s (PyTreeSpec_Leaf (m_none_is_leaf s)))
    with (m_namespace s) in Hcomp.
  destruct (compose_leaf_traversal _ _ Hok (proj2 Hcons)) as [Hf He].
  eexists. split; [exact Hcomp|]. split; [|split; [reflexivity|]].
  - apply spec_eq_true. cbn [m_traversal m_none_is_leaf m_namespace].
    split; [reflexivity|]. split; [auto|].
    eapply Forall2_impl; [|exact Hf]. apply same_but_entries_agree.
  - intros Hent. rewrite (He Hent). destruct s; reflexivity.
Qed.

(** X9 at a nested spec. *)
Lemma Compose_leaf_right_witness :
  exists r,
    Compose nested_spec (PyTreeSpec_Leaf (m_none_is_leaf nested_spec)) = OK r
    /\ spec_eq r nested_spec = OK true
    /\ m_namespace r = m_namespace nested_spec
    /\ (Forall (fun n => kind n = Leaf -> node_entries n = Datatypes.None)
               (m_traversal nested_spec) ->
        r = nested_spec).
Proof.
  apply (Compose_leaf_right nested_spec). reflexivity.
Defined.

Lemma compose_node_twice (B C : list Node) (lb nb lc nc : Z) (n : Node) :
  flat_map (compose_node C lc nc) (compose_node B lb nb n)
  = compose_node (flat_map (compose_node C lc nc) B) (lb * lc) ((nb - lb) + lb * nc) n.
Proof.
  unfold compose_node at 2 3.
  destruct (kind n) eqn:Ek; try reflexivity;
    cbn [flat_map]; rewrite app_nil_r; unfold compose_node;
    cbn [kind arity node_data node_entries custom num_leaves num_nodes];
    do 2 f_equal; ring.
Qed.

Lemma flat_map_compose_twice (B C : list Node) (lb nb lc nc : Z) (A : list Node) :
  flat_map (compose_node C lc nc) (flat_map (compose_node B lb nb) A)
  = flat_map (compose_node (flat_map (compose_node C lc nc) B)
                           (lb * lc) ((nb - lb) + lb * nc)) A.
Proof.
  induction A as [|n A IH]; [reflexivity|].
  cbn [flat_map]. rewrite flat_map_app, IH, compose_node_twice. reflexivity.
Qed.

Lemma composed_namespace_compatible (a b c : string) :
  namespace_mismatch a b = false -> namespace_mismatch b c = false ->
  namespace_mismatch a c = false ->
  namespace_mismatch (if empty b then a else b) c = false
  /\ namespace_mismatch a (if empty c then b else c) = false
  /\ (if empty c then (if empty b then a else b) else c)
     = (if empty (if empty c then b else c) then a else (if empty c then b else c)).
Proof.
  intros Hab Hbc Hac.
  destruct (empty b) eqn:Eb, (empty c) eqn:Ec; rewrite ?Eb, ?Ec; repeat split; auto.
Qed.

(** X10.  [Compose] is associative: for three specs with consistent counts,
    one flag and pairwise compatible namespaces, composing [a] with [b] and
    the result with [c] returns the same spec, counts and namespace included,
    as composing [a] with the composition of [b] and [c]. *)
Theorem Compose_associative (a b c : PyTreeSpec) :
  counts_consistent a -> counts_consistent b -> counts_consistent c ->
  m_none_is_leaf a = m_none_is_leaf b -> m_none_is_leaf b = m_none_is_leaf c ->
  namespace_mismatch (m_namespace a) (m_namespace b) = false ->
  namespace_mismatch (m_namespace b) (m_namespace c) = false ->
  namespace_mismatch (m_namespace a) (m_namespace c) = false ->
  exists ab bc r,
    Compose a b = OK ab /\ Compose b c = OK bc
    /\ Compose ab c = OK r /\ Compose a bc = OK r.
Proof.
  intros Ha Hb Hc Fab Fbc Nab Nbc Nac.
  pose proof (Compose_consistent a b Ha Hb Fab Nab) as Hab.
  pose proof (Compose_consistent b c Hb Hc Fbc Nbc) as Hbc.
  pose proof (counts_consistent_Compose _ _ _ Ha Hb Hab) as Cab.
  pose proof (counts_consistent_Compose _ _ _ Hb Hc Hbc) as Cbc.
  destruct (composed_namespace_compatible _ _ _ Nab Nbc Nac) as (N1 & N2 & N3).
  set (ab := mkSpec (flat_map (compose_node (m_traversal b) (root_leaves b)
                                 (size (m_traversal b))) (m_traversal a))
                    (m_none_is_leaf a) (composed_namespace a b)) in *.
  set (bc := mkSpec (flat_map (compose_node (m_traversal c) (root_leaves c)
                                 (size (m_traversal c))) (m_traversal b))
                    (m_none_is_leaf b) (composed_namespace b c)) in *.
  pose proof (Compose_consistent ab c Cab Hc (eq_trans Fab Fbc) N1) as Habc.
  pose proof (Compose_consistent a bc Ha Cbc Fab N2) as Habc'.
  exists ab, bc. eexists. split; [exact Hab|]. split; [exact Hbc|].
  split; [exact Habc|]. rewrite Habc'. f_equal.
  destruct (count_invariant_root_leaves _ (proj1 Hb)) as [Lb _].
  destruct (count_invariant_root_leaves _ (proj1 Hc)) as [Lc _].
  destruct (count_invariant_root_leaves _ (proj1 Cbc)) as [Lbc _].
  destruct (compose_node_counts (m_traversal c) (root_leaves c) (size (m_traversal c))
              (m_traversal b)) as [Cl Cs].
  subst ab bc. cbn [m_traversal m_none_is_leaf m_namespace] in *.
  rewrite Lbc, Cl, Cs, flat_map_compose_twice, Lb, Lc.
  unfold composed_namespace. cbn [m_traversal m_none_is_leaf m_namespace].
  rewrite N3. reflexivity.
Qed.

(** X10 at a nested spec, a pair in namespace ["ns"] and a plain pair. *)
Lemma Compose_associative_witness :
  exists ab bc r,
    Compose nested_spec (pair_spec "ns") = OK ab
    /\ Compose (pair_spec "ns") (pair_spec "") = OK bc
    /\ Compose ab (pair_spec "") = OK r /\ Compose nested_spec bc = OK r.
Proof.
  apply (Compose_associative nested_spec (pair_spec "ns") (pair_spec ""));
    try reflexivity;
    try apply pair_spec_consistent.
  apply counts_well_formed_consistent. reflexivity.
Defined.

(** ** What the decoder guarantees *)

Lemma cast_ssize_t_ok (o : PyObject) (z : Z) : cast_ssize_t o = OK z -> ssize_ok z = true.
Proof.
  unfold cast_ssize_t, ssize_ok. destruct o; try discriminate.
  - intros E. injection E as <-. destruct b; reflexivity.
  - destruct (_ && _) eqn:Hr; [|discriminate]. intros E. injection E as <-. exact Hr.
Qed.

Lemma cast_tuple_shape (o t : PyObject) :
  cast_tuple o = OK t -> exists items, t = PyTuple items.
Proof.
  unfold cast_tuple, py_iter. destruct o; simpl; intros E; try discriminate;
    injection E as <-; eauto.
Qed.

Lemma cast_list_shape (o t : PyObject) :
  cast_list o = OK t -> exists items, t = PyList items.
Proof.
  unfold cast_list, py_iter. destruct o; simpl; intros E; try discriminate;
    injection E as <-; eauto.
Qed.

Lemma cast_type_shape (o t : PyObject) :
  cast_type o = OK t -> exists name, t = PyType name.
Proof.
  unfold cast_type. destruct o; intros E; try discriminate. injection E as <-. eauto.
Qed.

(** The fields of a decoded node, read off the decoder. *)
Lemma decode_node_fields (registry : PyTreeTypeRegistry) (none_is_leaf : bool)
    (ns : string) (item : PyObject) (n : Node) :
  decode_node registry none_is_leaf ns item = OK n ->
  decoded_shape n = true
  /\ (kind n = Custom ->
      exists cls, is_none cls = false
        /\ Lookup registry none_is_leaf cls ns = custom n).
Proof.
  unfold decode_node. intros Hd.
  apply bind_ok in Hd. destruct Hd as (t & Ht & Hd).
  destruct t as [| | | |items| |]; try discriminate.
  destruct items as [|t0 [|t1 [|t2 [|t3 [|t4 [|t5 [|t6 [|]]]]]]]]; try discriminate.
  apply bind_ok in Hd. destruct Hd as (k & Hk & Hd).
  apply bind_ok in Hd. destruct Hd as (ar & Har & Hd).
  destruct (kind_of_ordinal k) as [kd|]; [|discriminate].
  apply bind_ok in Hd. destruct Hd as (data & Hdata & Hd).
  apply bind_ok in Hd. destruct Hd as (ec & Hec & Hd).
  apply bind_ok in Hd. destruct Hd as (lv & Hlv & Hd).
  apply bind_ok in Hd. destruct Hd as (nd & Hnd & Hd).
  injection Hd as <-.
  apply cast_ssize_t_ok in Har, Hlv, Hnd.
  unfold decoded_shape. cbn [kind arity node_data node_entries custom num_leaves num_nodes].
  rewrite Har, Hlv, Hnd. cbn [andb].
  destruct kd.
  - (* Custom *)
    injection Hdata as <-.
    apply bind_ok in Hec. destruct Hec as (entries & He & Hec).
    destruct (is_none t4) eqn:Hn4; [discriminate|].
    destruct (Lookup registry none_is_leaf t4 ns) as [p|] eqn:Hlk; [|discriminate].
    injection Hec as <-. cbn [fst snd is_null negb andb ptr_eqb]. split.
    + destruct (is_none t3); cbn [negb] in He.
      * injection He as <-. reflexivity.
      * apply bind_ok in He. destruct He as (e & He & Hent). injection Hent as <-.
        destruct (cast_tuple_shape _ _ He) as [l ->]. reflexivity.
    + intros _. exists t4. auto.
  - destruct (is_none t2); [|discriminate]. injection Hdata as <-.
    destruct (negb (is_none t3) || negb (is_none t4)); [discriminate|].
    injection Hec as <-. split; [reflexivity | discriminate].
  - destruct (is_none t2); [|discriminate]. injection Hdata as <-.
    destruct (negb (is_none t3) || negb (is_none t4)); [discriminate|].
    injection Hec as <-. split; [reflexivity | discriminate].
  - destruct (is_none t2); [|discriminate]. injection Hdata as <-.
    destruct (negb (is_none t3) || negb (is_none t4)); [discriminate|].
    injection Hec as <-. split; [reflexivity | discriminate].
  - destruct (is_none t2); [|discriminate]. injection Hdata as <-.
    destruct (negb (is_none t3) || negb (is_none t4)); [discriminate|].
    injection Hec as <-. split; [reflexivity | discriminate].
  - apply bind_ok in Hdata. destruct Hdata as (d & Hd' & Hdata). injection Hdata as <-.
    destruct (cast_list_shape _ _ Hd') as [l ->].
    destruct (negb (is_none t3) || negb (is_none t4)); [discriminate|].
    injection Hec as <-. split; [reflexivity | discriminate].
  - apply bind_ok in Hdata. destruct Hdata as (d & Hd' & Hdata). injection Hdata as <-.
    destruct (cast_type_shape _ _ Hd') as [l ->].
    destruct (negb (is_none t3) || negb (is_none t4)); [discriminate|].
    injection Hec as <-. split; [reflexivity | discriminate].
  - apply bind_ok in Hdata. destruct Hdata as (d & Hd' & Hdata). injection Hdata as <-.
    destruct (cast_list_shape _ _ Hd') as [l ->].
    destruct (negb (is_none t3) || negb (is_none t4)); [discriminate|].
    injection Hec as <-. split; [reflexivity | discriminate].
  - injection Hdata as <-.
    destruct (negb (is_none t3) || negb (is_none t4)); [discriminate|].
    injection Hec as <-. split; [reflexivity | discriminate].
  - injection Hdata as <-.
    destruct (negb (is_none t3) || negb (is_none t4)); [discriminate|].
    injection Hec as <-. split; [reflexivity | discriminate].
  - apply bind_ok in Hdata. destruct Hdata as (d & Hd' & Hdata). injection Hdata as <-.
    destruct (cast_type_shape _ _ Hd') as [l ->].
    destruct (negb (is_none t3) || negb (is_none t4)); [discriminate|].
    injection Hec as <-. split; [reflexivity | discriminate].
Qed.

Lemma decode_nodes_fields (registry : PyTreeTypeRegistry) (none_is_leaf : bool)
    (ns : string) (items : list PyObject) :
  forall t, decode_nodes registry none_is_leaf ns items = OK t ->
    List.length t = List.length items
    /\ Forall (fun n => decoded_shape n = true
                        /\ (kind n = Custom ->
                            exists cls, is_none cls = false
                              /\ Lookup registry none_is_leaf cls ns = custom n)) t.
Proof.
  induction items as [|item items IH]; intros t Hd; simpl in Hd.
  - injection Hd as <-. split; [reflexivity | constructor].
  - apply bind_ok in Hd. destruct Hd as (n & Hn & Hd).
    apply bind_ok in Hd. destruct Hd as (r & Hr & Hd). injection Hd as <-.
    destruct (IH r Hr) as [Hlen Hf]. split; [simpl; congruence|].
    constructor; [|assumption]. eapply decode_node_fields; eassumption.
Qed.

Lemma FromPicklable_inv (registry : PyTreeTypeRegistry) (picklable : PyObject)
    (s : PyTreeSpec) :
  FromPicklable registry picklable = OK s ->
  exists state0 state1 state2 items,
    picklable = PyTuple [state0; state1; state2]
    /\ cast_bool state1 = OK (m_none_is_leaf s)
    /\ cast_string state2 = OK (m_namespace s)
    /\ py_iter state0 = OK items
    /\ decode_nodes registry (m_none_is_leaf s) (m_namespace s) items = OK (m_traversal s).
Proof.
  unfold FromPicklable, FromPicklableImpl.
  destruct picklable as [| | | |st| |]; try discriminate.
  destruct st as [|s0 [|s1 [|s2 [|]]]]; try discriminate. intros Hd.
  apply bind_ok in Hd. destruct Hd as (flag & Hflag & Hd).
  apply bind_ok in Hd. destruct Hd as (ns & Hns & Hd).
  apply bind_ok in Hd. destruct Hd as (items & Hit & Hd).
  apply bind_ok in Hd. destruct Hd as (t & Ht & Hd). injection Hd as <-.
  exists s0, s1, s2, items. cbn [m_none_is_leaf m_namespace m_traversal]. auto.
Qed.

(** X11.  [FromPicklable] returns a spec only for a 3-tuple whose second
    and third components convert to the flag and the namespace; the spec
    has one node per item of the first component, and every node has the
    shape the decoder validates: [ssize_t] counts, no data on [Leaf], [None],
    [Tuple] and [List], a key list on [Dict] and [OrderedDict], a type on
    [NamedTuple] and [StructSequence], path entries on [Custom] nodes only,
    and a registration exactly on the [Custom] nodes. *)
Theorem FromPicklable_validates (registry : PyTreeTypeRegistry) (picklable : PyObject)
    (s : PyTreeSpec) :
  FromPicklable registry picklable = OK s ->
  (exists state0 state1 state2 items,
     picklable = PyTuple [state0; state1; state2]
     /\ cast_bool state1 = OK (m_none_is_leaf s)
     /\ cast_string state2 = OK (m_namespace s)
     /\ py_iter state0 = OK items
     /\ List.length (m_traversal s) = List.length items)
  /\ forallb decoded_shape (m_traversal s) = true.
Proof.
  intros Hd.
  destruct (FromPicklable_inv _ _ _ Hd) as (s0 & s1 & s2 & items & Hp & Hf & Hn & Hi & Ht).
  destruct (decode_nodes_fields _ _ _ _ _ Ht) as [Hlen Hall]. split.
  - exists s0, s1, s2, items. auto.
  - apply forallb_forall. intros n Hin. rewrite Forall_forall in Hall.
    exact (proj1 (Hall n Hin)).
Qed.

Lemma decoded_node_picklable (registry : PyTreeTypeRegistry) (none_is_leaf : bool)
    (ns : string) (n : Node) :
  registry_coherent registry ->
  decoded_shape n = true ->
  (kind n = Custom ->
   exists cls, is_none cls = false /\ Lookup registry none_is_leaf cls ns = custom n) ->
  node_picklable registry none_is_leaf ns n = true.
Proof.
  intros Hco Hs Hlk. unfold decoded_shape in Hs. unfold node_picklable.
  apply Bool.andb_true_iff in Hs. destruct Hs as [Hs Hrest]. rewrite Hs. cbn [andb].
  destruct (kind n) eqn:Ek; try exact Hrest.
  apply Bool.andb_true_iff in Hrest. destruct Hrest as [He Hc]. rewrite He. cbn [andb].
  destruct (Hlk eq_refl) as (cls & _ & Hl).
  destruct (custom n) as [p|]; [|discriminate].
  destruct (Hco _ _ _ _ Hl) as [Hty Hre]. rewrite Hty, Hre. cbn [negb andb].
  apply ptr_eqb_refl.
Qed.

(** X12.  Decoding is idempotent: with a coherent registry, every spec that
    [FromPicklable] returns, from whatever pickle, is returned unchanged when
    it is pickled and decoded again. *)
Theorem FromPicklable_idempotent (registry : PyTreeTypeRegistry) (pickle : PyObject)
    (s : PyTreeSpec) :
  registry_coherent registry ->
  FromPicklable registry pickle = OK s ->
  FromPicklable registry (ToPicklable registry s) = OK s.
Proof.
  intros Hco Hd.
  destruct (FromPicklable_inv _ _ _ Hd) as (s0 & s1 & s2 & items & _ & _ & _ & _ & Ht).
  destruct (decode_nodes_fields _ _ _ _ _ Ht) as [_ Hall].
  apply FromPicklable_ToPicklable. unfold picklable.
  apply forallb_forall. intros n Hin. rewrite Forall_forall in Hall.
  destruct (Hall n Hin) as [Hs Hl]. apply decoded_node_picklable; assumption.
Qed.

Lemma box_registry_coherent : registry_coherent box_registry.
Proof.
  intros flag cls ns p. unfold box_registry. cbn [Lookup registration_type].
  destruct (py_eq cls (PyType "Box")); [|discriminate].
  intros E. injection E as <-. split; reflexivity.
Qed.

(** X11 at a pickle written by hand with lists in place of tuples. *)
Lemma FromPicklable_validates_witness :
  exists s,
    FromPicklable box_registry handwritten_pickle = OK s
    /\ (exists state0 state1 state2 items,
          handwritten_pickle = PyTuple [state0; state1; state2]
          /\ cast_bool state1 = OK (m_none_is_leaf s)
          /\ cast_string state2 = OK (m_namespace s)
          /\ py_iter state0 = OK items
          /\ List.length (m_traversal s) = List.length items)
    /\ forallb decoded_shape (m_traversal s) = true.
Proof.
  eexists. split; [reflexivity|].
  apply (FromPicklable_validates box_registry handwritten_pickle). reflexivity.
Defined.

(** X12 at the same pickle: its decoded spec survives the round trip,
    though the pickle itself is not what [ToPicklable] would write. *)
Lemma FromPicklable_idempotent_witness :
  exists s,
    FromPicklable box_registry handwritten_pickle = OK s
    /\ ToPicklable box_registry s <> handwritten_pickle
    /\ FromPicklable box_registry (ToPicklable box_registry s) = OK s.
Proof.
  eexists. split; [reflexivity|]. split; [discriminate|].
  apply (FromPicklable_idempotent box_registry handwritten_pickle);
    [exact box_registry_coherent | reflexivity].
Defined.

(** ** When hashing raises *)

Lemma hash_node_ok {HS : HashState} (h : H) (n : Node) :
  is_ok (hash_node h n) = is_ok (node_data_hash n).
Proof. unfold hash_node. destruct (node_data_hash n); reflexivity. Qed.

Lemma hash_nodes_ok {HS : HashState} (t : list Node) :
  forall h, is_ok (hash_nodes h t) = forallb (fun n => is_ok (node_data_hash n)) t.
Proof.
  induction t as [|n t IH]; intros h; [reflexivity|].
  cbn [hash_nodes forallb]. rewrite <- (hash_node_ok h n).
  destruct (hash_node h n) as [h'|e]; [apply IH | reflexivity].
Qed.

(** X13.  Hashing a spec raises exactly when the data hash of one of its
    nodes raises (unhashable keys or data, or a key list whose length is not
    the arity); the data hash of a [Custom] node never raises, so a spec of
    [Leaf], [None], [Tuple], [List] and [Custom] nodes is hashable whatever
    aux data its custom nodes carry. *)
Theorem hash_raises_iff {HS : HashState} (s : PyTreeSpec) :
  is_ok (PyTreeSpec_hash s) = forallb (fun n => is_ok (node_data_hash n)) (m_traversal s)
  /\ (Forall (fun n => kind n = Custom
                       \/ (node_data n = Datatypes.None
                           /\ (kind n = Leaf \/ kind n = None
                               \/ kind n = Tuple \/ kind n = List)))
             (m_traversal s) ->
      is_ok (PyTreeSpec_hash s) = true).
Proof.
  assert (Hok : is_ok (PyTreeSpec_hash s)
                = forallb (fun n => is_ok (node_data_hash n)) (m_traversal s)).
  { unfold PyTreeSpec_hash, hash_spec. rewrite <- (hash_nodes_ok (m_traversal s) seed).
    destruct (hash_nodes seed (m_traversal s)); reflexivity. }
  split; [exact Hok|]. intros Hf. rewrite Hok. apply forallb_forall.
  intros n Hin. rewrite Forall_forall in Hf. unfold node_data_hash.
  destruct (Hf n Hin) as [-> | [-> [-> | [-> | [-> | ->]]]]]; reflexivity.
Qed.

(** X13 at a [Box] whose aux data is an unhashable list. *)
Lemma hash_raises_iff_witness :
  is_ok (@PyTreeSpec_hash MixingHashState (box_spec (PyList [PyInt 1]))) = true.
Proof.
  apply (proj2 (@hash_raises_iff MixingHashState (box_spec (PyList [PyInt 1])))).
  apply Forall_cons; [right; split; [reflexivity | left; reflexivity]|].
  apply Forall_cons; [left; reflexivity | apply Forall_nil].
Defined.

(** ** Node kinds of host values *)

(** X14. The kind [GetKind] reports and the registration it hands back
    agree: a registration is returned exactly when the kind is [Custom], it
    is the one the registry resolved, and its own kind is [Custom]; a
    registered type gets the kind of its registration whatever its shape;
    an unregistered type is a [NamedTuple] when the named-tuple test
    accepts it, else a [StructSequence] when that test accepts it, else a
    [Leaf], and never one of the built-in container kinds. *)
Theorem GetKind_custom_iff (host : Host) (registry : PyTreeTypeRegistry)
    (registration_kind : RegistrationPtr -> PyTreeKind)
    (none_is_leaf : bool) (type : PyObject) (ns : string) :
  let r := GetKind host registry registration_kind none_is_leaf type ns in
  (snd r <> Datatypes.None <-> fst r = Custom)
  /\ (forall p, snd r = Some p ->
        Lookup registry none_is_leaf type ns = Some p /\ registration_kind p = Custom)
  /\ (forall p, Lookup registry none_is_leaf type ns = Some p -> fst r = registration_kind p)
  /\ (Lookup registry none_is_leaf type ns = Datatypes.None ->
        (fst r = NamedTuple <-> IsNamedTupleClass host type = true)
        /\ (fst r = StructSequence <->
              IsNamedTupleClass host type = false /\ IsStructSequenceClass host type = true)
        /\ (fst r = Leaf <->
              IsNamedTupleClass host type = false /\ IsStructSequenceClass host type = false)).
Proof.
  cbv zeta. unfold GetKind.
  destruct (Lookup registry none_is_leaf type ns) as [p|] eqn:El.
  - destruct (registration_kind p) eqn:Ek; cbn [fst snd];
      (split; [split; intros Hx; try congruence; try discriminate|]);
      (split; [intros q Hq; try discriminate; inversion Hq; subst; split; congruence|]);
      (split; [intros q Hq; inversion Hq; subst; congruence | intros Hx; discriminate]).
  - destruct (IsNamedTupleClass host type) eqn:En;
      [|destruct (IsStructSequenceClass host type) eqn:Es]; cbn [fst snd];
      (split; [split; intros Hx; try congruence; try discriminate|]);
      (split; [intros q Hq; discriminate|]);
      (split; [intros q Hq; discriminate|]);
      intros _; repeat split; intros; try congruence; try discriminate;
      match goal with
      | Hc : _ /\ _ |- _ => destruct Hc; congruence
      | _ => idtac
      end.
Qed.

(** ** Printing *)

Lemma agenda_tail_app (arity : Z) (pre agenda : list string) :
  0 <= arity <= Z.of_nat (List.length agenda) ->
  agenda_tail arity (pre ++ agenda) = agenda_tail arity agenda.
Proof.
  intros Ha. unfold agenda_tail. rewrite length_app, skipn_app.
  replace (skipn (List.length pre + List.length agenda - Z.to_nat arity) pre)
    with (@nil string) by (symmetry; apply skipn_all2; lia).
  cbn [app]. f_equal. lia.
Qed.

Lemma agenda_erase_app (arity : Z) (pre agenda : list string) :
  0 <= arity <= Z.of_nat (List.length agenda) ->
  agenda_erase arity (pre ++ agenda) = pre ++ agenda_erase arity agenda.
Proof.
  intros Ha. unfold agenda_erase. rewrite length_app, firstn_app.
  rewrite firstn_all2 by lia. do 2 f_equal. lia.
Qed.

(** A round of the loop reads and replaces the last [arity] strings only. *)
Lemma ToString_step_frame (host : Host) (registry : PyTreeTypeRegistry)
    (pre agenda agenda' : list string) (node : Node) :
  ToString_step host registry agenda node = OK agenda' ->
  ToString_step host registry (pre ++ agenda) node = OK (pre ++ agenda').
Proof.
  unfold ToString_step, expect_ge. intros Hs.
  destruct (arity node <=? Z.of_nat (List.length agenda)) eqn:Hge; [|discriminate].
  apply Z.leb_le in Hge. cbn [bind] in Hs.
  destruct (arity node <? 0) eqn:Hneg; [discriminate|]. apply Z.ltb_ge in Hneg.
  assert (Hge' : (arity node <=? Z.of_nat (List.length (pre ++ agenda))) = true)
    by (apply Z.leb_le; rewrite length_app; lia).
  rewrite Hge'. cbn [bind].
  rewrite agenda_tail_app, agenda_erase_app by lia.
  destruct (kind node);
    try (destruct (node_representation host registry node
                     (agenda_tail (arity node) agenda)) as [rep|e];
         cbn [bind] in Hs |- *; [|discriminate];
         inversion Hs; subst; rewrite app_assoc; reflexivity).
  inversion Hs; subst. rewrite app_assoc. reflexivity.
Qed.

Lemma ToString_agenda_frame (host : Host) (registry : PyTreeTypeRegistry)
    (pre : list string) (traversal : list Node) :
  forall agenda agenda',
    ToString_agenda host registry agenda traversal = OK agenda' ->
    ToString_agenda host registry (pre ++ agenda) traversal = OK (pre ++ agenda').
Proof.
  induction traversal as [|node rest IH]; intros agenda agenda' Hs; cbn [ToString_agenda] in *.
  - inversion Hs; reflexivity.
  - apply bind_ok in Hs. destruct Hs as [mid [Hstep Hrest]].
    rewrite (ToString_step_frame host registry pre agenda mid node Hstep). cbn [bind].
    apply IH. exact Hrest.
Qed.

Lemma ToString_agenda_app (host : Host) (registry : PyTreeTypeRegistry)
    (t1 t2 : list Node) :
  forall agenda,
    ToString_agenda host registry agenda (t1 ++ t2) =
      bind (ToString_agenda host registry agenda t1)
           (fun mid => ToString_agenda host registry mid t2).
Proof.
  induction t1 as [|node rest IH]; intros agenda; cbn [app ToString_agenda].
  - reflexivity.
  - destruct (ToString_step host registry agenda node) as [mid|e]; cbn [bind].
    + apply IH.
    + reflexivity.
Qed.

Lemma field_names_ok (fields : list PyObject) :
  forallb PyUnicode_CheckExact fields = true ->
  exists names, field_names fields = OK names.
Proof.
  induction fields as [|f rest IH]; cbn [forallb field_names]; intros Hf.
  - eexists; reflexivity.
  - apply andb_true_iff in Hf. destruct Hf as [Hs Hrest].
    destruct f; try discriminate. cbn [cast_string bind].
    destruct (IH Hrest) as [names ->]. cbn [bind]. eexists; reflexivity.
Qed.

(** A printable node has a representation, whatever its children print as. *)
Lemma node_representation_ok (host : Host) (registry : PyTreeTypeRegistry)
    (node : Node) (child_reprs : list string) :
  printable host registry node = true ->
  exists representation,
    node_representation host registry node child_reprs = OK representation.
Proof.
  unfold printable, node_representation, expect_eq.
  destruct (kind node); intros Hp; try (eexists; reflexivity).
  - (* Custom *)
    destruct (custom node) as [p|]; [|discriminate].
    destruct (getattr_name (type_info host (registration_type registry p))); [|discriminate].
    cbn [bind]. eexists; reflexivity.
  - (* Dict *)
    destruct (node_data node) as [[| | | | |keys|]|]; try discriminate.
    rewrite Hp. cbn [bind]. eexists; reflexivity.
  - (* NamedTuple *)
    destruct (node_data node) as [type|]; [|discriminate].
    destruct (getattr_fields (type_info host type)) as [[| | | |fields| |]|]; try discriminate.
    cbn [bind]. apply andb_true_iff in Hp. destruct Hp as [Hp Hn].
    apply andb_true_iff in Hp. destruct Hp as [Hl Hf]. rewrite Hl. cbn [bind].
    destruct (getattr_name (type_info host type)); [|discriminate]. cbn [bind].
    destruct (field_names_ok fields Hf) as [names ->]. cbn [bind]. eexists; reflexivity.
  - (* OrderedDict *)
    destruct (node_data node) as [[| | | | |keys|]|]; try discriminate.
    rewrite Hp. cbn [bind]. eexists; reflexivity.
  - (* DefaultDict *)
    destruct (node_data node) as [[| | | |items| |]|]; try discriminate.
    destruct items as [|d [|k [|x r]]]; try discriminate;
      destruct k; try discriminate. rewrite Hp. cbn [bind]. eexists; reflexivity.
  - (* Deque *)
    destruct (node_data node) as [[]|]; eexists; reflexivity.
  - (* StructSequence *)
    destruct (node_data node) as [type|]; [|discriminate].
    apply andb_true_iff in Hp. destruct Hp as [Ht Hm]. rewrite Ht.
    apply Z.leb_le in Hm.
    rewrite (proj2 (Z.ltb_ge _ _) Hm). eexists; reflexivity.
Qed.

(** A node that fits the stack of the replay fits the agenda of the same
    height, and both grow alike. *)
Lemma ToString_step_ok (host : Host) (registry : PyTreeTypeRegistry)
    (node : Node) (stack : list (Z * Z)) (agenda : list string) :
  counts_ok node stack = true ->
  printable host registry node = true ->
  List.length agenda = List.length stack ->
  exists agenda', ToString_step host registry agenda node = OK agenda'
    /\ List.length agenda' = List.length (push_node node stack).
Proof.
  unfold counts_ok. intros Hc Hp Hlen.
  repeat (apply andb_true_iff in Hc; destruct Hc as [Hc ?]).
  apply Z.leb_le in Hc.
  match goal with Hx : (arity node <=? _) = true |- _ => apply Z.leb_le in Hx; rename Hx into Hle end.
  match goal with Hx : implb _ _ = true |- _ => rename Hx into Himp end.
  unfold ToString_step, expect_ge, push_node.
  rewrite Hlen, (proj2 (Z.leb_le _ _) Hle). cbn [bind].
  rewrite (proj2 (Z.ltb_ge _ _) Hc).
  destruct (node_representation_ok host registry node
              (agenda_tail (arity node) agenda) Hp) as [rep Hrep].
  assert (Hlen' : List.length (agenda_erase (arity node) agenda ++ [rep])
                  = List.length ((num_leaves node, num_nodes node)
                                   :: skipn (Z.to_nat (arity node)) stack)).
  { unfold agenda_erase. rewrite length_app, length_firstn. cbn [List.length].
    rewrite length_skipn. lia. }
  destruct (kind node) eqn:Ek;
    try (rewrite Hrep; cbn [bind]; eexists; split; [reflexivity | exact Hlen']).
  cbn [is_leaf_kind implb] in Himp. apply Z.eqb_eq in Himp.
  eexists; split; [reflexivity|].
  rewrite Himp. cbn [Z.to_nat skipn List.length]. rewrite length_app. cbn [List.length]. lia.
Qed.

Lemma ToString_agenda_ok (host : Host) (registry : PyTreeTypeRegistry)
    (traversal : list Node) :
  forall stack stack' agenda,
    replay traversal stack = Some stack' ->
    forallb (printable host registry) traversal = true ->
    List.length agenda = List.length stack ->
    exists agenda', ToString_agenda host registry agenda traversal = OK agenda'
      /\ List.length agenda' = List.length stack'.
Proof.
  induction traversal as [|node rest IH]; intros stack stack' agenda Hr Hp Hlen;
    cbn [replay forallb ToString_agenda] in *.
  - inversion Hr; subst. eexists; split; [reflexivity | exact Hlen].
  - destruct (counts_ok node stack) eqn:Hc; [|discriminate].
    apply andb_true_iff in Hp. destruct Hp as [Hn Hrest].
    destruct (ToString_step_ok host registry node stack agenda Hc Hn Hlen)
      as [mid [Hstep Hmid]].
    rewrite Hstep. cbn [bind]. exact (IH _ _ mid Hr Hrest Hmid).
Qed.

(** X15. [ToString] returns on every spec whose traversal is a well-formed
    post-order traversal and whose nodes carry the auxiliary data their kind
    is printed from: the loop leaves exactly one string on the agenda, the
    root's representation, and the result is that string wrapped in
    [PyTreeSpec(...)] with the flag and the namespace. *)
Theorem ToString_succeeds (host : Host) (registry : PyTreeTypeRegistry) (s : PyTreeSpec) :
  counts_well_formed (m_traversal s) = true ->
  forallb (printable host registry) (m_traversal s) = true ->
  exists root,
    ToString_agenda host registry [] (m_traversal s) = OK [root]
    /\ ToString host registry s = OK (ToString_wrap host s root).
Proof.
  unfold counts_well_formed. intros Hw Hp.
  destruct (replay (m_traversal s) []) as [[|e [|e' r]]|] eqn:Hr; try discriminate.
  destruct (ToString_agenda_ok host registry (m_traversal s) [] [e] [] Hr Hp eq_refl)
    as [agenda [Ha Hlen]].
  destruct agenda as [|root [|x r]]; try discriminate.
  exists root. split; [exact Ha|].
  unfold ToString. rewrite Ha. reflexivity.
Qed.

Lemma ToString_succeeds_witness :
  exists root,
    ToString_agenda plain_host empty_registry [] (m_traversal nested_spec) = OK [root]
    /\ ToString plain_host empty_registry nested_spec
       = OK (ToString_wrap plain_host nested_spec root).
Proof.
  apply (ToString_succeeds plain_host empty_registry nested_spec); reflexivity.
Defined.

Lemma tuple_collect_out (treespecs : list PyTreeSpec) :
  forall out leaves out' leaves',
    tuple_collect out leaves treespecs = OK (out', leaves') ->
    out' = out ++ List.concat (map m_traversal treespecs).
Proof.
  induction treespecs as [|t rest IH]; intros out leaves out' leaves' Hc;
    cbn [tuple_collect map List.concat] in *.
  - inversion Hc; subst. rewrite app_nil_r. reflexivity.
  - apply bind_ok in Hc. destruct Hc as [l [_ Hrest]].
    rewrite (IH _ _ _ _ Hrest), app_assoc. reflexivity.
Qed.

(** The children of a tuple print one after the other onto the agenda. *)
Lemma ToString_agenda_concat (host : Host) (registry : PyTreeTypeRegistry)
    (treespecs : list PyTreeSpec) (bodies : list string) :
  Forall2 (fun c b => ToString_agenda host registry [] (m_traversal c) = OK [b])
          treespecs bodies ->
  forall agenda,
    ToString_agenda host registry agenda (List.concat (map m_traversal treespecs))
    = OK (agenda ++ bodies).
Proof.
  induction 1 as [|c b cs bs Hc _ IH]; intros agenda; cbn [map List.concat].
  - rewrite app_nil_r. reflexivity.
  - rewrite ToString_agenda_app.
    pose proof (ToString_agenda_frame host registry agenda (m_traversal c) [] [b] Hc) as Hf.
    rewrite app_nil_r in Hf. rewrite Hf. cbn [bind].
    rewrite IH, <- app_assoc. reflexivity.
Qed.

(** X16. Printing composes with the tuple constructor: when every child
    prints, leaving its representation alone on the agenda, the tuple built
    from the children prints as the children's representations joined by
    [", "] between parentheses, with a trailing comma when there is exactly
    one child, wrapped with the tuple's own flag and namespace. *)
Theorem ToString_Tuple (host : Host) (registry : PyTreeTypeRegistry)
    (treespecs : list PyTreeSpec) (none_is_leaf : bool) (t : PyTreeSpec)
    (bodies : list string) :
  Forall2 (fun c b => ToString_agenda host registry [] (m_traversal c) = OK [b])
          treespecs bodies ->
  PyTreeSpec_Tuple treespecs none_is_leaf = OK t ->
  ToString host registry t
  = OK (ToString_wrap host t
          ("(" ++ match bodies with
                  | [b] => b ++ ","
                  | _ => String.concat ", " bodies
                  end ++ ")")%string).
Proof.
  intros Hb Ht. unfold PyTreeSpec_Tuple in Ht.
  apply bind_ok in Ht. destruct Ht as [ns [_ Ht]].
  apply bind_ok in Ht. destruct Ht as [[out leaves] [Hc Ht]].
  apply tuple_collect_out in Hc. cbn [app] in Hc. subst out.
  inversion Ht; subst t; clear Ht.
  unfold ToString. cbn [m_traversal].
  rewrite ToString_agenda_app, (ToString_agenda_concat host registry treespecs bodies Hb []).
  cbn [app bind ToString_agenda].
  pose proof (Forall2_length Hb) as Hlen.
  unfold ToString_step, expect_ge. cbn [kind arity].
  rewrite Hlen, Z.leb_refl. cbn [bind].
  rewrite (proj2 (Z.ltb_ge (Z.of_nat (List.length bodies)) 0) (Nat2Z.is_nonneg _)).
  unfold node_representation, agenda_tail, agenda_erase. cbn [kind arity bind].
  rewrite Nat2Z.id, Nat.sub_diag. cbn [skipn firstn app].
  unfold expect_eq. cbn [List.length Z.of_nat Pos.of_succ_nat Z.eqb Pos.eqb bind rev app].
  do 3 f_equal.
  destruct bodies as [|b [|b' r]].
  - reflexivity.
  - reflexivity.
  - assert (E : (Z.of_nat (List.length (b :: b' :: r)) =? 1) = false).
    { apply Z.eqb_neq. cbn [List.length]. lia. }
    rewrite E. reflexivity.
Qed.

Lemma ToString_Tuple_witness :
  ToString plain_host empty_registry
    (mkSpec (m_traversal (PyTreeSpec_Leaf false) ++ m_traversal nested_spec
             ++ [tuple_node 2 4 9]) false "")
  = OK "PyTreeSpec((*, [(*, None), [*, *]]))".
Proof.
  refine (ToString_Tuple plain_host empty_registry
            [PyTreeSpec_Leaf false; nested_spec] false
            (mkSpec (m_traversal (PyTreeSpec_Leaf false) ++ m_traversal nested_spec
                     ++ [tuple_node 2 4 9]) false "")
            ["*"; "[(*, None), [*, *]]"] _ _).
  - constructor; [reflexivity|]. constructor; [reflexivity|]. constructor.
  - reflexivity.
Defined.

Lemma ToString_step_same (host : Host) (registry : PyTreeTypeRegistry)
    (agenda : list string) (a b : Node) :
  same_printed_fields a b ->
  ToString_step host registry agenda a = ToString_step host registry agenda b.
Proof.
  intros (Hk & Ha & Hd & Hc).
  unfold ToString_step, node_representation. rewrite Hk, Ha, Hd, Hc. reflexivity.
Qed.

Lemma ToString_agenda_same (host : Host) (registry : PyTreeTypeRegistry)
    (ta tb : list Node) :
  Forall2 same_printed_fields ta tb ->
  forall agenda,
    ToString_agenda host registry agenda ta = ToString_agenda host registry agenda tb.
Proof.
  induction 1 as [|a b ra rb Hab _ IH]; intros agenda; cbn [ToString_agenda].
  - reflexivity.
  - rewrite (ToString_step_same host registry agenda a b Hab).
    destruct (ToString_step host registry agenda b); cbn [bind]; [apply IH | reflexivity].
Qed.

(** X17. [ToString] reads the kind, the arity, the auxiliary data and the
    registration of a node and nothing else: two specs with the same flag
    and namespace whose nodes agree on these four fields print alike (the
    same text, or the same error), whatever their path entries and their
    leaf and node counts are. *)
Theorem ToString_ignores_counts (host : Host) (registry : PyTreeTypeRegistry)
    (a b : PyTreeSpec) :
  Forall2 same_printed_fields (m_traversal a) (m_traversal b) ->
  m_none_is_leaf a = m_none_is_leaf b ->
  m_namespace a = m_namespace b ->
  ToString host registry a = ToString host registry b.
Proof.
  intros Hn Hf Hns. unfold ToString, ToString_wrap.
  rewrite (ToString_agenda_same host registry _ _ Hn []), Hf, Hns. reflexivity.
Qed.

Lemma ToString_ignores_counts_witness :
  ToString plain_host empty_registry miscounted_spec
  = ToString plain_host empty_registry (PyTreeSpec_Leaf false)
  /\ ToString plain_host empty_registry entries_spec
     = ToString plain_host empty_registry
         (mkSpec [leaf_node; tuple_node 1 1 2] false "").
Proof.
  split.
  - apply (ToString_ignores_counts plain_host empty_registry miscounted_spec
             (PyTreeSpec_Leaf false)); try reflexivity.
    constructor; [repeat split | constructor].
  - apply (ToString_ignores_counts plain_host empty_registry entries_spec
             (mkSpec [leaf_node; tuple_node 1 1 2] false "")); try reflexivity.
    constructor; [repeat split|]. constructor; [repeat split | constructor].
Defined.

(** ** The type of the root *)

Lemma back_app_nonempty (t1 t2 : list Node) (n : Node) :
  back t2 = OK n -> back (t1 ++ t2) = OK n.
Proof.
  intros Hb. destruct (back_ok_inv t2 n Hb) as [t' ->].
  rewrite app_assoc. apply back_snoc.
Qed.

(** X18. The root of a composition: when [Compose] returns, the result has
    the type and the number of children of [inner] if the root of [outer] is
    a [Leaf], and those of [outer] otherwise. *)
Theorem Compose_root_type (registry : PyTreeTypeRegistry) (outer inner r : PyTreeSpec) :
  Compose outer inner = OK r ->
  exists root_o,
    back (m_traversal outer) = OK root_o
    /\ (kind root_o = Leaf ->
          get_type registry r = get_type registry inner
          /\ spec_num_children r = spec_num_children inner)
    /\ (kind root_o <> Leaf ->
          get_type registry r = get_type registry outer
          /\ spec_num_children r = spec_num_children outer).
Proof.
  intros Hc.
  destruct (Compose_root_checked outer inner r Hc)
    as (lo & li & root & Hlo & Hli & Ht & _ & _ & _).
  unfold spec_num_leaves in Hlo, Hli.
  apply bind_ok in Hlo. destruct Hlo as (root_o & Hbo & _).
  apply bind_ok in Hli. destruct Hli as (root_i & Hbi & _).
  exists root_o. split; [exact Hbo|].
  destruct (back_ok_inv _ _ Hbo) as [body Hbody].
  unfold get_type, spec_num_children.
  rewrite Ht, Hbody, flat_map_app. cbn [flat_map]. rewrite app_nil_r.
  rewrite back_snoc. unfold compose_node. split.
  - intros Hk. rewrite Hk.
    rewrite (back_app_nonempty _ _ _ Hbi), Hbi. split; reflexivity.
  - intros Hk. cbn [bind].
    destruct (kind root_o) eqn:Ek; try contradiction;
      rewrite back_snoc; cbn [bind kind custom node_data arity];
      split; reflexivity.
Qed.

Lemma Compose_root_type_witness :
  exists root_o,
    back (m_traversal (pair_spec "")) = OK root_o
    /\ (kind root_o = Leaf ->
          get_type empty_registry (mkSpec
            (flat_map (compose_node (m_traversal nested_spec) 3 7) (m_traversal (pair_spec "")))
            false "") = get_type empty_registry nested_spec
          /\ spec_num_children (mkSpec
            (flat_map (compose_node (m_traversal nested_spec) 3 7) (m_traversal (pair_spec "")))
            false "") = spec_num_children nested_spec)
    /\ (kind root_o <> Leaf ->
          get_type empty_registry (mkSpec
            (flat_map (compose_node (m_traversal nested_spec) 3 7) (m_traversal (pair_spec "")))
            false "") = get_type empty_registry (pair_spec "")
          /\ spec_num_children (mkSpec
            (flat_map (compose_node (m_traversal nested_spec) 3 7) (m_traversal (pair_spec "")))
            false "") = spec_num_children (pair_spec "")).
Proof.
  apply (Compose_root_type empty_registry (pair_spec "") nested_spec). reflexivity.
Defined.

(** X19. [get_type] fails exactly on a spec with an empty traversal or with
    a [Custom] root that has no registration, and so returns on every
    well-formed spec; on the results of the constructors it is [None] for
    [Leaf], [type(None)] or [None] for the [None] spec according to the
    flag, and [tuple] for whatever [Tuple] returns. *)
Theorem get_type_fails_iff (registry : PyTreeTypeRegistry) (s : PyTreeSpec) :
  (is_ok (get_type registry s) = false <->
     m_traversal s = []
     \/ exists root, back (m_traversal s) = OK root
          /\ kind root = Custom /\ custom root = Datatypes.None)
  /\ (well_formed s = true -> is_ok (get_type registry s) = true)
  /\ (forall none_is_leaf,
        get_type registry (PyTreeSpec_Leaf none_is_leaf) = OK (Some PyNone)
        /\ get_type registry (PyTreeSpec_None none_is_leaf)
           = OK (Some (if none_is_leaf then PyNone else PyNone_Type)))
  /\ (forall treespecs none_is_leaf t,
        PyTreeSpec_Tuple treespecs none_is_leaf = OK t ->
        get_type registry t = OK (Some PyTuple_Type)).
Proof.
  assert (Hiff : is_ok (get_type registry s) = false <->
     m_traversal s = []
     \/ exists root, back (m_traversal s) = OK root
          /\ kind root = Custom /\ custom root = Datatypes.None).
  { unfold get_type. split.
    - intros Hf. destruct (back (m_traversal s)) as [root|e] eqn:Hb.
      + right. exists root. cbn [bind] in Hf.
        destruct (kind root) eqn:Ek; try discriminate.
        destruct (custom root); [discriminate|]. repeat split.
      + left. unfold back in Hb.
        destruct (rev (m_traversal s)) eqn:Hr; [|discriminate].
        rewrite <- (rev_involutive (m_traversal s)), Hr. reflexivity.
    - intros [He | (root & Hb & Hk & Hc)].
      + rewrite He. reflexivity.
      + rewrite Hb. cbn [bind]. rewrite Hk, Hc. reflexivity. }
  split; [exact Hiff|]. split; [|split].
  - intros Hw. apply Bool.not_false_is_true. intros Hok.
    apply (proj1 Hiff) in Hok. destruct Hok as [He | (root & Hb & Hk & Hc)].
    + unfold well_formed, counts_well_formed in Hw. rewrite He in Hw. discriminate.
    + destruct (well_formed_root_ok s root Hw Hb) as [_ Hn].
      unfold node_ok in Hn. rewrite Hk, Hc in Hn. discriminate.
  - intros []; split; reflexivity.
  - intros treespecs none_is_leaf t Ht. unfold PyTreeSpec_Tuple in Ht.
    apply bind_ok in Ht. destruct Ht as [ns [_ Ht]].
    apply bind_ok in Ht. destruct Ht as [[out leaves] [_ Ht]].
    inversion Ht; subst t. unfold get_type. cbn [m_traversal].
    rewrite back_snoc. reflexivity.
Qed.

Lemma get_type_fails_iff_witness :
  is_ok (get_type empty_registry nested_spec) = true
  /\ get_type empty_registry (pair_spec "") = OK (Some PyTuple_Type).
Proof.
  destruct (get_type_fails_iff empty_registry nested_spec) as (_ & Hw & _ & Ht).
  split.
  - apply Hw. reflexivity.
  - apply (Ht [PyTreeSpec_Leaf false; PyTreeSpec_Leaf false] false (pair_spec "")).
    reflexivity.
Defined.

Lemma equality_symmetric_witness :
  spec_eq (pair_spec "a") (pair_spec "") = spec_eq (pair_spec "") (pair_spec "a")
  /\ spec_ne (pair_spec "a") (pair_spec "") = spec_ne (pair_spec "") (pair_spec "a")
  /\ spec_eq (pair_spec "a") (pair_spec "a") = OK true
  /\ spec_ne (pair_spec "a") (pair_spec "a") = OK false.
Proof.
  exact (equality_symmetric (pair_spec "a") (pair_spec "")).
Defined.

Lemma Tuple_failures_witness :
  PyTreeSpec_Tuple [pair_spec "a"; pair_spec "b"] false = Raise InvalidArgument.
Proof.
  apply (proj2 (proj1 (Tuple_failures [pair_spec "a"; pair_spec "b"] false))).
  intros [_ Hag].
  assert (E : "a" = "b").
  { apply Hag; cbn [map m_namespace pair_spec In]; auto; discriminate. }
  discriminate E.
Defined.

Lemma GetKind_custom_iff_witness :
  fst (GetKind plain_host box_registry (fun _ => Custom) false (PyType "Box") "") = Custom
  /\ fst (GetKind plain_host empty_registry (fun _ => Custom) false (PyType "Box") "") = Leaf.
Proof.
  split.
  - destruct (GetKind_custom_iff plain_host box_registry (fun _ => Custom) false
                (PyType "Box") "") as (_ & _ & Hk & _).
    apply (Hk 1%positive). reflexivity.
  - destruct (GetKind_custom_iff plain_host empty_registry (fun _ => Custom) false
                (PyType "Box") "") as (_ & _ & _ & Hu).
    apply (proj2 (proj2 (Hu eq_refl))). split; reflexivity.
Defined.
